(** * The pygame event module (src/src/event.c), embedded and checked

    The development follows event.c top to bottom: machine integers, the
    native (SDL2) event record and constants, the legacy pygame event-type
    enumeration, key-repeat filtering in [Py_PollEvent] / [Py_WaitEvent],
    the type translation [sdl_to_pg] / [pg_type_to_sdl] / [pg_to_sdl], the
    user-object list, the event decoder [dict_from_event], the constructor
    [Event] and the names of [name_from_eventtype], and the queue
    operations of the module ([pygame_wait], [pygame_poll], [event_get],
    [event_clear], [event_peek], [event_post], [set_allowed],
    [set_blocked], [get_blocked]).

    Data model (LP64, GCC on x86-64): [int] and [Sint32] are 32-bit two's
    complement, [Uint32] and [SDL_EventType] are 32-bit unsigned,
    [Py_ssize_t] is 64-bit signed; a 32-bit shift takes its count modulo
    32.  Every machine integer is a [Z]; conversions are written out. *)

From Stdlib Require Import ZArith Lia List Bool Floats Sorted.
From stdpp Require Import base option list gmap strings.

Local Open Scope Z_scope.
Set Warnings "-register-all".

(** ** Machine integers *)

Definition to_Uint32 (x : Z) : Z := x mod 2 ^ 32.
Definition to_Uint8 (x : Z) : Z := x mod 2 ^ 8.
(** Conversion to a 32-bit [int] (wraps, as GCC does). *)
Definition to_int (x : Z) : Z := (x + 2 ^ 31) mod 2 ^ 32 - 2 ^ 31.
Definition INT_MIN : Z := - 2 ^ 31.
Definition PY_SSIZE_T_MAX : Z := 2 ^ 63 - 1.
Definition PY_SSIZE_T_MIN : Z := - 2 ^ 63.
Definition NULL : Z := 0.

(** ** SDL2 constants (SDL_events.h, SDL_video.h, SDL_joystick.h) *)

Definition SDL_QUIT : Z := 0x100.
Definition SDL_WINDOWEVENT : Z := 0x200.
Definition SDL_SYSWMEVENT : Z := 0x201.
Definition SDL_KEYDOWN : Z := 0x300.
Definition SDL_KEYUP : Z := 0x301.
Definition SDL_MOUSEMOTION : Z := 0x400.
Definition SDL_MOUSEBUTTONDOWN : Z := 0x401.
Definition SDL_MOUSEBUTTONUP : Z := 0x402.
Definition SDL_JOYAXISMOTION : Z := 0x600.
Definition SDL_JOYBALLMOTION : Z := 0x601.
Definition SDL_JOYHATMOTION : Z := 0x602.
Definition SDL_JOYBUTTONDOWN : Z := 0x603.
Definition SDL_JOYBUTTONUP : Z := 0x604.
Definition SDL_FIRSTEVENT : Z := 0.
Definition SDL_USEREVENT : Z := 0x8000.
Definition SDL_LASTEVENT : Z := 0xFFFF.

Definition SDL_WINDOWEVENT_EXPOSED : Z := 3.
Definition SDL_WINDOWEVENT_RESIZED : Z := 5.
Definition SDL_WINDOWEVENT_MINIMIZED : Z := 7.
Definition SDL_WINDOWEVENT_RESTORED : Z := 9.
Definition SDL_WINDOWEVENT_ENTER : Z := 10.
Definition SDL_WINDOWEVENT_LEAVE : Z := 11.
Definition SDL_WINDOWEVENT_FOCUS_GAINED : Z := 12.
Definition SDL_WINDOWEVENT_FOCUS_LOST : Z := 13.

Definition SDL_HAT_UP : Z := 1.
Definition SDL_HAT_RIGHT : Z := 2.
Definition SDL_HAT_DOWN : Z := 4.
Definition SDL_HAT_LEFT : Z := 8.
Definition SDL_BUTTON (x : Z) : Z := Z.shiftl 1 (x - 1).
Definition KMOD_SHIFT : Z := 3.

Definition SDL_IGNORE : Z := 0.
Definition SDL_ENABLE : Z := 1.
Definition SDL_QUERY : Z := -1.

(** ** The native event record

    [SDL_Event] is a C union; the members event.c reads are kept as
    separate groups of fields, one group per union member, with the common
    header ([type], [timestamp], [windowID]) shared. *)

Record SDL_WindowEvent := mkWindow
  { w_event : Z; w_data1 : Z; w_data2 : Z }.
Record SDL_KeyboardEvent := mkKey
  { k_repeat : Z; k_scancode : Z; k_sym : Z; k_mod : Z }.
Record SDL_MouseMotionEvent := mkMotion
  { m_state : Z; m_x : Z; m_y : Z; m_xrel : Z; m_yrel : Z }.
Record SDL_MouseButtonEvent := mkButton
  { b_button : Z; b_x : Z; b_y : Z }.
Record SDL_JoyAxisEvent := mkJAxis
  { ja_which : Z; ja_axis : Z; ja_value : Z }.
Record SDL_JoyBallEvent := mkJBall
  { jb_which : Z; jb_ball : Z; jb_xrel : Z; jb_yrel : Z }.
Record SDL_JoyHatEvent := mkJHat
  { jh_which : Z; jh_hat : Z; jh_value : Z }.
Record SDL_JoyButtonEvent := mkJButton
  { jbt_which : Z; jbt_button : Z }.
Record SDL_UserEvent := mkUser
  { u_code : Z; u_data1 : Z; u_data2 : Z }.

Record SDL_Event := mkEvent
  { type : Z;
    timestamp : Z;
    windowID : Z;
    window : SDL_WindowEvent;
    key : SDL_KeyboardEvent;
    motion : SDL_MouseMotionEvent;
    button : SDL_MouseButtonEvent;
    jaxis : SDL_JoyAxisEvent;
    jball : SDL_JoyBallEvent;
    jhat : SDL_JoyHatEvent;
    jbutton : SDL_JoyButtonEvent;
    user : SDL_UserEvent }.

Definition set_type (t : Z) (e : SDL_Event) : SDL_Event :=
  mkEvent t (timestamp e) (windowID e) (window e) (key e) (motion e)
          (button e) (jaxis e) (jball e) (jhat e) (jbutton e) (user e).
Definition set_timestamp (t : Z) (e : SDL_Event) : SDL_Event :=
  mkEvent (type e) t (windowID e) (window e) (key e) (motion e)
          (button e) (jaxis e) (jball e) (jhat e) (jbutton e) (user e).
Definition set_user (u : SDL_UserEvent) (e : SDL_Event) : SDL_Event :=
  mkEvent (type e) (timestamp e) (windowID e) (window e) (key e) (motion e)
          (button e) (jaxis e) (jball e) (jhat e) (jbutton e) u.

(** An all-zero record, the base of the concrete events used below. *)
Definition zero_event : SDL_Event :=
  mkEvent 0 0 0 (mkWindow 0 0 0) (mkKey 0 0 0 0) (mkMotion 0 0 0 0 0)
          (mkButton 0 0 0) (mkJAxis 0 0 0) (mkJBall 0 0 0 0) (mkJHat 0 0 0)
          (mkJButton 0 0) (mkUser 0 0 0).

Definition keydown_event (ts rep : Z) : SDL_Event :=
  mkEvent SDL_KEYDOWN ts 0 (mkWindow 0 0 0) (mkKey rep 0 97 0)
          (mkMotion 0 0 0 0 0) (mkButton 0 0 0) (mkJAxis 0 0 0)
          (mkJBall 0 0 0 0) (mkJHat 0 0 0) (mkJButton 0 0) (mkUser 0 0 0).

Definition window_event (sub : Z) : SDL_Event :=
  mkEvent SDL_WINDOWEVENT 0 0 (mkWindow sub 0 0) (mkKey 0 0 0 0)
          (mkMotion 0 0 0 0 0) (mkButton 0 0 0) (mkJAxis 0 0 0)
          (mkJBall 0 0 0 0) (mkJHat 0 0 0) (mkJButton 0 0) (mkUser 0 0 0).

(** ** Key repeat handling *)

Record KeyRepeat := mkRepeat
  { delay : Z; interval : Z; firsttime : Z; r_timestamp : Z }.

(** [Py_EnableKeyRepeat]: [None] is the -1 return. *)
Definition Py_EnableKeyRepeat (d i : Z) : option KeyRepeat :=
  if (d <? 0) || (i <? 0) then None else Some (mkRepeat d i 0 0).

Definition repeat_enabled (r : KeyRepeat) : bool :=
  (0 <? delay r) || (0 <? interval r).

(** What the body shared by the two loops does with one event: [None] is
    [continue] (the event is dropped), [Some r'] falls out of the [if] with
    the tracking state [r'].

    [r.timestamp - e->key.timestamp < r.delay] subtracts a [Uint32] from an
    [int]: both operands of [-] and then of [<] are converted to unsigned. *)
Definition repeat_filter (r : KeyRepeat) (e : SDL_Event) : option KeyRepeat :=
  if type e =? SDL_KEYDOWN then
    if negb (k_repeat (key e) =? 0) then
      if negb (repeat_enabled r) then None
      else if negb (firsttime r =? 0) then
        if to_Uint32 (r_timestamp r - timestamp e) <? to_Uint32 (delay r)
        then None
        else Some (mkRepeat (delay r) (interval r) 0 (to_int (timestamp e)))
      else if to_Uint32 (timestamp e - r_timestamp r) <? to_Uint32 (interval r)
        then None
        else Some (mkRepeat (delay r) (interval r) (firsttime r)
                            (to_int (timestamp e)))
    else if repeat_enabled r then
      Some (mkRepeat (delay r) (interval r) 1 (to_int (timestamp e)))
    else Some r
  else Some r.

(** The codes [SDL_PollEvent] takes: it is
    [SDL_PeepEvents (event, 1, SDL_GETEVENT, SDL_FIRSTEVENT, SDL_LASTEVENT)]
    (SDL_events.c). *)
Definition pollable (ev : SDL_Event) : bool :=
  (SDL_FIRSTEVENT <=? type ev) && (type ev <=? SDL_LASTEVENT).

(** [Py_PollEvent]: [SDL_PollEvent] hands out the first queued event whose
    code lies in [SDL_FIRSTEVENT, SDL_LASTEVENT] and returns 0 when there
    is none; an event of another code is passed over by every call and
    stays queued, ahead of what is left.  Result: return code, the contents
    of [*e], the tracking state and the remaining queue. *)
Fixpoint Py_PollEvent (r : KeyRepeat) (q : list SDL_Event) (e : SDL_Event)
  : Z * SDL_Event * KeyRepeat * list SDL_Event :=
  match q with
  | [] => (0, e, r, [])
  | ev :: q' =>
      if pollable ev then
        match repeat_filter r ev with
        | None => Py_PollEvent r q' ev
        | Some r' => (1, ev, r', q')
        end
      else
        let '(rc, e', r', rest) := Py_PollEvent r q' e in
        (rc, e', r', ev :: rest)
  end.

(** One answer of the native blocking wait: [SDL_WaitEvent] returns 1 and
    fills [*e], or returns 0 on an error and leaves [*e] alone. *)
Inductive wait_result :=
| WaitOk (ev : SDL_Event)
| WaitError.

(** [Py_WaitEvent].  The list holds the answers the native wait gives to
    the successive calls; on the empty list the native wait never returns
    ([None]).  The loop condition is [SDL_WaitEvent (e) == 0], so the body
    runs on an error answer, on the event [*e] already holds, and a
    successful answer leaves the loop with [rcode] still -1. *)
Fixpoint Py_WaitEvent_loop (r : KeyRepeat) (waits : list wait_result)
    (e : SDL_Event) : option (Z * SDL_Event * KeyRepeat * list wait_result) :=
  match waits with
  | [] => None
  | WaitOk ev :: rest => Some (-1, ev, r, rest)
  | WaitError :: rest =>
      match repeat_filter r e with
      | None => Py_WaitEvent_loop r rest e
      | Some r' => Some (0, e, r', rest)
      end
  end.

Definition Py_WaitEvent (repeat : KeyRepeat) (waits : list wait_result)
    (e : SDL_Event) : option (Z * SDL_Event * KeyRepeat * list wait_result) :=
  match Py_WaitEvent_loop repeat waits e with
  | None => None
  | Some (rcode, e', r, rest) =>
      Some (rcode, e',
            mkRepeat (delay repeat) (interval repeat) (firsttime r)
                     (r_timestamp r), rest)
  end.

(** ** The legacy pygame event-type enumeration

    The PGE_* constants come from pygame.h, which is not among the sources;
    the code below only names them.  They are taken as parameters. *)

Class PgeEnum := mkPgeEnum
  { PGE_NOEVENT : Z;
    PGE_ACTIVEEVENT : Z;
    PGE_KEYDOWN : Z;
    PGE_KEYUP : Z;
    PGE_MOUSEMOTION : Z;
    PGE_MOUSEBUTTONDOWN : Z;
    PGE_MOUSEBUTTONUP : Z;
    PGE_JOYAXISMOTION : Z;
    PGE_JOYBALLMOTION : Z;
    PGE_JOYHATMOTION : Z;
    PGE_JOYBUTTONDOWN : Z;
    PGE_JOYBUTTONUP : Z;
    PGE_QUIT : Z;
    PGE_SYSWMEVENT : Z;
    PGE_VIDEORESIZE : Z;
    PGE_VIDEOEXPOSE : Z;
    PGE_OTHEREVENT : Z;
    PGE_USEREVENT : Z;
    PGE_NUMEVENTS : Z;
    PGE_APPFOCUSMOUSE : Z;
    PGE_APPINPUTFOCUS : Z;
    PGE_APPACTIVE : Z }.

(** Modelled from the spec: pygame.h is missing, and the spec fixes the
    legacy numbering as the historical SDL 1.2 one (a no-op value, a
    built-in band, a contiguous user band [UserBase, NumTypes)).  The
    "other" type takes the first slot SDL 1.2 left reserved. *)
Definition sdl12_enum : PgeEnum :=
  {| PGE_NOEVENT := 0; PGE_ACTIVEEVENT := 1; PGE_KEYDOWN := 2; PGE_KEYUP := 3;
     PGE_MOUSEMOTION := 4; PGE_MOUSEBUTTONDOWN := 5; PGE_MOUSEBUTTONUP := 6;
     PGE_JOYAXISMOTION := 7; PGE_JOYBALLMOTION := 8; PGE_JOYHATMOTION := 9;
     PGE_JOYBUTTONDOWN := 10; PGE_JOYBUTTONUP := 11; PGE_QUIT := 12;
     PGE_SYSWMEVENT := 13; PGE_VIDEORESIZE := 16; PGE_VIDEOEXPOSE := 17;
     PGE_OTHEREVENT := 14; PGE_USEREVENT := 24; PGE_NUMEVENTS := 32;
     PGE_APPFOCUSMOUSE := 1; PGE_APPINPUTFOCUS := 2; PGE_APPACTIVE := 4 |}.

Definition PGE_NON_SDL_EVENT : Z := to_Uint32 (-1).
Definition PGE_ALLEVENTS : Z := to_Uint32 (-1).
(** [1 << t] on a 32-bit [int].  For a count outside 0..31 the C shift is
    undefined; the shift instruction of x86-64 that GCC emits takes the
    count modulo 32, and that is what the compiled module does. *)
Definition PGE_EVENTMASK (t : Z) : Z := Z.shiftl 1 (Z.land t 31).
Definition USEROBJECT_CHECK1 : Z := 0xDEADBEEF.
Definition USEROBJECT_CHECK2 : Z := 0xFEEDF00D.

(** The two file-scope variables delimiting the user band. *)
Record UserBand := mkBand { first_user_event : Z; last_user_event : Z }.

(** Their static initialisers. *)
Definition band_init : UserBand := mkBand PGE_NON_SDL_EVENT PGE_NON_SDL_EVENT.

(** [SDL_RegisterEvents] (SDL_events.c): the native counter of custom event
    codes starts at [SDL_USEREVENT]; the answer is the base of the block,
    or [(Uint32)-1] when the budget is exhausted. *)
Definition SDL_RegisterEvents (SDL_userevents numevents : Z) : Z * Z :=
  if (0 <? numevents) && (SDL_userevents + numevents <=? SDL_LASTEVENT)
  then (SDL_userevents, SDL_userevents + numevents)
  else (to_Uint32 (-1), SDL_userevents).

Section Translation.
Context {K : PgeEnum}.

(** The labels of the [switch] in [pg_type_to_sdl], in source order. *)
Definition builtin_types : list Z :=
  [PGE_ACTIVEEVENT; PGE_VIDEOEXPOSE; PGE_VIDEORESIZE; PGE_KEYDOWN; PGE_KEYUP;
   PGE_MOUSEMOTION; PGE_MOUSEBUTTONDOWN; PGE_MOUSEBUTTONUP;
   PGE_JOYAXISMOTION; PGE_JOYBALLMOTION; PGE_JOYHATMOTION;
   PGE_JOYBUTTONDOWN; PGE_JOYBUTTONUP; PGE_QUIT; PGE_SYSWMEVENT].

(** What the code needs of the enumeration: case labels of one [switch] are
    distinct (C rejects duplicates), the built-in band lies below the user
    band, and every type fits the 32-bit filter mask. *)
Record pge_wf : Prop := mkWf
  { wf_nodup : NoDup (PGE_NOEVENT :: PGE_OTHEREVENT :: builtin_types);
    wf_builtin : Forall (fun t => 0 <= t < PGE_USEREVENT)
                        (PGE_NOEVENT :: PGE_OTHEREVENT :: builtin_types);
    wf_user : PGE_USEREVENT < PGE_NUMEVENTS <= 32 }.

(** The part of MODINIT that sets the user band (lines 1474-1480).  The
    first component of the state is the native counter. *)
Definition modinit_band (SDL_userevents : Z) (b : UserBand) : Z * UserBand :=
  if negb (first_user_event b =? PGE_NON_SDL_EVENT) then
    let numevents := PGE_NUMEVENTS - PGE_USEREVENT + 1 in
    let '(f, n') := SDL_RegisterEvents SDL_userevents numevents in
    if negb (f =? PGE_NON_SDL_EVENT)
    then (n', mkBand f (to_Uint32 (f + numevents - 1)))
    else (n', mkBand f (last_user_event b))
  else (SDL_userevents, b).

Definition sdl_to_pg (b : UserBand) (e : SDL_Event) : Z :=
  if type e =? SDL_WINDOWEVENT then
    let sub := w_event (window e) in
    if (sub =? SDL_WINDOWEVENT_ENTER) || (sub =? SDL_WINDOWEVENT_LEAVE)
       || (sub =? SDL_WINDOWEVENT_FOCUS_GAINED)
       || (sub =? SDL_WINDOWEVENT_FOCUS_LOST)
       || (sub =? SDL_WINDOWEVENT_MINIMIZED)
       || (sub =? SDL_WINDOWEVENT_RESTORED) then PGE_ACTIVEEVENT
    else if sub =? SDL_WINDOWEVENT_RESIZED then PGE_VIDEORESIZE
    else if sub =? SDL_WINDOWEVENT_EXPOSED then PGE_VIDEOEXPOSE
    else PGE_OTHEREVENT
  else if type e =? SDL_KEYDOWN then PGE_KEYDOWN
  else if type e =? SDL_KEYUP then PGE_KEYUP
  else if type e =? SDL_MOUSEMOTION then PGE_MOUSEMOTION
  else if type e =? SDL_MOUSEBUTTONDOWN then PGE_MOUSEBUTTONDOWN
  else if type e =? SDL_MOUSEBUTTONUP then PGE_MOUSEBUTTONUP
  else if type e =? SDL_JOYAXISMOTION then PGE_JOYAXISMOTION
  else if type e =? SDL_JOYBALLMOTION then PGE_JOYBALLMOTION
  else if type e =? SDL_JOYHATMOTION then PGE_JOYHATMOTION
  else if type e =? SDL_JOYBUTTONDOWN then PGE_JOYBUTTONDOWN
  else if type e =? SDL_JOYBUTTONUP then PGE_JOYBUTTONUP
  else if type e =? SDL_QUIT then PGE_QUIT
  else if type e =? SDL_SYSWMEVENT then PGE_SYSWMEVENT
  else if (first_user_event b <=? type e) && (type e <=? last_user_event b)
  then to_int (to_Uint32 (type e - first_user_event b + PGE_USEREVENT))
  else PGE_OTHEREVENT.

Definition pg_type_to_sdl (b : UserBand) (pge_type : Z) : Z :=
  if (pge_type =? PGE_ACTIVEEVENT) || (pge_type =? PGE_VIDEOEXPOSE)
     || (pge_type =? PGE_VIDEORESIZE) then SDL_WINDOWEVENT
  else if pge_type =? PGE_KEYDOWN then SDL_KEYDOWN
  else if pge_type =? PGE_KEYUP then SDL_KEYUP
  else if pge_type =? PGE_MOUSEMOTION then SDL_MOUSEMOTION
  else if pge_type =? PGE_MOUSEBUTTONDOWN then SDL_MOUSEBUTTONDOWN
  else if pge_type =? PGE_MOUSEBUTTONUP then SDL_MOUSEBUTTONUP
  else if pge_type =? PGE_JOYAXISMOTION then SDL_JOYAXISMOTION
  else if pge_type =? PGE_JOYBALLMOTION then SDL_JOYBALLMOTION
  else if pge_type =? PGE_JOYHATMOTION then SDL_JOYHATMOTION
  else if pge_type =? PGE_JOYBUTTONDOWN then SDL_JOYBUTTONDOWN
  else if pge_type =? PGE_JOYBUTTONUP then SDL_JOYBUTTONUP
  else if pge_type =? PGE_QUIT then SDL_QUIT
  else if pge_type =? PGE_SYSWMEVENT then SDL_SYSWMEVENT
  else if (PGE_USEREVENT <=? pge_type) && (pge_type <? PGE_NUMEVENTS)
  then to_Uint32 (pge_type - PGE_USEREVENT + first_user_event b)
  else PGE_NON_SDL_EVENT.

End Translation.

(** ** Python values and event objects

    Host-runtime objects are values.  [PyOpaque] stands for any object that
    is not a number (strings, lists, ...). *)

Inductive PyObject :=
| PyInt (n : Z)
| PyFloat (f : float)
| PyTuple (items : list PyObject)
| PyUnicode (code_points : list Z)
| PyOpaque (tag : Z).

(** A [dict] with string keys. *)
Abbreviation Dict := (gmap string PyObject).

(** [PyEventObject]; [dict] is a pointer, [None] is NULL. *)
Record PyEventObject := mkPyEvent { e_type : Z; e_dict : option Dict }.

Definition PyNumber_Check (o : PyObject) : bool :=
  match o with
  | PyInt _ | PyFloat _ => true
  | _ => false
  end.

(** [PyNumber_AsSsize_t (o, NULL)]: an integer too large for [Py_ssize_t] is
    clipped; an object without [__index__] (a float) gives -1 and leaves a
    TypeError pending.  The second component tells whether an exception is
    pending. *)
Definition PyNumber_AsSsize_t (o : PyObject) : Z * bool :=
  match o with
  | PyInt n => (Z.max PY_SSIZE_T_MIN (Z.min n PY_SSIZE_T_MAX), false)
  | _ => (-1, true)
  end.

Section OtherEvent.
Context {K : PgeEnum}.

(** [get_sdl_event_code]: the native code and whether an exception is left
    pending.  [last_user_event + 1] is unsigned arithmetic, stored in an
    [int]; [c > last_user_event] compares a 64-bit signed with a 32-bit
    unsigned value, hence in 64-bit signed arithmetic. *)
Definition get_sdl_event_code (b : UserBand) (e : PyEventObject) : Z * bool :=
  let type0 := to_int (to_Uint32 (last_user_event b + 1)) in
  match e_dict e with
  | None => (type0, false)
  | Some dict =>
      match dict !! "sdl2_type"%string with
      | None => (type0, false)
      | Some sdl_type =>
          if negb (PyNumber_Check sdl_type) then (type0, false)
          else
            let '(c, err) := PyNumber_AsSsize_t sdl_type in
            if (last_user_event b <? c) || (c <? INT_MIN) then (type0, err)
            else (to_int c, err)
      end
  end.

Definition pg_to_sdl (b : UserBand) (e : PyEventObject) : Z * bool :=
  let pge_type := e_type e in
  if pge_type =? PGE_OTHEREVENT then get_sdl_event_code b e
  else (to_int (pg_type_to_sdl b pge_type), false).

End OtherEvent.

(** ** The user-object list

    Nodes live in the C heap, a finite map from addresses to nodes; a
    handle is the address of a node.  The payload type [Obj] stands for a
    non-null [PyObject*]: [user_event_addobject] dereferences its argument
    (Py_INCREF) before storing it. *)

(** Result of running C code on the modelled heap: [Fault] is an access
    through a null or unallocated pointer (undefined behaviour), [Spin] is
    a loop that does not finish within the steps allotted to it. *)
Inductive outcome (A : Type) :=
| Done (a : A)
| Fault
| Spin.
Arguments Done {A} a.
Arguments Fault {A}.
Arguments Spin {A}.

Section Registry.
Context {Obj : Type}.

Record UserEventObject := mkNode { next : Z; object : Obj }.

Record Registry := mkRegistry
  { mem : gmap Z UserEventObject;
    user_event_objects : Z }.

Definition registry_init : Registry := mkRegistry ∅ NULL.

(** [user_event_addobject]: [a] is what [PyMem_New] returns, NULL when the
    allocation fails.  On success the payload gets one more reference. *)
Definition user_event_addobject (a : Z) (obj : Obj) (st : Registry)
  : Z * Registry :=
  if a =? NULL then (NULL, st)
  else (a, mkRegistry (<[a := mkNode (user_event_objects st) obj]> (mem st)) a).

(** [while (hunt && hunt->next != userobj) hunt = hunt->next;] *)
Fixpoint hunt_loop (fuel : nat) (m : gmap Z UserEventObject)
    (hunt userobj : Z) : outcome Z :=
  match fuel with
  | O => Spin
  | S fuel' =>
      if hunt =? NULL then Done hunt
      else match m !! hunt with
           | None => Fault
           | Some n =>
               if next n =? userobj then Done hunt
               else hunt_loop fuel' m (next n) userobj
           end
  end.

(** [user_event_getobject]: the payload ([None] is the NULL return) and
    the list afterwards.  [PyMem_Del] removes the node from the heap. *)
Definition user_event_getobject (userobj : Z) (st : Registry)
  : outcome (option Obj * Registry) :=
  if user_event_objects st =? NULL then Done (None, st)
  else if user_event_objects st =? userobj then
    match mem st !! userobj with
    | None => Fault
    | Some n =>
        Done (Some (object n), mkRegistry (delete userobj (mem st)) (next n))
    end
  else
    match hunt_loop (S (size (mem st))) (mem st) (user_event_objects st) userobj
    with
    | Spin => Spin
    | Fault => Fault
    | Done hunt =>
        if hunt =? NULL then Done (None, st)
        else
          match mem st !! hunt, mem st !! userobj with
          | Some h, Some n =>
              Done (Some (object n),
                    mkRegistry
                      (delete userobj
                         (<[hunt := mkNode (next n) (object h)]> (mem st)))
                      (user_event_objects st))
          | _, _ => Fault
          end
    end.

(** The loop of [user_event_cleanup]; the list collects the payloads handed
    to [Py_DECREF], in order. *)
Fixpoint cleanup_loop (fuel : nat) (m : gmap Z UserEventObject) (hunt : Z)
  : outcome (list Obj * gmap Z UserEventObject) :=
  match fuel with
  | O => Spin
  | S fuel' =>
      if hunt =? NULL then Done ([], m)
      else match m !! hunt with
           | None => Fault
           | Some kill =>
               match cleanup_loop fuel' (delete hunt m) (next kill) with
               | Done (released, m') => Done (object kill :: released, m')
               | Fault => Fault
               | Spin => Spin
               end
           end
  end.

Definition user_event_cleanup (st : Registry)
  : outcome (list Obj * Registry) :=
  if user_event_objects st =? NULL then Done ([], st)
  else match cleanup_loop (S (size (mem st))) (mem st) (user_event_objects st)
       with
       | Done (released, m') => Done (released, mkRegistry m' NULL)
       | Fault => Fault
       | Spin => Spin
       end.

(** The list segment from [p] to [q] holds the nodes [l] (address and
    payload), in order. *)
Fixpoint lseg (m : gmap Z UserEventObject) (p q : Z) (l : list (Z * Obj))
  : Prop :=
  match l with
  | [] => p = q
  | (a, x) :: l' =>
      a = p /\ p <> NULL /\
      exists nx, m !! p = Some (mkNode nx x) /\ lseg m nx q l'
  end.

(** The list holds exactly the nodes [l], each once; nothing is allocated
    at the null address. *)
Definition registry_inv (st : Registry) (l : list (Z * Obj)) : Prop :=
  lseg (mem st) (user_event_objects st) NULL l /\ NoDup (l.*1)
  /\ mem st !! NULL = None.

End Registry.
Arguments UserEventObject : clear implicits.
Arguments Registry : clear implicits.

(** ** Decoding a native event: [dict_from_event] and [PyEvent_New] *)

(** Conversion of a C integer to [double]. *)
Definition float_of_Z (z : Z) : float :=
  if z <? 0 then PrimFloat.opp (PrimFloat.of_uint63 (Uint63.of_Z (- z)))
  else PrimFloat.of_uint63 (Uint63.of_Z z).

(** [event->jaxis.value/32767.0] *)
Definition jaxis_normalized (value : Z) : float :=
  PrimFloat.div (float_of_Z value) (float_of_Z 32767).

(** [insobj]: a NULL value ([None]) is not inserted. *)
Definition insobj (dict : Dict) (name : string) (v : option PyObject) : Dict :=
  match v with
  | Some o => <[name := o]> dict
  | None => dict
  end.

Definition Py_BuildValue_ii (x y : Z) : option PyObject :=
  Some (PyTuple [PyInt x; PyInt y]).
Definition PyInt_FromLong (x : Z) : option PyObject := Some (PyInt x).
Definition bool_to_Z (b : bool) : Z := if b then 1 else 0.

Section Decoder.
Context {K : PgeEnum}.
(** Host-runtime services: [Py_UNICODE_TOUPPER], the builtin [unichr]
    (NULL, here [None], when it raises) and [Text_FromUTF8] applied to the
    C string a pointer designates. *)
Variable Py_UNICODE_TOUPPER : Z -> Z.
Variable our_unichr : Z -> option PyObject.
Variable Text_FromUTF8 : Z -> option PyObject.

Definition our_empty_ustr : option PyObject := Some (PyUnicode []).

Definition key_to_unicode (ks : SDL_KeyboardEvent) : option PyObject :=
  let ModMask := Z.lnot KMOD_SHIFT in
  let c := k_sym ks in
  let m := k_mod ks in
  if negb (Z.land c 0x40000000 =? 0) then our_empty_ustr
  else if negb (Z.land m ModMask =? 0) then our_empty_ustr
  else our_unichr (if negb (Z.land m KMOD_SHIFT =? 0)
                   then Py_UNICODE_TOUPPER c else c).

(** The inner [switch] of the PGE_ACTIVEEVENT case: [(gain, state)]. *)
Definition active_gain_state (sub : Z) : Z * Z :=
  if sub =? SDL_WINDOWEVENT_ENTER then (1, PGE_APPFOCUSMOUSE)
  else if sub =? SDL_WINDOWEVENT_LEAVE then (0, PGE_APPFOCUSMOUSE)
  else if sub =? SDL_WINDOWEVENT_FOCUS_GAINED then (1, PGE_APPINPUTFOCUS)
  else if sub =? SDL_WINDOWEVENT_FOCUS_LOST then (0, PGE_APPINPUTFOCUS)
  else if sub =? SDL_WINDOWEVENT_MINIMIZED then (0, PGE_APPACTIVE)
  else (1, PGE_APPACTIVE).

Definition key_items (dict : Dict) (event : SDL_Event) : Dict :=
  let dict := insobj dict "key" (PyInt_FromLong (k_sym (key event))) in
  let dict := insobj dict "mod" (PyInt_FromLong (k_mod (key event))) in
  insobj dict "scancode" (PyInt_FromLong (k_scancode (key event))).

(** The [switch (pge_type)] of [dict_from_event].  The platform-specific
    parts of the PGE_SYSWMEVENT case are compiled out (neither WIN32 nor
    the X11 driver macro is defined). *)
Definition type_items (dict : Dict) (pge_type : Z) (event : SDL_Event)
  : Dict :=
  if pge_type =? PGE_ACTIVEEVENT then
    let '(gain, state) := active_gain_state (w_event (window event)) in
    let dict := insobj dict "gain" (PyInt_FromLong gain) in
    insobj dict "state" (PyInt_FromLong state)
  else if pge_type =? PGE_KEYDOWN then
    key_items (insobj dict "unicode" (key_to_unicode (key event))) event
  else if pge_type =? PGE_KEYUP then key_items dict event
  else if pge_type =? PGE_MOUSEMOTION then
    let mo := motion event in
    let dict := insobj dict "pos" (Py_BuildValue_ii (m_x mo) (m_y mo)) in
    let dict := insobj dict "rel" (Py_BuildValue_ii (m_xrel mo) (m_yrel mo)) in
    let pressed i := PyInt (bool_to_Z
                              (negb (Z.land (m_state mo) (SDL_BUTTON i) =? 0))) in
    insobj dict "buttons" (Some (PyTuple [pressed 1; pressed 2; pressed 3]))
  else if (pge_type =? PGE_MOUSEBUTTONDOWN) || (pge_type =? PGE_MOUSEBUTTONUP)
  then
    let bt := button event in
    let dict := insobj dict "pos" (Py_BuildValue_ii (b_x bt) (b_y bt)) in
    insobj dict "button" (PyInt_FromLong (b_button bt))
  else if pge_type =? PGE_JOYAXISMOTION then
    let ja := jaxis event in
    let dict := insobj dict "joy" (PyInt_FromLong (ja_which ja)) in
    let dict := insobj dict "axis" (PyInt_FromLong (ja_axis ja)) in
    insobj dict "value" (Some (PyFloat (jaxis_normalized (ja_value ja))))
  else if pge_type =? PGE_JOYBALLMOTION then
    let jb := jball event in
    let dict := insobj dict "joy" (PyInt_FromLong (jb_which jb)) in
    let dict := insobj dict "ball" (PyInt_FromLong (jb_ball jb)) in
    insobj dict "rel" (Py_BuildValue_ii (jb_xrel jb) (jb_yrel jb))
  else if pge_type =? PGE_JOYHATMOTION then
    let jh := jhat event in
    let dict := insobj dict "joy" (PyInt_FromLong (jh_which jh)) in
    let dict := insobj dict "hat" (PyInt_FromLong (jh_hat jh)) in
    let hy := if negb (Z.land (jh_value jh) SDL_HAT_UP =? 0) then 1
              else if negb (Z.land (jh_value jh) SDL_HAT_DOWN =? 0) then -1
              else 0 in
    let hx := if negb (Z.land (jh_value jh) SDL_HAT_RIGHT =? 0) then 1
              else if negb (Z.land (jh_value jh) SDL_HAT_LEFT =? 0) then -1
              else 0 in
    insobj dict "value" (Py_BuildValue_ii hx hy)
  else if (pge_type =? PGE_JOYBUTTONUP) || (pge_type =? PGE_JOYBUTTONDOWN)
  then
    let jb := jbutton event in
    let dict := insobj dict "joy" (PyInt_FromLong (jbt_which jb)) in
    insobj dict "button" (PyInt_FromLong (jbt_button jb))
  else if pge_type =? PGE_VIDEORESIZE then
    let w := window event in
    let dict := insobj dict "size" (Py_BuildValue_ii (w_data1 w) (w_data2 w)) in
    let dict := insobj dict "w" (PyInt_FromLong (w_data1 w)) in
    insobj dict "h" (PyInt_FromLong (w_data2 w))
  else dict.

(** The generic decoding, from [PyDict_New ()] on.  The new dictionary is
    private to the function until it is returned, so it is built as a
    value; allocation by the host runtime is taken to succeed. *)
Definition generic_dict (b : UserBand) (event : SDL_Event) : Dict :=
  let pge_type := sdl_to_pg b event in
  let dict := insobj ∅ "sdl2_type" (PyInt_FromLong (type event)) in
  let dict := if type event =? SDL_WINDOWEVENT
              then insobj dict "window_id" (PyInt_FromLong (windowID event))
              else dict in
  let dict := type_items dict pge_type event in
  let dict := if (type event =? PGE_USEREVENT)
                 && (u_code (user event) =? 0x1000)
              then insobj dict "filename" (Text_FromUTF8 (u_data1 (user event)))
              else dict in
  if (PGE_USEREVENT <=? type event) && (type event <? PGE_NUMEVENTS)
  then insobj dict "code" (PyInt_FromLong (u_code (user event)))
  else dict.

(** [dict_from_event].  [event->user.code == USEROBJECT_CHECK1] compares a
    [Sint32] with an unsigned constant, hence after conversion. *)
Definition dict_from_event (b : UserBand) (event : SDL_Event)
    (reg : Registry Dict) : outcome (Dict * Registry Dict) :=
  if (to_Uint32 (u_code (user event)) =? USEROBJECT_CHECK1)
     && (u_data1 (user event) =? USEROBJECT_CHECK2)
  then
    match user_event_getobject (u_data2 (user event)) reg with
    | Done (Some dict, reg') => Done (dict, reg')
    | Done (None, reg') => Done (generic_dict b event, reg')
    | Fault => Fault
    | Spin => Spin
    end
  else Done (generic_dict b event, reg).

(** [PyEvent_New]; [None] is a NULL argument. *)
Definition PyEvent_New (b : UserBand) (event : option SDL_Event)
    (reg : Registry Dict) : outcome (PyEventObject * Registry Dict) :=
  match event with
  | Some ev =>
      match dict_from_event b ev reg with
      | Done (dict, reg') => Done (mkPyEvent (sdl_to_pg b ev) (Some dict), reg')
      | Fault => Fault
      | Spin => Spin
      end
  | None => Done (mkPyEvent PGE_NOEVENT (Some ∅), reg)
  end.

(** [PyEvent_FillUserEvent]: [a] is the address [PyMem_New] hands out.
    A NULL [e->dict] is dereferenced by Py_INCREF. *)
Definition PyEvent_FillUserEvent (a : Z) (e : PyEventObject)
    (event : SDL_Event) (reg : Registry Dict)
  : outcome (Z * SDL_Event * Registry Dict) :=
  match e_dict e with
  | None => Fault
  | Some dict =>
      let '(userobj, reg') := user_event_addobject a dict reg in
      if userobj =? NULL then Done (-1, event, reg')
      else Done (0,
                 set_user (mkUser (to_int USEROBJECT_CHECK1) USEROBJECT_CHECK2
                                  userobj)
                          (set_type (to_Uint32 (e_type e)) event),
                 reg')
  end.

End Decoder.

(** [PyEvent_New2]: a NULL [dict] is replaced by a new dictionary. *)
Definition PyEvent_New2 (pge_type : Z) (dict : option Dict) : PyEventObject :=
  mkPyEvent pge_type (Some (default ∅ dict)).

(** [Event], after [PyArg_ParseTuple (arg, "i|O!", ...)]: the type, the
    optional dictionary and the optional keywords.  [PyDict_Next] visits
    every entry of [keywords] once and [PyDict_SetItem] stores it in
    [dict].  A dictionary passed in is not copied: the entries are stored
    in the caller's object, which the event then refers to; the second
    component is that object after the call. *)
Definition Event (pge_type : Z) (dict : option Dict) (keywords : option Dict)
  : PyEventObject * option Dict :=
  let d := default ∅ dict in
  let d := match keywords with
           | Some kw => map_fold (fun key value acc => <[key := value]> acc) d kw
           | None => d
           end in
  (PyEvent_New2 pge_type (Some d),
   match dict with Some _ => Some d | None => None end).

Section Names.
Context {K : PgeEnum}.

(** [name_from_eventtype]: the [switch], label by label, then the test for
    the user band. *)
Definition name_from_eventtype (pge_type : Z) : string :=
  if pge_type =? PGE_ACTIVEEVENT then "ActiveEvent"
  else if pge_type =? PGE_KEYDOWN then "KeyDown"
  else if pge_type =? PGE_KEYUP then "KeyUp"
  else if pge_type =? PGE_MOUSEMOTION then "MouseMotion"
  else if pge_type =? PGE_MOUSEBUTTONDOWN then "MouseButtonDown"
  else if pge_type =? PGE_MOUSEBUTTONUP then "MouseButtonUp"
  else if pge_type =? PGE_JOYAXISMOTION then "JoyAxisMotion"
  else if pge_type =? PGE_JOYBALLMOTION then "JoyBallMotion"
  else if pge_type =? PGE_JOYHATMOTION then "JoyHatMotion"
  else if pge_type =? PGE_JOYBUTTONUP then "JoyButtonUp"
  else if pge_type =? PGE_JOYBUTTONDOWN then "JoyButtonDown"
  else if pge_type =? PGE_QUIT then "Quit"
  else if pge_type =? PGE_SYSWMEVENT then "SysWMEvent"
  else if pge_type =? PGE_VIDEORESIZE then "VideoResize"
  else if pge_type =? PGE_VIDEOEXPOSE then "VideoExpose"
  else if pge_type =? PGE_NOEVENT then "NoEvent"
  else if (PGE_USEREVENT <=? pge_type) && (pge_type <? PGE_NUMEVENTS)
  then "UserEvent"
  else "Unknown".

End Names.

(** ** The native layer (SDL2): queue, per-type state, pump

    [queue] is the SDL event queue, [pending] the platform input the next
    pump will deliver, [disabled] the codes whose state is SDL_IGNORE,
    [active] whether the event subsystem runs and [video_init] what
    [SDL_WasInit (SDL_INIT_VIDEO)] answers.  No event filter is installed. *)

Record Native := mkNative
  { queue : list SDL_Event;
    pending : list SDL_Event;
    disabled : list Z;
    active : bool;
    video_init : bool }.

Definition set_queue (q : list SDL_Event) (n : Native) : Native :=
  mkNative q (pending n) (disabled n) (active n) (video_init n).
Definition set_disabled (d : list Z) (n : Native) : Native :=
  mkNative (queue n) (pending n) d (active n) (video_init n).

Definition SDL_ADDEVENT : Z := 0.
Definition SDL_PEEKEVENT : Z := 1.
Definition SDL_GETEVENT : Z := 2.
Definition SDL_MAX_QUEUED_EVENTS : Z := 65535.

(** SDL2 keeps the per-type flags in a table indexed by the low 16 bits of
    the code. *)
Definition state_index (ty : Z) : Z := Z.land ty 0xFFFF.

Definition is_disabled (n : Native) (ty : Z) : bool :=
  existsb (Z.eqb (state_index ty)) (disabled n).

(** [SDL_EventState]: answers the previous state; SDL_IGNORE also flushes
    the queued events of that code. *)
Definition SDL_EventState (ty state : Z) (n : Native) : Z * Native :=
  let current := if is_disabled n ty then SDL_IGNORE else SDL_ENABLE in
  if state =? current then (current, n)
  else if state =? SDL_IGNORE then
    (current,
     set_queue (List.filter (fun ev => negb (type ev =? ty)) (queue n))
               (set_disabled (state_index ty :: disabled n) n))
  else if state =? SDL_ENABLE then
    (current,
     set_disabled (List.filter (fun d => negb (d =? state_index ty)) (disabled n)) n)
  else (current, n).

(** [SDL_PumpEvents]: platform input of an ignored code is dropped. *)
Definition SDL_PumpEvents (n : Native) : Native :=
  mkNative (queue n ++ List.filter (fun ev => negb (is_disabled n (type ev)))
                              (pending n))
           [] (disabled n) (active n) (video_init n).

(** The scan of [SDL_PeepEvents]: up to [k] events whose code lies in
    [minType, maxType], and the queue without them. *)
Fixpoint peep_scan (k : nat) (minType maxType : Z) (q : list SDL_Event)
  : list SDL_Event * list SDL_Event :=
  match q with
  | [] => ([], [])
  | ev :: q' =>
      match k with
      | O => ([], q)
      | S k' =>
          if (minType <=? type ev) && (type ev <=? maxType) then
            let '(taken, rest) := peep_scan k' minType maxType q' in
            (ev :: taken, rest)
          else
            let '(taken, rest) := peep_scan k minType maxType q' in
            (taken, ev :: rest)
      end
  end.

(** The events copied out overwrite the head of the caller's buffer. *)
Definition fill_buffer (taken events : list SDL_Event) : list SDL_Event :=
  taken ++ drop (length taken) events.

(** [SDL_PeepEvents] for SDL_PEEKEVENT and SDL_GETEVENT. *)
Definition SDL_PeepEvents (events : list SDL_Event) (numevents action : Z)
    (minType maxType : Z) (n : Native) : Z * list SDL_Event * Native :=
  if negb (active n) then (-1, events, n)
  else
    let '(taken, rest) :=
      peep_scan (Z.to_nat numevents) minType maxType (queue n) in
    (Z.of_nat (length taken), fill_buffer taken events,
     if action =? SDL_GETEVENT then set_queue rest n else n).

(** [SDL_PushEvent]: 1 on success, -1 when the queue is shut down or full. *)
Definition SDL_PushEvent (now : Z) (event : SDL_Event) (n : Native)
  : Z * Native :=
  if negb (active n) then (-1, n)
  else if SDL_MAX_QUEUED_EVENTS <=? Z.of_nat (length (queue n)) then (-1, n)
  else (1, set_queue (queue n ++ [set_timestamp now event]) n).

(** ** The module: state and Python-level results *)

Inductive PyExc := ValueError | TypeError | SDLError | NoException.

(** What a module function hands back to the interpreter: a value, or NULL
    with the exception raised ([NoException]: NULL with none set). *)
Inductive PyResult (A : Type) :=
| Return (a : A)
| Raise (exc : PyExc).
Arguments Return {A} a.
Arguments Raise {A} exc.

(** The argument of the type-filtered functions, after the conversions of
    [IntFromObj] / [IntFromObjIndex] (base.c, not among the sources): a
    sequence with the outcome of converting each item, [None], an object
    that converts to an [int], or anything else. *)
Inductive TypeArg :=
| TypeSeq (items : list (option Z))
| TypeNone
| TypeInt (val : Z)
| TypeOther.

Record Module := mkModule
  { repeat : KeyRepeat;
    band : UserBand;
    registry : Registry Dict;
    native : Native }.

Definition set_native (n : Native) (s : Module) : Module :=
  mkModule (repeat s) (band s) (registry s) n.
Definition set_registry (r : Registry Dict) (s : Module) : Module :=
  mkModule (repeat s) (band s) r (native s).
Definition set_repeat (r : KeyRepeat) (s : Module) : Module :=
  mkModule r (band s) (registry s) (native s).

Section Queue.
Context {K : PgeEnum}.
Variable Py_UNICODE_TOUPPER : Z -> Z.
Variable our_unichr : Z -> option PyObject.
Variable Text_FromUTF8 : Z -> option PyObject.

Let new_event := PyEvent_New Py_UNICODE_TOUPPER our_unichr Text_FromUTF8.

(** The loop of [PG_PeepEvents]: [k] logical types remain to be scanned,
    [ty] is the current one. *)
Fixpoint PG_PeepEvents_loop (k : nat) (b : UserBand)
    (events : list SDL_Event) (numevents action mask : Z) (ty tally : Z)
    (n : Native) : Z * list SDL_Event * Native :=
  match k with
  | O => (tally, events, n)
  | S k' =>
      if tally <? numevents then
        if Z.testbit mask ty then
          let sdl_type := pg_type_to_sdl b ty in
          let '(cnt, events', n') :=
            if negb (sdl_type =? PGE_NON_SDL_EVENT)
            then SDL_PeepEvents events numevents action sdl_type sdl_type n
            else (0, events, n) in
          if cnt =? -1 then (-1, events', n')
          else PG_PeepEvents_loop k' b events' numevents action mask
                                  (ty + 1) (tally + cnt) n'
        else PG_PeepEvents_loop k' b events numevents action mask
                                (ty + 1) tally n
      else (tally, events, n)
  end.

(** [PG_PeepEvents]: the scan starts at logical type 1 and stops at
    PGE_NUMEVENTS. *)
Definition PG_PeepEvents (b : UserBand) (events : list SDL_Event)
    (numevents action mask : Z) (n : Native) : Z * list SDL_Event * Native :=
  PG_PeepEvents_loop (Z.to_nat (PGE_NUMEVENTS - 1)) b events numevents action
                     mask 1 0 n.

(** [mask |= PGE_EVENTMASK (val)] over the items of a sequence; [None] when
    an item does not convert. *)
Fixpoint mask_of_items (items : list (option Z)) (mask : Z) : option Z :=
  match items with
  | [] => Some mask
  | None :: _ => None
  | Some val :: rest =>
      mask_of_items rest (to_Uint32 (Z.lor mask (PGE_EVENTMASK val)))
  end.

(** The argument handling shared by [event_get], [event_clear] and
    [event_peek]. *)
Definition filter_mask (args : list TypeArg) : PyResult Z :=
  match args with
  | [] => Return PGE_ALLEVENTS
  | [TypeSeq items] =>
      match mask_of_items items 0 with
      | Some mask => Return mask
      | None => Raise TypeError
      end
  | [TypeInt val] => Return (to_Uint32 (PGE_EVENTMASK val))
  | [_] => Raise TypeError
  | _ => Raise ValueError
  end.

Definition video_init_check (s : Module) : bool := video_init (native s).

(** The [while] loop of [event_get]. *)
Fixpoint event_get_loop (fuel : nat) (b : UserBand) (mask : Z)
    (event : SDL_Event) (reg : Registry Dict) (n : Native)
  : outcome (list PyEventObject * Registry Dict * Native) :=
  match fuel with
  | O => Spin
  | S fuel' =>
      let '(r, events, n') := PG_PeepEvents b [event] 1 SDL_GETEVENT mask n in
      if r =? 1 then
        let event' := hd event events in
        match new_event b (Some event') reg with
        | Done (e, reg') =>
            match event_get_loop fuel' b mask event' reg' n' with
            | Done (l, reg'', n'') => Done (e :: l, reg'', n'')
            | Fault => Fault
            | Spin => Spin
            end
        | Fault => Fault
        | Spin => Spin
        end
      else Done ([], reg, n')
  end.

(** [event_get]; [uninit] is what the local [event] holds on entry. *)
Definition event_get (uninit : SDL_Event) (args : list TypeArg) (s : Module)
  : outcome (PyResult (list PyEventObject) * Module) :=
  match args with
  | [] | [_] =>
      if negb (video_init_check s) then Done (Raise SDLError, s)
      else
        match filter_mask args with
        | Raise exc => Done (Raise exc, s)
        | Return mask =>
            let n := SDL_PumpEvents (native s) in
            match event_get_loop (S (length (queue n))) (band s) mask uninit
                                 (registry s) n with
            | Done (l, reg', n') =>
                Done (Return l, set_registry reg' (set_native n' s))
            | Fault => Fault
            | Spin => Spin
            end
        end
  | _ => Done (Raise ValueError, s)
  end.

(** The [while] loop of [event_clear]. *)
Fixpoint event_clear_loop (fuel : nat) (b : UserBand) (mask : Z)
    (event : SDL_Event) (n : Native) : outcome Native :=
  match fuel with
  | O => Spin
  | S fuel' =>
      let '(r, events, n') := PG_PeepEvents b [event] 1 SDL_GETEVENT mask n in
      if r =? 1 then event_clear_loop fuel' b mask (hd event events) n'
      else Done n'
  end.

Definition event_clear (uninit : SDL_Event) (args : list TypeArg) (s : Module)
  : outcome (PyResult unit * Module) :=
  match args with
  | [] | [_] =>
      if negb (video_init_check s) then Done (Raise SDLError, s)
      else
        match filter_mask args with
        | Raise exc => Done (Raise exc, s)
        | Return mask =>
            let n := SDL_PumpEvents (native s) in
            match event_clear_loop (S (length (queue n))) (band s) mask uninit n
            with
            | Done n' => Done (Return tt, set_native n' s)
            | Fault => Fault
            | Spin => Spin
            end
        end
  | _ => Done (Raise ValueError, s)
  end.

(** What [event_peek] returns: an event object or an integer. *)
Inductive PeekValue :=
| PeekEvent (e : PyEventObject)
| PeekInt (v : Z).

Definition event_peek (uninit : SDL_Event) (args : list TypeArg) (s : Module)
  : outcome (PyResult PeekValue * Module) :=
  match args with
  | [] | [_] =>
      if negb (video_init_check s) then Done (Raise SDLError, s)
      else
        match filter_mask args with
        | Raise exc => Done (Raise exc, s)
        | Return mask =>
            let noargs := match args with [] => true | _ => false end in
            let n := SDL_PumpEvents (native s) in
            let '(result, events, n') :=
              PG_PeepEvents (band s) [uninit] 1 SDL_PEEKEVENT mask n in
            if noargs then
              match new_event (band s) (Some (hd uninit events)) (registry s)
              with
              | Done (e, reg') =>
                  Done (Return (PeekEvent e),
                        set_registry reg' (set_native n' s))
              | Fault => Fault
              | Spin => Spin
              end
            else Done (Return (PeekInt (bool_to_Z (result =? 1))),
                       set_native n' s)
        end
  | _ => Done (Raise ValueError, s)
  end.

(** [event_post]: [a] is the address [PyMem_New] hands out, [now] the tick
    count the native push stamps on the record. *)
Definition event_post (uninit : SDL_Event) (a now : Z) (e : PyEventObject)
    (s : Module) : outcome (PyResult unit * Module) :=
  if negb (video_init_check s) then Done (Raise SDLError, s)
  else
    let sdl_type := fst (pg_to_sdl (band s) e) in
    let '(st, n) := SDL_EventState (to_Uint32 sdl_type) SDL_QUERY (native s) in
    if st =? SDL_IGNORE then Done (Return tt, set_native n s)
    else
      match PyEvent_FillUserEvent a e uninit (registry s) with
      | Fault => Fault
      | Spin => Spin
      | Done (rc, event, reg') =>
          if negb (rc =? 0)
          then Done (Raise NoException, set_registry reg' (set_native n s))
          else
            let '(pushed, n') := SDL_PushEvent now event n in
            if pushed =? 0
            then Done (Raise SDLError, set_registry reg' (set_native n' s))
            else Done (Return tt, set_registry reg' (set_native n' s))
      end.

Definition CheckEventInRange (evt : Z) : bool :=
  (0 <=? evt) && (evt <? PGE_NUMEVENTS).

(** The sequence loop of [set_allowed] / [set_blocked]: the flags of the
    items before a bad one are already changed when the loop stops. *)
Fixpoint set_state_items (state : Z) (items : list (option Z)) (n : Native)
  : PyResult unit * Native :=
  match items with
  | [] => (Return tt, n)
  | None :: _ => (Raise TypeError, n)
  | Some val :: rest =>
      if negb (CheckEventInRange val) then (Raise ValueError, n)
      else set_state_items state rest
                           (snd (SDL_EventState (to_Uint8 val) state n))
  end.

Definition set_state (state : Z) (args : list TypeArg) (s : Module)
  : PyResult unit * Module :=
  match args with
  | [arg] =>
      if negb (video_init_check s) then (Raise SDLError, s)
      else
        match arg with
        | TypeSeq items =>
            let '(r, n) := set_state_items state items (native s) in
            (r, set_native n s)
        | TypeNone =>
            (Return tt,
             set_native (snd (SDL_EventState (to_Uint8 0xFF) SDL_IGNORE
                                             (native s))) s)
        | TypeInt val =>
            if negb (CheckEventInRange val) then (Raise ValueError, s)
            else (Return tt,
                  set_native (snd (SDL_EventState (to_Uint8 val) state
                                                  (native s))) s)
        | TypeOther => (Raise TypeError, s)
        end
  | _ => (Raise ValueError, s)
  end.

Definition set_allowed := set_state SDL_ENABLE.
Definition set_blocked := set_state SDL_IGNORE.

Fixpoint get_blocked_items (items : list (option Z)) (isblocked : bool)
    (n : Native) : PyResult Z :=
  match items with
  | [] => Return (bool_to_Z isblocked)
  | None :: _ => Raise TypeError
  | Some val :: rest =>
      if negb (CheckEventInRange val) then Raise ValueError
      else get_blocked_items rest
             (isblocked
              || (fst (SDL_EventState (to_Uint8 val) SDL_QUERY n) =? SDL_IGNORE))
             n
  end.

Definition get_blocked (args : list TypeArg) (s : Module) : PyResult Z :=
  match args with
  | [arg] =>
      if negb (video_init_check s) then Raise SDLError
      else
        match arg with
        | TypeSeq items => get_blocked_items items false (native s)
        | TypeInt val =>
            if negb (CheckEventInRange val) then Raise ValueError
            else Return (bool_to_Z
                           (fst (SDL_EventState (to_Uint8 val) SDL_QUERY
                                                (native s)) =? SDL_IGNORE))
        | _ => Raise TypeError
        end
  | _ => Raise ValueError
  end.

(** [pygame_wait]: [None] when the native wait never returns. *)
Definition pygame_wait (uninit : SDL_Event) (waits : list wait_result)
    (s : Module)
  : option (outcome (PyResult PyEventObject * Module) * list wait_result) :=
  if negb (video_init_check s) then Some (Done (Raise SDLError, s), waits)
  else
    match Py_WaitEvent (repeat s) waits uninit with
    | None => None
    | Some (status, event, r, rest) =>
        let s' := set_repeat r s in
        if status =? 0 then Some (Done (Raise SDLError, s'), rest)
        else
          Some (match new_event (band s') (Some event) (registry s') with
                | Done (e, reg') => Done (Return e, set_registry reg' s')
                | Fault => Fault
                | Spin => Spin
                end, rest)
    end.

(** [pygame_poll]: the native queue is pumped by [SDL_PollEvent], which
    answers 0 when the event subsystem is shut down. *)
Definition pygame_poll (uninit : SDL_Event) (s : Module)
  : outcome (PyResult PyEventObject * Module) :=
  if negb (video_init_check s) then Done (Raise SDLError, s)
  else
    let n := SDL_PumpEvents (native s) in
    let '(rc, event, r, q) :=
      if active n then Py_PollEvent (repeat s) (queue n) uninit
      else (0, uninit, repeat s, queue n) in
    let s' := set_repeat r (set_native (set_queue q n) s) in
    match new_event (band s') (if rc =? 0 then None else Some event)
                    (registry s') with
    | Done (e, reg') => Done (Return e, set_registry reg' s')
    | Fault => Fault
    | Spin => Spin
    end.

End Queue.

Section DecodeEach.
Context {K : PgeEnum}.
Variable Py_UNICODE_TOUPPER : Z -> Z.
Variable our_unichr : Z -> option PyObject.
Variable Text_FromUTF8 : Z -> option PyObject.

(** The events of a list decoded by [PyEvent_New] one after the other,
    the user-object list handed from each decoding to the next. *)
Fixpoint decode_each (b : UserBand) (events : list SDL_Event)
    (reg : Registry Dict) : outcome (list PyEventObject * Registry Dict) :=
  match events with
  | [] => Done ([], reg)
  | ev :: events' =>
      match PyEvent_New Py_UNICODE_TOUPPER our_unichr Text_FromUTF8 b
                        (Some ev) reg with
      | Done (e, reg') =>
          match decode_each b events' reg' with
          | Done (l, reg'') => Done (e :: l, reg'')
          | Fault => Fault
          | Spin => Spin
          end
      | Fault => Fault
      | Spin => Spin
      end
  end.

End DecodeEach.

(** ** Reference definitions, in the words of the specification *)

(** The threshold algorithm of the key-repeat timer as the specification
    words it: a repeat is held back while [timestamp - savedTimestamp] is
    below the delay (first repeat) or the interval (later repeats), and a
    fresh keydown arms the "first repeat pending" state. *)
Definition threshold_filter (r : KeyRepeat) (e : SDL_Event) : option KeyRepeat :=
  if type e =? SDL_KEYDOWN then
    if (delay r =? 0) && (interval r =? 0) then
      if k_repeat (key e) =? 0
      then Some (mkRepeat (delay r) (interval r) 0 0)
      else Some r
    else if negb (k_repeat (key e) =? 0) then
      if negb (firsttime r =? 0) then
        if timestamp e - r_timestamp r <? delay r then None
        else Some (mkRepeat (delay r) (interval r) 0 (timestamp e))
      else if timestamp e - r_timestamp r <? interval r then None
      else Some (mkRepeat (delay r) (interval r) 0 (timestamp e))
    else Some (mkRepeat (delay r) (interval r) 1 (timestamp e))
  else Some r.

(** The events the threshold algorithm lets through, in order. *)
Fixpoint threshold_trace (r : KeyRepeat) (q : list SDL_Event)
  : list SDL_Event :=
  match q with
  | [] => []
  | ev :: q' =>
      match threshold_filter r ev with
      | None => threshold_trace r q'
      | Some r' => ev :: threshold_trace r' q'
      end
  end.

(** The events successive calls of [Py_PollEvent] return until it answers
    0. *)
Fixpoint poll_trace (calls : nat) (r : KeyRepeat) (q : list SDL_Event)
  : list SDL_Event :=
  match calls with
  | O => []
  | S calls' =>
      let '(rc, ev, r', q') := Py_PollEvent r q zero_event in
      if rc =? 0 then [] else ev :: poll_trace calls' r' q'
  end.

(** The return codes and events of successive calls of [Py_WaitEvent]
    while the native wait keeps answering. *)
Fixpoint wait_trace (calls : nat) (r : KeyRepeat) (waits : list wait_result)
  : list (Z * SDL_Event) :=
  match calls with
  | O => []
  | S calls' =>
      match Py_WaitEvent r waits zero_event with
      | None => []
      | Some (rc, ev, r', rest) => (rc, ev) :: wait_trace calls' r' rest
      end
  end.

(** The input of the repeat-timer property: a fresh keydown at 0, then
    repeats at 0, 100, 400, 500, 600, 700, with delay 500 and interval 100. *)
Definition repeat_500_100 : KeyRepeat := mkRepeat 500 100 0 0.
Definition repeat_keys : list SDL_Event :=
  keydown_event 0 0
  :: map (fun ts => keydown_event ts 1) [0; 100; 400; 500; 600; 700].
Definition stamp (e : SDL_Event) : Z * Z := (timestamp e, k_repeat (key e)).

(** The test both loops make before the timer is consulted:
    [e->type == SDL_KEYDOWN] and [e->key.repeat]. *)
Definition key_repeat_event (e : SDL_Event) : bool :=
  (type e =? SDL_KEYDOWN) && negb (k_repeat (key e) =? 0).

Section DrainOrder.
Context {K : PgeEnum}.

(** [k] consecutive logical types from [ty] on. *)
Fixpoint types_from (ty : Z) (k : nat) : list Z :=
  match k with
  | O => []
  | S k' => ty :: types_from (ty + 1) k'
  end.

(** The logical types [PG_PeepEvents] scans: 1 .. PGE_NUMEVENTS - 1. *)
Definition scan_types : list Z := types_from 1 (Z.to_nat (PGE_NUMEVENTS - 1)).

(** Logical type [t] is scanned under [mask] and has a native code. *)
Definition scans (b : UserBand) (mask t : Z) : bool :=
  Z.testbit mask t && negb (pg_type_to_sdl b t =? PGE_NON_SDL_EVENT).

Definition bears (b : UserBand) (t : Z) (ev : SDL_Event) : bool :=
  type ev =? pg_type_to_sdl b t.

(** The order in which a drain hands out the queue [q]: type by type in
    ascending order of the scanned logical types [ts]; for each, every
    queued event bearing the native code of that type, in arrival order;
    later types see what is left. *)
Fixpoint drain_order (b : UserBand) (mask : Z) (ts : list Z)
    (q : list SDL_Event) : list SDL_Event :=
  match ts with
  | [] => []
  | t :: ts' =>
      if scans b mask t
      then List.filter (fun ev => bears b t ev) q
           ++ drain_order b mask ts' (List.filter (fun ev => negb (bears b t ev)) q)
      else drain_order b mask ts' q
  end.

(** What a drain leaves in the queue. *)
Fixpoint drain_rest (b : UserBand) (mask : Z) (ts : list Z)
    (q : list SDL_Event) : list SDL_Event :=
  match ts with
  | [] => q
  | t :: ts' =>
      if scans b mask t
      then drain_rest b mask ts' (List.filter (fun ev => negb (bears b t ev)) q)
      else drain_rest b mask ts' q
  end.

(** One removal step of a drain over the types [ts]: the first queued
    event bearing the native code of the lowest scanned type that has one,
    and the queue without it. *)
Fixpoint first_hit (b : UserBand) (mask : Z) (ts : list Z)
    (q : list SDL_Event) : option (SDL_Event * list SDL_Event) :=
  match ts with
  | [] => None
  | t :: ts' =>
      if scans b mask t then
        match peep_scan 1 (pg_type_to_sdl b t) (pg_type_to_sdl b t) q with
        | (ev :: _, rest) => Some (ev, rest)
        | ([], _) => first_hit b mask ts' q
        end
      else first_hit b mask ts' q
  end.

(** Removal steps repeated until none succeeds: the events removed, in
    order, and the queue that is left. *)
Fixpoint drain_loop (fuel : nat) (b : UserBand) (mask : Z) (ts : list Z)
    (q : list SDL_Event) : option (list SDL_Event * list SDL_Event) :=
  match fuel with
  | O => None
  | S fuel' =>
      match first_hit b mask ts q with
      | None => Some ([], q)
      | Some (ev, q') =>
          match drain_loop fuel' b mask ts q' with
          | Some (l, r) => Some (ev :: l, r)
          | None => None
          end
      end
  end.

(** Some scanned type among [ts] has the native code the event bears. *)
Definition claimed (b : UserBand) (mask : Z) (ts : list Z) (ev : SDL_Event)
  : bool :=
  existsb (fun t => scans b mask t && bears b t ev) ts.

(** The native sub-event codes that classify as the window-derived logical
    type [t]; empty for every other type. *)
Definition window_subcodes (t : Z) : list Z :=
  if t =? PGE_ACTIVEEVENT then
    [SDL_WINDOWEVENT_ENTER; SDL_WINDOWEVENT_LEAVE;
     SDL_WINDOWEVENT_FOCUS_GAINED; SDL_WINDOWEVENT_FOCUS_LOST;
     SDL_WINDOWEVENT_MINIMIZED; SDL_WINDOWEVENT_RESTORED]
  else if t =? PGE_VIDEORESIZE then [SDL_WINDOWEVENT_RESIZED]
  else if t =? PGE_VIDEOEXPOSE then [SDL_WINDOWEVENT_EXPOSED]
  else [].

Definition window_type (t : Z) : bool :=
  (t =? PGE_ACTIVEEVENT) || (t =? PGE_VIDEOEXPOSE) || (t =? PGE_VIDEORESIZE).

End DrainOrder.

(** A user-posted record: both sentinel fields match. *)
Definition user_posted (ev : SDL_Event) : bool :=
  (to_Uint32 (u_code (user ev)) =? USEROBJECT_CHECK1)
  && (u_data1 (user ev) =? USEROBJECT_CHECK2).

(** A module state with the static initialisers and a running, empty
    native layer. *)
Definition native_empty : Native := mkNative [] [] [] true true.
Definition module_init (r : KeyRepeat) : Module :=
  mkModule r band_init registry_init native_empty.

Definition module_with_queue (q : list SDL_Event) : Module :=
  mkModule repeat_500_100 band_init registry_init
           (mkNative q [] [] true true).

(** Stand-ins for the host-runtime services in the concrete runs below. *)
Definition toupper_ascii (c : Z) : Z :=
  if (97 <=? c) && (c <=? 122) then c - 32 else c.
Definition unichr_bmp (c : Z) : option PyObject :=
  if (0 <=? c) && (c <=? 0xFFFF) then Some (PyUnicode [c]) else None.
Definition text_none (p : Z) : option PyObject := None.

(** The axis values a signed 16-bit field can hold are checked one by one:
    [all_from k P lo] tests [P] on [lo], [lo + 1], ..., [k] values. *)
Fixpoint all_from (k : nat) (P : Z -> bool) (lo : Z) : bool :=
  match k with
  | O => true
  | S k' => P lo && all_from k' P (lo + 1)
  end.

(** The bounds the normalized axis value does satisfy. *)
Definition axis_bounds (v : Z) : bool :=
  let x := jaxis_normalized v in
  PrimFloat.leb (jaxis_normalized (-32768)) x
  && PrimFloat.leb x (float_of_Z 1)
  && ((v <? -32767) || PrimFloat.leb (float_of_Z (-1)) x).

(** The interval the specification states. *)
Definition axis_unit_interval (v : Z) : bool :=
  let x := jaxis_normalized v in
  PrimFloat.leb (float_of_Z (-1)) x && PrimFloat.leb x (float_of_Z 1).

(** The sub-event codes of the active-state case of [sdl_to_pg]. *)
Definition active_sub (sub : Z) : bool :=
  (sub =? SDL_WINDOWEVENT_ENTER) || (sub =? SDL_WINDOWEVENT_LEAVE)
  || (sub =? SDL_WINDOWEVENT_FOCUS_GAINED)
  || (sub =? SDL_WINDOWEVENT_FOCUS_LOST)
  || (sub =? SDL_WINDOWEVENT_MINIMIZED)
  || (sub =? SDL_WINDOWEVENT_RESTORED).

(** A joystick-axis record with the given axis value. *)
Definition axis_event (value : Z) : SDL_Event :=
  mkEvent SDL_JOYAXISMOTION 0 0 (mkWindow 0 0 0) (mkKey 0 0 0 0)
          (mkMotion 0 0 0 0 0) (mkButton 0 0 0) (mkJAxis 0 0 value)
          (mkJBall 0 0 0 0) (mkJHat 0 0 0) (mkJButton 0 0) (mkUser 0 0 0).

(** A joystick-hat record with the given hat value. *)
Definition hat_event (value : Z) : SDL_Event :=
  mkEvent SDL_JOYHATMOTION 0 0 (mkWindow 0 0 0) (mkKey 0 0 0 0)
          (mkMotion 0 0 0 0 0) (mkButton 0 0 0) (mkJAxis 0 0 0)
          (mkJBall 0 0 0 0) (mkJHat 0 0 value) (mkJButton 0 0) (mkUser 0 0 0).

(** * Properties *)

(** ** Machine-integer facts *)

Lemma to_Uint32_small (x : Z) : 0 <= x < 2 ^ 32 -> to_Uint32 x = x.
Proof. intros H. unfold to_Uint32. apply Z.mod_small. exact H. Qed.

Lemma to_Uint32_neg (x : Z) :
  - 2 ^ 32 <= x < 0 -> to_Uint32 x = x + 2 ^ 32.
Proof.
  intros H. unfold to_Uint32.
  symmetry. apply (Z.mod_unique_pos _ _ (-1)); lia.
Qed.

Lemma to_int_small (x : Z) : - 2 ^ 31 <= x < 2 ^ 31 -> to_int x = x.
Proof.
  intros H. unfold to_int. rewrite Z.mod_small; lia.
Qed.

(** ** Key repeat *)

(** The first repeat after a fresh keydown is never held back once its
    timestamp has moved past the saved one: the subtraction in the
    first-repeat branch has its operands the other way round and wraps. *)
Lemma first_repeat_not_held_back (r : KeyRepeat) (e : SDL_Event) :
  type e = SDL_KEYDOWN ->
  k_repeat (key e) <> 0 ->
  firsttime r <> 0 ->
  repeat_enabled r = true ->
  0 <= r_timestamp r < timestamp e ->
  timestamp e < 2 ^ 32 ->
  0 <= delay r <= 2 ^ 32 - (timestamp e - r_timestamp r) ->
  repeat_filter r e
  = Some (mkRepeat (delay r) (interval r) 0 (to_int (timestamp e))).
Proof.
  intros Ht Hrep Hfirst Hen Hts Hmax Hdelay.
  unfold repeat_filter.
  rewrite Ht, Z.eqb_refl, Hen.
  destruct (Z.eqb_spec (k_repeat (key e)) 0) as [|_]; [contradiction|].
  destruct (Z.eqb_spec (firsttime r) 0) as [|_]; [contradiction|].
  cbn [negb].
  rewrite to_Uint32_neg by lia.
  rewrite to_Uint32_small by lia.
  destruct (Z.ltb_spec (r_timestamp r - timestamp e + 2 ^ 32) (delay r)); [lia|].
  reflexivity.
Qed.

(** Later repeats do follow the threshold rule. *)
Lemma later_repeat_threshold (r : KeyRepeat) (e : SDL_Event) :
  type e = SDL_KEYDOWN ->
  k_repeat (key e) <> 0 ->
  firsttime r = 0 ->
  repeat_enabled r = true ->
  0 <= r_timestamp r <= timestamp e ->
  timestamp e < 2 ^ 32 ->
  0 <= interval r < 2 ^ 32 ->
  repeat_filter r e
  = if timestamp e - r_timestamp r <? interval r then None
    else Some (mkRepeat (delay r) (interval r) 0 (to_int (timestamp e))).
Proof.
  intros Ht Hrep Hfirst Hen Hts Hmax Hint.
  unfold repeat_filter.
  rewrite Ht, Z.eqb_refl, Hen, Hfirst.
  destruct (Z.eqb_spec (k_repeat (key e)) 0) as [|_]; [contradiction|].
  cbn [negb Z.eqb].
  rewrite !to_Uint32_small by lia.
  reflexivity.
Qed.

(** C1 (code defect).  On the input of the repeat-timer property (delay
    500, interval 100, a fresh keydown at 0, repeats at 0, 100, 400, 500,
    600, 700) [Py_PollEvent] lets the repeats at 100 and 400 through,
    where the threshold algorithm holds every repeat back until 500; and
    [Py_WaitEvent] returns all seven events, with return code -1. *)
Theorem C1_repeat_trace_diverges :
  map stamp (poll_trace 8 repeat_500_100 repeat_keys)
  = [(0, 0); (100, 1); (400, 1); (500, 1); (600, 1); (700, 1)]
  /\ map stamp (threshold_trace repeat_500_100 repeat_keys)
     = [(0, 0); (500, 1); (600, 1); (700, 1)]
  /\ map (fun p => (fst p, stamp (snd p)))
         (wait_trace 8 repeat_500_100 (map WaitOk repeat_keys))
     = [(-1, (0, 0)); (-1, (0, 1)); (-1, (100, 1)); (-1, (400, 1));
        (-1, (500, 1)); (-1, (600, 1)); (-1, (700, 1))].
Proof. repeat split; vm_compute; reflexivity. Qed.

(** A successful answer of the native wait leaves [Py_WaitEvent] at once:
    the event is handed back whatever the repeat filter says of it. *)
Lemma Py_WaitEvent_ok_unfiltered (r : KeyRepeat) (ev e : SDL_Event)
    (rest : list wait_result) :
  Py_WaitEvent r (WaitOk ev :: rest) e
  = Some (-1, ev,
          mkRepeat (delay r) (interval r) (firsttime r) (r_timestamp r), rest).
Proof. reflexivity. Qed.

(** On an error answer the body runs on what [*e] held before the call;
    unless that is a repeat the filter drops, the return code is 0. *)
Lemma Py_WaitEvent_error (r r' : KeyRepeat) (e : SDL_Event)
    (rest : list wait_result) :
  repeat_filter r e = Some r' ->
  Py_WaitEvent r (WaitError :: rest) e
  = Some (0, e,
          mkRepeat (delay r) (interval r) (firsttime r') (r_timestamp r'),
          rest).
Proof. intros H. unfold Py_WaitEvent. cbn. rewrite H. reflexivity. Qed.

(** C2 (code defect).  With delay 500, interval 100 and the last repeat
    let through at timestamp 0, the native wait hands out a repeat keydown
    stamped 10.  The repeat filter, and the threshold algorithm, drop that
    event; [pygame_wait] returns it, decoded as a key-down event, and
    leaves the tracking state as it was. *)
Theorem C2_wait_returns_held_back_repeat :
  let s := module_init (mkRepeat 500 100 0 0) in
  let ev := keydown_event 10 1 in
  repeat_filter (repeat s) ev = None
  /\ threshold_filter (repeat s) ev = None
  /\ match pygame_wait (K := sdl12_enum) toupper_ascii unichr_bmp text_none
                       zero_event [WaitOk ev] s with
     | Some (Done (Return e, s'), []) =>
         e_type e = PGE_KEYDOWN (PgeEnum := sdl12_enum)
         /\ repeat s' = repeat s
         /\ match e_dict e with
            | Some d => d !! "key"%string = Some (PyInt 97)
            | None => False
            end
     | _ => False
     end.
Proof. repeat split; vm_compute; reflexivity. Qed.

(** ** The user band *)

(** MODINIT leaves the band as the static initialisers set it: its guard
    tests that the band is already set. *)
Lemma modinit_band_unchanged {K : PgeEnum} (SDL_userevents : Z) :
  modinit_band SDL_userevents band_init = (SDL_userevents, band_init).
Proof. reflexivity. Qed.

(** Pairwise distinctness of the enumeration constants, as rewriting
    steps for the comparisons of the two [switch]es. *)
Ltac nodup_facts H :=
  repeat (apply NoDup_cons in H as [? H]);
  repeat match goal with
         | N : _ ∉ _ :: _ |- _ => apply not_elem_of_cons in N as [? N]
         end.

Ltac eqb_step :=
  match goal with
  | |- context [?a =? ?a] => rewrite (Z.eqb_refl a)
  | N : ?a <> ?b |- context [?a =? ?b] =>
      rewrite (proj2 (Z.eqb_neq a b) N)
  | N : ?a <> ?b |- context [?b =? ?a] =>
      rewrite (proj2 (Z.eqb_neq b a) (not_eq_sym N))
  end.

Ltac eqb_steps := repeat (eqb_step; cbn [orb andb negb]).

Section TranslationFacts.
Context {K : PgeEnum}.
Hypothesis wf : pge_wf.

(** Logical types of the user band take the [default] branch of
    [pg_type_to_sdl]. *)
Lemma pg_type_to_sdl_user (b : UserBand) (t : Z) :
  PGE_USEREVENT <= t < PGE_NUMEVENTS ->
  pg_type_to_sdl b t = to_Uint32 (t - PGE_USEREVENT + first_user_event b).
Proof.
  intros Ht. pose proof (wf_builtin wf) as HB.
  repeat (apply Forall_cons in HB as [? HB]).
  unfold pg_type_to_sdl.
  repeat match goal with
         | |- context [t =? ?c] =>
             destruct (Z.eqb_spec t c) as [?|_]; [lia|]
         end.
  cbn [orb].
  destruct (Z.leb_spec PGE_USEREVENT t); [|lia].
  destruct (Z.ltb_spec t PGE_NUMEVENTS); [|lia].
  reflexivity.
Qed.

(** Native codes from the range SDL leaves to custom events take the
    [default] branch of [sdl_to_pg]. *)
Lemma sdl_to_pg_user (b : UserBand) (e : SDL_Event) :
  SDL_USEREVENT <= type e ->
  first_user_event b <= type e <= last_user_event b ->
  sdl_to_pg b e
  = to_int (to_Uint32 (type e - first_user_event b + PGE_USEREVENT)).
Proof.
  intros Hu Hr. unfold sdl_to_pg.
  repeat match goal with
         | |- context [type e =? ?c] =>
             destruct (Z.eqb_spec (type e) c) as [E|_];
             [exfalso; revert Hu; rewrite E; vm_compute; congruence|]
         end.
  destruct (Z.leb_spec (first_user_event b) (type e)); [|lia].
  destruct (Z.leb_spec (type e) (last_user_event b)); [|lia].
  reflexivity.
Qed.

(** Had the guard of MODINIT let the registration through, the band it
    computes would translate to native codes and back without loss. *)
Lemma user_band_roundtrip_if_registered (SDL_userevents k : Z)
    (b0 : UserBand) (e : SDL_Event) :
  let b := snd (modinit_band SDL_userevents b0) in
  first_user_event b0 <> PGE_NON_SDL_EVENT ->
  SDL_USEREVENT <= SDL_userevents ->
  SDL_userevents + (PGE_NUMEVENTS - PGE_USEREVENT + 1) <= SDL_LASTEVENT ->
  0 <= k < PGE_NUMEVENTS - PGE_USEREVENT ->
  type e = pg_type_to_sdl b (PGE_USEREVENT + k) ->
  sdl_to_pg b e = PGE_USEREVENT + k.
Proof.
  intros b Hg Hf Hl Hk He.
  pose proof (wf_user wf) as HU. pose proof (wf_builtin wf) as HB.
  apply Forall_cons in HB as [H0 _].
  unfold SDL_USEREVENT, SDL_LASTEVENT in *.
  assert (Eb : b = mkBand SDL_userevents
                      (SDL_userevents + (PGE_NUMEVENTS - PGE_USEREVENT))).
  { unfold b, modinit_band, SDL_RegisterEvents, SDL_LASTEVENT.
    destruct (Z.eqb_spec (first_user_event b0) PGE_NON_SDL_EVENT) as [|_];
      [contradiction|].
    cbn [negb].
    destruct (Z.ltb_spec 0 (PGE_NUMEVENTS - PGE_USEREVENT + 1)); [|lia].
    destruct (Z.leb_spec (SDL_userevents + (PGE_NUMEVENTS - PGE_USEREVENT + 1))
                         65535); [|lia].
    cbn [andb].
    destruct (Z.eqb_spec SDL_userevents PGE_NON_SDL_EVENT) as [E|_].
    { exfalso. revert E. unfold PGE_NON_SDL_EVENT.
      change (to_Uint32 (-1)) with 4294967295. lia. }
    cbn [negb snd]. f_equal.
    rewrite to_Uint32_small by (change (2 ^ 32) with 4294967296; lia).
    lia. }
  rewrite Eb in He |- *. clear Eb b.
  rewrite pg_type_to_sdl_user in He by lia.
  cbn [first_user_event] in He.
  rewrite to_Uint32_small in He by (change (2 ^ 32) with 4294967296; lia).
  rewrite sdl_to_pg_user;
    [| unfold SDL_USEREVENT; lia | cbn [first_user_event last_user_event]; lia].
  cbn [first_user_event]. rewrite He.
  rewrite to_Uint32_small by (change (2 ^ 32) with 4294967296; lia).
  rewrite to_int_small by (change (2 ^ 31) with 2147483648; lia).
  lia.
Qed.

End TranslationFacts.

(** C3 (code defect).  Module initialisation starts from the static
    initialisers, and its guard skips the registration of the user band:
    the band stays at [(Uint32)-1].  With that band the logical type
    UserBase+1 translates to native code 0, and native code 0 classifies as
    the "other" type, not as UserBase+1. *)
Theorem C3_user_band_not_registered :
  let K := sdl12_enum in
  let b := snd (modinit_band SDL_USEREVENT band_init) in
  b = band_init
  /\ pg_type_to_sdl b (PGE_USEREVENT + 1) = 0
  /\ sdl_to_pg b (set_type (pg_type_to_sdl b (PGE_USEREVENT + 1)) zero_event)
     = PGE_OTHEREVENT
  /\ PGE_OTHEREVENT <> PGE_USEREVENT + 1.
Proof. repeat split; vm_compute; congruence. Qed.

(** ** Built-in types *)

Lemma active_sub_spec (sub : Z) :
  active_sub sub = true
  <-> sub ∈ [SDL_WINDOWEVENT_ENTER; SDL_WINDOWEVENT_LEAVE;
             SDL_WINDOWEVENT_FOCUS_GAINED; SDL_WINDOWEVENT_FOCUS_LOST;
             SDL_WINDOWEVENT_MINIMIZED; SDL_WINDOWEVENT_RESTORED].
Proof.
  unfold active_sub. rewrite !orb_true_iff, !Z.eqb_eq.
  rewrite !elem_of_cons, elem_of_nil. tauto.
Qed.

Section Roundtrip.
Context {K : PgeEnum}.
Hypothesis wf : pge_wf.

(** A native window event classifies by its sub-event code alone. *)
Lemma sdl_to_pg_window (b : UserBand) (e : SDL_Event) :
  type e = SDL_WINDOWEVENT ->
  sdl_to_pg b e
  = if active_sub (w_event (window e)) then PGE_ACTIVEEVENT
    else if w_event (window e) =? SDL_WINDOWEVENT_RESIZED then PGE_VIDEORESIZE
    else if w_event (window e) =? SDL_WINDOWEVENT_EXPOSED then PGE_VIDEOEXPOSE
    else PGE_OTHEREVENT.
Proof. intros Ht. unfold sdl_to_pg. rewrite Ht. reflexivity. Qed.

(** The native code of each built-in type, in the order of
    [builtin_types]. *)
Lemma pg_type_to_sdl_builtin (b : UserBand) :
  map (pg_type_to_sdl b) builtin_types
  = [SDL_WINDOWEVENT; SDL_WINDOWEVENT; SDL_WINDOWEVENT; SDL_KEYDOWN;
     SDL_KEYUP; SDL_MOUSEMOTION; SDL_MOUSEBUTTONDOWN; SDL_MOUSEBUTTONUP;
     SDL_JOYAXISMOTION; SDL_JOYBALLMOTION; SDL_JOYHATMOTION;
     SDL_JOYBUTTONDOWN; SDL_JOYBUTTONUP; SDL_QUIT; SDL_SYSWMEVENT].
Proof.
  pose proof (wf_nodup wf) as HN. unfold builtin_types in HN.
  apply NoDup_cons in HN as [_ HN]. apply NoDup_cons in HN as [_ HN].
  nodup_facts HN.
  unfold builtin_types. cbn [map].
  repeat f_equal; unfold pg_type_to_sdl; eqb_steps; reflexivity.
Qed.

(** A directly mapped type comes back from any event bearing its code. *)
Lemma direct_roundtrip (b : UserBand) (T c : Z) (e : SDL_Event) :
  (T, c) ∈ [(PGE_KEYDOWN, SDL_KEYDOWN); (PGE_KEYUP, SDL_KEYUP);
            (PGE_MOUSEMOTION, SDL_MOUSEMOTION);
            (PGE_MOUSEBUTTONDOWN, SDL_MOUSEBUTTONDOWN);
            (PGE_MOUSEBUTTONUP, SDL_MOUSEBUTTONUP);
            (PGE_JOYAXISMOTION, SDL_JOYAXISMOTION);
            (PGE_JOYBALLMOTION, SDL_JOYBALLMOTION);
            (PGE_JOYHATMOTION, SDL_JOYHATMOTION);
            (PGE_JOYBUTTONDOWN, SDL_JOYBUTTONDOWN);
            (PGE_JOYBUTTONUP, SDL_JOYBUTTONUP);
            (PGE_QUIT, SDL_QUIT); (PGE_SYSWMEVENT, SDL_SYSWMEVENT)] ->
  type e = c ->
  sdl_to_pg b e = T.
Proof.
  intros HT Ht. unfold sdl_to_pg. rewrite Ht.
  repeat (apply elem_of_cons in HT as [HT|HT];
          [injection HT as -> ->; reflexivity|]).
  apply elem_of_nil in HT. contradiction.
Qed.

(** C5 (amended).  For a built-in logical type [T] and a native event
    bearing the native code of [T], the event classifies back as [T]
    exactly when [T] is one of the directly mapped types, or the window
    sub-event code of the event is one of those that belong to [T]. *)
Theorem C5_roundtrip_amended (b : UserBand) (T : Z) (e : SDL_Event) :
  T ∈ builtin_types ->
  type e = pg_type_to_sdl b T ->
  sdl_to_pg b e = T
  <-> (window_type T = false \/ w_event (window e) ∈ window_subcodes T).
Proof.
  intros HT He.
  pose proof (pg_type_to_sdl_builtin b) as HC.
  pose proof (wf_nodup wf) as HN. unfold builtin_types in HN, HT, HC.
  cbn [map] in HC.
  apply NoDup_cons in HN as [_ HN]. apply NoDup_cons in HN as [HO HN].
  rewrite !not_elem_of_cons in HO.
  destruct HO as (HOA & HOE & HOR & _).
  apply NoDup_cons in HN as [HA HN]. apply NoDup_cons in HN as [HE HN].
  apply NoDup_cons in HN as [HR _].
  rewrite !not_elem_of_cons in HA, HE, HR.
  destruct HA as (HAE & HAR & HA). destruct HE as (HER & HE).
  assert (Hwin : type e = SDL_WINDOWEVENT ->
                 sdl_to_pg b e
                 = (if active_sub (w_event (window e)) then PGE_ACTIVEEVENT
                    else if w_event (window e) =? SDL_WINDOWEVENT_RESIZED
                         then PGE_VIDEORESIZE
                    else if w_event (window e) =? SDL_WINDOWEVENT_EXPOSED
                         then PGE_VIDEOEXPOSE
                    else PGE_OTHEREVENT))
    by apply sdl_to_pg_window.
  pose proof (active_sub_spec (w_event (window e))) as Hact.
  apply elem_of_cons in HT as [->|HT];
    [|apply elem_of_cons in HT as [->|HT];
      [|apply elem_of_cons in HT as [->|HT]]].
  - (* active state *)
    injection HC as HC _. rewrite HC in He. rewrite (Hwin He).
    unfold window_type, window_subcodes. rewrite Z.eqb_refl. cbn [orb].
    destruct (active_sub (w_event (window e))).
    + split; [intros _; right; apply Hact; reflexivity | reflexivity].
    + split.
      * intros Hq. exfalso.
        destruct (_ =? SDL_WINDOWEVENT_RESIZED); [congruence|].
        destruct (_ =? SDL_WINDOWEVENT_EXPOSED); congruence.
      * intros [Hq|Hq]; [discriminate|]. apply Hact in Hq. discriminate.
  - (* expose *)
    injection HC as _ HC _. rewrite HC in He. rewrite (Hwin He).
    unfold window_type, window_subcodes.
    rewrite (proj2 (Z.eqb_neq _ _) (not_eq_sym HAE)),
            (proj2 (Z.eqb_neq _ _) HER), Z.eqb_refl.
    cbn [orb]. rewrite list_elem_of_singleton.
    destruct (active_sub (w_event (window e))) eqn:Ea.
    + pose proof (proj1 Hact eq_refl) as Ein. split; [congruence|].
      intros [Hq|Hq]; [discriminate|]. exfalso. rewrite Hq in Ein.
      rewrite !elem_of_cons, elem_of_nil in Ein. vm_compute in Ein.
      intuition congruence.
    + destruct (Z.eqb_spec (w_event (window e)) SDL_WINDOWEVENT_RESIZED) as [E5|N5].
      * split; [congruence|]. intros [Hq|Hq]; [discriminate|].
        rewrite Hq in E5. vm_compute in E5. congruence.
      * destruct (Z.eqb_spec (w_event (window e)) SDL_WINDOWEVENT_EXPOSED).
        -- split; [intros _; right; assumption | reflexivity].
        -- split; [congruence|]. intros [Hq|Hq]; [discriminate|contradiction].
  - (* resize *)
    injection HC as _ _ HC _. rewrite HC in He. rewrite (Hwin He).
    unfold window_type, window_subcodes.
    rewrite (proj2 (Z.eqb_neq _ _) (not_eq_sym HAR)), Z.eqb_refl.
    rewrite orb_true_r. rewrite list_elem_of_singleton.
    destruct (active_sub (w_event (window e))) eqn:Ea.
    + pose proof (proj1 Hact eq_refl) as Ein. split; [congruence|].
      intros [Hq|Hq]; [discriminate|]. exfalso. rewrite Hq in Ein.
      rewrite !elem_of_cons, elem_of_nil in Ein. vm_compute in Ein.
      intuition congruence.
    + destruct (Z.eqb_spec (w_event (window e)) SDL_WINDOWEVENT_RESIZED) as [E5|N5].
      * split; [intros _; right; assumption | reflexivity].
      * split; [|intros [Hq|Hq]; [discriminate|contradiction]].
        destruct (_ =? SDL_WINDOWEVENT_EXPOSED); congruence.
  - (* the directly mapped types *)
    assert (HTw : window_type T = false).
    { unfold window_type.
      rewrite !elem_of_cons, elem_of_nil in HT.
      repeat rewrite not_elem_of_cons in HA.
      repeat rewrite not_elem_of_cons in HE.
      repeat rewrite not_elem_of_cons in HR.
      rewrite !orb_false_iff, !Z.eqb_neq.
      intuition congruence. }
    split; [intros _; left; exact HTw | intros _].
    injection HC as _ _ _ C1 C2 C3 C4 C5 C6 C7 C8 C9 C10 C11 C12.
    apply (direct_roundtrip b T (type e) e); [|reflexivity].
    rewrite He. clear - HT C1 C2 C3 C4 C5 C6 C7 C8 C9 C10 C11 C12.
    rewrite !elem_of_cons, elem_of_nil in HT.
    repeat (destruct HT as [->|HT];
            [rewrite ?C1, ?C2, ?C3, ?C4, ?C5, ?C6, ?C7, ?C8, ?C9, ?C10,
                     ?C11, ?C12; repeat constructor|]).
    contradiction.
Qed.

End Roundtrip.
Lemma sdl12_enum_wf : pge_wf (K := sdl12_enum).
Proof.
  split.
  - apply (bool_decide_unpack _). vm_compute. reflexivity.
  - repeat constructor; vm_compute; congruence.
  - vm_compute. split; congruence.
Qed.

(** C5 (as stated, refuted).  A native event bearing the native code of
    the active-state type, with the "resized" sub-event code, classifies
    as the resize type. *)
Lemma C5_window_code_counterexample :
  ~ (forall (b : UserBand) (T : Z) (e : SDL_Event),
        T ∈ builtin_types (K := sdl12_enum) ->
        type e = pg_type_to_sdl (K := sdl12_enum) b T ->
        sdl_to_pg (K := sdl12_enum) b e = T).
Proof.
  intros H.
  specialize (H band_init (PGE_ACTIVEEVENT (PgeEnum := sdl12_enum))
                (window_event SDL_WINDOWEVENT_RESIZED)).
  assert (E : sdl_to_pg (K := sdl12_enum) band_init
                (window_event SDL_WINDOWEVENT_RESIZED) = 16) by reflexivity.
  rewrite H in E; [vm_compute in E; congruence | | reflexivity].
  apply list_elem_of_here.
Qed.

Lemma C5_roundtrip_witness :
  sdl_to_pg (K := sdl12_enum) band_init (keydown_event 0 0)
  = PGE_KEYDOWN (PgeEnum := sdl12_enum)
  <-> (window_type (K := sdl12_enum) (PGE_KEYDOWN (PgeEnum := sdl12_enum))
       = false
       \/ w_event (window (keydown_event 0 0))
          ∈ window_subcodes (K := sdl12_enum)
              (PGE_KEYDOWN (PgeEnum := sdl12_enum))).
Proof.
  apply (C5_roundtrip_amended (K := sdl12_enum) sdl12_enum_wf band_init
           (PGE_KEYDOWN (PgeEnum := sdl12_enum)) (keydown_event 0 0)).
  - do 3 apply list_elem_of_further. apply list_elem_of_here.
  - reflexivity.
Defined.

(** ** The "other" type on post *)

(** For an event of the "other" logical type whose attribute mapping is
    missing, lacks the stashed native-code key, holds a non-number there,
    or holds an integer outside [INT_MIN, last_user_event], the
    translation yields [last_user_event + 1] and leaves no exception
    pending; an integer inside that range is the native code. *)
Lemma other_event_fallback {K : PgeEnum} (b : UserBand)
    (e : PyEventObject) :
  e_type e = PGE_OTHEREVENT ->
  0 <= last_user_event b < 2 ^ 32 ->
  ((e_dict e = None
    \/ (exists d, e_dict e = Some d /\ d !! "sdl2_type"%string = None)
    \/ (exists d o, e_dict e = Some d /\ d !! "sdl2_type"%string = Some o
                    /\ PyNumber_Check o = false)
    \/ (exists d o, e_dict e = Some d
                    /\ d !! "sdl2_type"%string = Some o
                    /\ PyNumber_Check o = true
                    /\ (last_user_event b < fst (PyNumber_AsSsize_t o)
                        \/ fst (PyNumber_AsSsize_t o) < INT_MIN))) ->
   pg_to_sdl b e = (to_int (to_Uint32 (last_user_event b + 1)), false))
  /\ (forall d n, e_dict e = Some d ->
                  d !! "sdl2_type"%string = Some (PyInt n) ->
                  INT_MIN <= n <= last_user_event b ->
                  pg_to_sdl b e = (to_int n, false)).
Proof.
  intros Ht Hl. unfold pg_to_sdl, get_sdl_event_code.
  rewrite Ht, Z.eqb_refl.
  split.
  - intros [Hn | [(d & Hd & Hk) | [(d & o & Hd & Hk & Hc)
                                  | (d & o & Hd & Hk & Hc & Hr)]]].
    + rewrite Hn. reflexivity.
    + rewrite Hd, Hk. reflexivity.
    + rewrite Hd, Hk, Hc. reflexivity.
    + rewrite Hd, Hk, Hc. cbn [negb].
      destruct (PyNumber_AsSsize_t o) as [c err] eqn:Ec. cbn [fst] in Hr.
      assert (Herr : err = false).
      { destruct o; cbn in Ec; injection Ec as <- <-; try reflexivity;
          exfalso; unfold INT_MIN in Hr;
          change (2 ^ 31) with 2147483648 in Hr; lia. }
      subst err.
      destruct (Z.ltb_spec (last_user_event b) c);
        destruct (Z.ltb_spec c INT_MIN); cbn [orb]; try reflexivity.
      exfalso. lia.
  - intros d n Hd Hk Hr. rewrite Hd, Hk.
    cbn [PyNumber_Check negb PyNumber_AsSsize_t].
    unfold INT_MIN, PY_SSIZE_T_MIN, PY_SSIZE_T_MAX in *.
    change (2 ^ 32) with 4294967296 in *.
    change (2 ^ 31) with 2147483648 in *.
    change (2 ^ 63) with 9223372036854775808 in *.
    match goal with
    | |- context [(?x <? ?y) || (?u <? ?v)] =>
        destruct (Z.ltb_spec x y); destruct (Z.ltb_spec u v)
    end; cbn [orb]; try lia.
    f_equal. f_equal. lia.
Qed.

(** A float under the key is a number for [PyNumber_Check], but
    [PyNumber_AsSsize_t] refuses it: the answer -1 passes the range test
    and is returned, with the TypeError left pending. *)
Lemma float_code_leaves_error {K : PgeEnum} (b : UserBand)
    (e : PyEventObject) (d : Dict) (f : float) :
  e_type e = PGE_OTHEREVENT ->
  e_dict e = Some d ->
  d !! "sdl2_type"%string = Some (PyFloat f) ->
  0 <= last_user_event b ->
  pg_to_sdl b e = (-1, true).
Proof.
  intros Ht Hd Hk Hl. unfold pg_to_sdl, get_sdl_event_code.
  rewrite Ht, Z.eqb_refl, Hd, Hk.
  cbn [PyNumber_Check negb PyNumber_AsSsize_t].
  destruct (Z.ltb_spec (last_user_event b) (-1)); [lia|].
  reflexivity.
Qed.

(** C7 (refuted on the code).  An event of the "other" type whose
    stashed native code is the float 1e10, a number beyond the upper end
    of the user band: the translation does not yield
    [last_user_event + 1] (here 0) but -1, and leaves a TypeError
    pending.  The integer of the same value takes the fallback, with no
    error.  A float inside the range, 768.0, is not recovered as the
    native code either, where the integer 768 is. *)
Theorem C7_float_code_not_fallback :
  let K := sdl12_enum in
  let stash (o : PyObject) :=
    mkPyEvent PGE_OTHEREVENT (Some {[ "sdl2_type"%string := o ]}) in
  PyNumber_Check (PyFloat 1e10) = true
  /\ PrimFloat.ltb (float_of_Z (last_user_event band_init)) 1e10 = true
  /\ to_int (to_Uint32 (last_user_event band_init + 1)) = 0
  /\ pg_to_sdl band_init (stash (PyFloat 1e10)) = (-1, true)
  /\ pg_to_sdl band_init (stash (PyInt 10000000000)) = (0, false)
  /\ pg_to_sdl band_init (stash (PyFloat 768)) = (-1, true)
  /\ pg_to_sdl band_init (stash (PyInt 768)) = (768, false).
Proof. vm_compute. repeat split. Qed.

(** ** Joystick axis *)

Lemma all_from_spec (k : nat) (P : Z -> bool) (lo v : Z) :
  all_from k P lo = true -> lo <= v < lo + Z.of_nat k -> P v = true.
Proof.
  revert lo. induction k as [|k IH]; intros lo H Hv; [lia|].
  cbn [all_from] in H. apply andb_true_iff in H as [H0 H1].
  destruct (Z.eq_dec v lo) as [->|Hne]; [exact H0|].
  apply (IH (lo + 1)); [exact H1 | lia].
Qed.

Lemma axis_bounds_all : all_from (Z.to_nat 65536) axis_bounds (-32768) = true.
Proof. vm_compute. reflexivity. Qed.

(** C9 (as stated, refuted).  The axis value -32768 normalizes below
    -1.0. *)
Lemma C9_axis_min_counterexample :
  ~ (forall v : Z, -32768 <= v <= 32767 -> axis_unit_interval v = true).
Proof.
  intros H. specialize (H (-32768) ltac:(lia)).
  vm_compute in H. discriminate.
Qed.

Section AxisValue.
Context {K : PgeEnum}.
Hypothesis wf : pge_wf.
Variable Py_UNICODE_TOUPPER : Z -> Z.
Variable our_unichr : Z -> option PyObject.
Variable Text_FromUTF8 : Z -> option PyObject.

Lemma insobj_lookup_ne (d : Dict) (k k' : string) (v : option PyObject) :
  k <> k' -> insobj d k v !! k' = d !! k'.
Proof.
  intros H. destruct v as [o|]; cbn [insobj]; [|reflexivity].
  apply lookup_insert_ne. exact H.
Qed.

Lemma generic_dict_axis_value (b : UserBand) (e : SDL_Event) :
  type e = SDL_JOYAXISMOTION ->
  generic_dict Py_UNICODE_TOUPPER our_unichr Text_FromUTF8 b e
    !! "value"%string
  = Some (PyFloat (jaxis_normalized (ja_value (jaxis e)))).
Proof.
  intros Ht.
  pose proof (wf_nodup wf) as HN. unfold builtin_types in HN. nodup_facts HN.
  unfold generic_dict, sdl_to_pg. rewrite Ht.
  cbn [Z.eqb Pos.eqb SDL_WINDOWEVENT SDL_KEYDOWN SDL_KEYUP SDL_MOUSEMOTION
       SDL_MOUSEBUTTONDOWN SDL_MOUSEBUTTONUP SDL_JOYAXISMOTION].
  unfold type_items. eqb_steps.
  repeat match goal with
         | |- context [if ?c then insobj _ _ _ else _] => destruct c
         end;
    rewrite ?insobj_lookup_ne by discriminate;
    cbn [insobj]; apply lookup_insert_eq.
Qed.

(** C9 (amended).  For a native joystick-axis event that does not carry
    the user sentinels, the decoded mapping's "value" entry is the axis
    value, converted to a double, divided by 32767.0.  Over the signed
    16-bit range it is at most 1.0, which it reaches at 32767; it is at
    least -1.0, reached at -32767, for every axis value except -32768,
    whose quotient, the least of all, lies strictly below -1.0. *)
Theorem C9_axis_value_amended (b : UserBand) (e : SDL_Event)
    (reg : Registry Dict) :
  type e = SDL_JOYAXISMOTION ->
  user_posted e = false ->
  -32768 <= ja_value (jaxis e) <= 32767 ->
  let v := ja_value (jaxis e) in
  let x := PrimFloat.div (float_of_Z v) 32767%float in
  exists d,
    dict_from_event Py_UNICODE_TOUPPER our_unichr Text_FromUTF8 b e reg
    = Done (d, reg)
    /\ d !! "value"%string = Some (PyFloat x)
    /\ PrimFloat.leb x 1%float = true
    /\ (-32767 <= v -> PrimFloat.leb (-1)%float x = true)
    /\ (v = -32768 -> PrimFloat.ltb x (-1)%float = true)
    /\ PrimFloat.leb (PrimFloat.div (float_of_Z (-32768)) 32767%float) x
       = true
    /\ (v = 32767 -> x = 1%float)
    /\ (v = -32767 -> x = (-1)%float).
Proof.
  intros Ht Hu Hv v x.
  exists (generic_dict Py_UNICODE_TOUPPER our_unichr Text_FromUTF8 b e).
  split.
  { unfold dict_from_event. unfold user_posted in Hu. rewrite Hu. reflexivity. }
  split; [exact (generic_dict_axis_value b e Ht)|].
  pose proof (all_from_spec _ _ _ v axis_bounds_all ltac:(subst v; lia))
    as HB.
  unfold axis_bounds in HB.
  change (jaxis_normalized v) with x in HB.
  change (jaxis_normalized (-32768))
    with (PrimFloat.div (float_of_Z (-32768)) 32767%float) in HB.
  change (float_of_Z 1) with 1%float in HB.
  change (float_of_Z (-1)) with (-1)%float in HB.
  apply andb_true_iff in HB as [HB H3]. apply andb_true_iff in HB as [H1 H2].
  split; [exact H2|]. split.
  { intros Hlo. apply orb_true_iff in H3 as [H3|H3]; [|exact H3].
    apply Z.ltb_lt in H3. lia. }
  split.
  { intros E. subst x. rewrite E. vm_compute. reflexivity. }
  split; [exact H1|]. split.
  - intros E. subst x. rewrite E. vm_compute. reflexivity.
  - intros E. subst x. rewrite E. vm_compute. reflexivity.
Qed.

End AxisValue.

Lemma C9_axis_value_witness :
  let x := PrimFloat.div (float_of_Z (-32768)) 32767%float in
  exists d,
    dict_from_event (K := sdl12_enum) toupper_ascii unichr_bmp text_none
      band_init (axis_event (-32768)) registry_init
    = Done (d, registry_init)
    /\ d !! "value"%string = Some (PyFloat x)
    /\ PrimFloat.leb x 1%float = true
    /\ PrimFloat.ltb x (-1)%float = true.
Proof.
  intros x.
  destruct (C9_axis_value_amended (K := sdl12_enum) sdl12_enum_wf
              toupper_ascii unichr_bmp text_none band_init
              (axis_event (-32768)) registry_init)
    as (d & Hd & Hv & Hhi & _ & Hlo & _).
  - reflexivity.
  - reflexivity.
  - cbn. lia.
  - exists d. split; [exact Hd|]. split; [exact Hv|].
    split; [exact Hhi | exact (Hlo eq_refl)].
Defined.

(** ** The user-object list *)

Section RegistryFacts.
Context {Obj : Type}.
Implicit Types (m : gmap Z (UserEventObject Obj)) (l : list (Z * Obj)).
Implicit Types (st : Registry Obj).

Lemma lseg_nonnull m p q l a : lseg m p q l -> a ∈ l.*1 -> a <> NULL.
Proof.
  revert p. induction l as [|[a' x] l IH]; intros p H Ha.
  - apply elem_of_nil in Ha. contradiction.
  - cbn in H. destruct H as (-> & Hp & nx & _ & Hl).
    cbn in Ha. apply elem_of_cons in Ha as [->|Ha]; [exact Hp|].
    exact (IH nx Hl Ha).
Qed.

Lemma lseg_allocated m p q l a : lseg m p q l -> a ∈ l.*1 -> is_Some (m !! a).
Proof.
  revert p. induction l as [|[a' x] l IH]; intros p H Ha.
  - apply elem_of_nil in Ha. contradiction.
  - cbn in H. destruct H as (-> & Hp & nx & Hm & Hl).
    cbn in Ha. apply elem_of_cons in Ha as [->|Ha]; [eexists; exact Hm|].
    exact (IH nx Hl Ha).
Qed.

(** A segment only depends on the nodes it holds. *)
Lemma lseg_frame m m' p q l :
  (forall a, a ∈ l.*1 -> m' !! a = m !! a) ->
  lseg m p q l -> lseg m' p q l.
Proof.
  revert p. induction l as [|[a x] l IH]; intros p Hf H; [exact H|].
  cbn in H |- *. destruct H as (-> & Hp & nx & Hm & Hl).
  split; [reflexivity|]. split; [exact Hp|]. exists nx. split.
  - rewrite Hf; [exact Hm|]. cbn. apply list_elem_of_here.
  - apply IH; [|exact Hl]. intros a Ha. apply Hf. cbn.
    apply list_elem_of_further. exact Ha.
Qed.

Lemma lseg_app m p q r l1 l2 :
  lseg m p q l1 -> lseg m q r l2 -> lseg m p r (l1 ++ l2).
Proof.
  revert p. induction l1 as [|[a x] l1 IH]; intros p H1 H2.
  - cbn in H1. subst. exact H2.
  - cbn in H1 |- *. destruct H1 as (-> & Hp & nx & Hm & Hl).
    split; [reflexivity|]. split; [exact Hp|]. exists nx.
    split; [exact Hm|]. apply IH; assumption.
Qed.

Lemma lseg_app_inv m p r l1 l2 :
  lseg m p r (l1 ++ l2) -> exists q, lseg m p q l1 /\ lseg m q r l2.
Proof.
  revert p. induction l1 as [|[a x] l1 IH]; intros p H.
  - exists p. split; [reflexivity | exact H].
  - cbn in H. destruct H as (-> & Hp & nx & Hm & Hl).
    destruct (IH nx Hl) as (q & H1 & H2). exists q. split; [|exact H2].
    cbn. split; [reflexivity|]. split; [exact Hp|]. exists nx. auto.
Qed.

(** The nodes of a list fit in the heap, so the steps allotted to the
    loops suffice. *)
Lemma lseg_length m p q l :
  lseg m p q l -> NoDup (l.*1) -> (length l <= size m)%nat.
Proof.
  intros H Hnd.
  rewrite <- (length_fmap fst l).
  rewrite <- (size_list_to_set (C := gset Z) (l.*1)) by exact Hnd.
  rewrite <- (size_dom (D := gset Z) m).
  apply subseteq_size. intros a Ha.
  apply elem_of_list_to_set in Ha. apply elem_of_dom.
  exact (lseg_allocated m p q l a H Ha).
Qed.

(** The hunt stops on the last node of the segment that leads to
    [userobj]. *)
Lemma hunt_loop_stops m p userobj l a x (fuel : nat) :
  lseg m p userobj (l ++ [(a, x)]) ->
  userobj ∉ (l ++ [(a, x)]).*1 ->
  (length l < fuel)%nat ->
  hunt_loop fuel m p userobj = Done a.
Proof.
  revert p fuel. induction l as [|[a' x'] l IH]; intros p fuel H Hni Hf.
  - cbn in H. destruct H as (-> & Hp & nx & Hm & ->).
    destruct fuel as [|fuel]; [cbn in Hf; lia|]. cbn [hunt_loop].
    destruct (Z.eqb_spec p NULL) as [|_]; [contradiction|].
    rewrite Hm. cbn [next]. rewrite Z.eqb_refl. reflexivity.
  - cbn in H. destruct H as (-> & Hp & nx & Hm & Hl).
    destruct fuel as [|fuel]; [cbn in Hf; lia|]. cbn [hunt_loop].
    destruct (Z.eqb_spec p NULL) as [|_]; [contradiction|].
    rewrite Hm. cbn [next].
    cbn in Hni. apply not_elem_of_cons in Hni as [Hne Hni].
    destruct (Z.eqb_spec nx userobj) as [E|_].
    + exfalso. subst nx. apply Hni.
      destruct l as [|[a2 x2] l]; cbn in Hl |- *;
        destruct Hl as (-> & _); apply list_elem_of_here.
    + apply IH; [exact Hl | exact Hni | cbn in Hf; lia].
Qed.

(** It runs off the end of a list that does not lead to [userobj]. *)
Lemma hunt_loop_absent m p userobj l (fuel : nat) :
  lseg m p NULL l ->
  userobj ∉ l.*1 -> userobj <> NULL ->
  (length l < fuel)%nat ->
  hunt_loop fuel m p userobj = Done NULL.
Proof.
  revert p fuel. induction l as [|[a x] l IH]; intros p fuel H Hni Hnn Hf.
  - cbn in H. subst p.
    destruct fuel as [|fuel]; [cbn in Hf; lia|]. reflexivity.
  - cbn in H. destruct H as (-> & Hp & nx & Hm & Hl).
    destruct fuel as [|fuel]; [cbn in Hf; lia|]. cbn [hunt_loop].
    destruct (Z.eqb_spec p NULL) as [|_]; [contradiction|].
    rewrite Hm. cbn [next].
    cbn in Hni. apply not_elem_of_cons in Hni as [Hne Hni].
    destruct (Z.eqb_spec nx userobj) as [E|_].
    + exfalso. subst nx.
      destruct l as [|[a2 x2] l]; cbn in Hl.
      * congruence.
      * destruct Hl as (-> & _). apply Hni. cbn. apply list_elem_of_here.
    + apply IH; [exact Hl | exact Hni | exact Hnn | cbn in Hf; lia].
Qed.

Lemma lseg_snoc_inv m p q l a x :
  lseg m p q (l ++ [(a, x)]) ->
  lseg m p a l /\ a <> NULL /\ m !! a = Some (mkNode q x).
Proof.
  intros H. apply lseg_app_inv in H as (r & H1 & H2).
  cbn in H2. destruct H2 as (-> & Hp & nx & Hm & ->). auto.
Qed.

Lemma lseg_head_nonnull m p q a x l : lseg m p q ((a, x) :: l) -> p <> NULL.
Proof. cbn. intros (_ & Hp & _). exact Hp. Qed.

Lemma lseg_head m p q a x l : lseg m p q ((a, x) :: l) -> p = a.
Proof. cbn. intros (E & _). symmetry. exact E. Qed.

Lemma registry_init_inv : registry_inv (Obj := Obj) registry_init [].
Proof.
  split; [reflexivity|]. split; [constructor|]. apply lookup_empty.
Qed.

(** Registering prepends a node and answers its address. *)
Lemma user_event_addobject_inv st l a x :
  registry_inv st l -> a <> NULL -> mem st !! a = None ->
  fst (user_event_addobject a x st) = a
  /\ registry_inv (snd (user_event_addobject a x st)) ((a, x) :: l).
Proof.
  intros (Hseg & Hnd & Hnull) Ha Hfresh. unfold user_event_addobject.
  destruct (Z.eqb_spec a NULL) as [|_]; [contradiction|].
  cbn [fst snd]. split; [reflexivity|].
  assert (Hni : a ∉ l.*1).
  { intros Hin. destruct (lseg_allocated _ _ _ _ _ Hseg Hin) as [n Hn].
    congruence. }
  split; [|split].
  - cbn. split; [reflexivity|]. split; [exact Ha|].
    exists (user_event_objects st). split; [apply lookup_insert_eq|].
    apply (lseg_frame (mem st)); [|exact Hseg].
    intros a' Ha'. apply lookup_insert_ne. intros ->. contradiction.
  - cbn. apply NoDup_cons. split; assumption.
  - cbn [mem]. rewrite lookup_insert_ne by exact Ha. exact Hnull.
Qed.

(** Retrieving a handle that is in the list yields its payload, unlinks
    exactly that node and frees it. *)
Lemma user_event_getobject_found st l1 h x l2 :
  registry_inv st (l1 ++ (h, x) :: l2) ->
  exists st',
    user_event_getobject h st = Done (Some x, st')
    /\ registry_inv st' (l1 ++ l2)
    /\ mem st' !! h = None.
Proof.
  intros (Hseg & Hnd & Hnull).
  pose proof (lseg_length _ _ _ _ Hseg Hnd) as Hlen.
  rewrite fmap_app, fmap_cons in Hnd. cbn [fst] in Hnd.
  apply NoDup_app in Hnd as (N1 & N12 & N2).
  apply NoDup_cons in N2 as [Nh N2].
  assert (Hh1 : h ∉ l1.*1).
  { intros Hin. apply (N12 h Hin). apply list_elem_of_here. }
  assert (N' : NoDup ((l1 ++ l2).*1)).
  { rewrite fmap_app. apply NoDup_app. split; [exact N1|]. split; [|exact N2].
    intros a Ha Ha2. apply (N12 a Ha). apply list_elem_of_further. exact Ha2. }
  unfold user_event_getobject.
  destruct l1 as [|[a0 x0] l1'].
  - (* the head node *)
    cbn [app] in *. cbn in Hseg. destruct Hseg as (E & Hp & nx & Hm & Hl).
    rewrite <- E in Hm, Hp |- *.
    destruct (Z.eqb_spec h NULL) as [|_]; [contradiction|].
    rewrite Z.eqb_refl, Hm. cbn [object next].
    eexists. split; [reflexivity|]. split; [|apply lookup_delete_eq].
    split; [|split; [exact N'|]].
    + cbn [mem user_event_objects].
      apply (lseg_frame (mem st)); [|exact Hl].
      intros a Ha. apply lookup_delete_ne. intros ->. contradiction.
    + cbn [mem]. rewrite lookup_delete_ne by congruence. exact Hnull.
  - (* a node further down *)
    pose proof (lseg_head_nonnull _ _ _ _ _ _ Hseg) as Hp.
    pose proof (lseg_head _ _ _ _ _ _ Hseg) as Ehd.
    assert (Hneq : a0 <> h).
    { intros ->. apply Hh1. cbn. apply list_elem_of_here. }
    destruct (Z.eqb_spec (user_event_objects st) NULL) as [|_];
      [contradiction|].
    destruct (Z.eqb_spec (user_event_objects st) h) as [|_]; [congruence|].
    destruct (exists_last (l := (a0, x0) :: l1') ltac:(discriminate))
      as (l0 & [a' x'] & El).
    rewrite El in *. clear El.
    apply lseg_app_inv in Hseg as (q & Hs1 & Hs2).
    pose proof (lseg_head _ _ _ _ _ _ Hs2) as Eq. subst q.
    cbn in Hs2. destruct Hs2 as (_ & Hhn & nx & Hmh & Hl2).
    rewrite (hunt_loop_stops _ _ _ l0 a' x' _ Hs1 Hh1).
    2:{ rewrite !length_app in Hlen. cbn in Hlen. lia. }
    apply lseg_snoc_inv in Hs1 as (Hs0 & Ha' & Hma').
    destruct (Z.eqb_spec a' NULL) as [|_]; [contradiction|].
    rewrite Hma', Hmh. cbn [object next].
    rewrite fmap_app in N1. apply NoDup_app in N1 as (N0 & N0a & _).
    assert (Ha'h : a' <> h).
    { intros ->. apply Hh1. rewrite fmap_app. apply elem_of_app. right.
      cbn. apply list_elem_of_here. }
    eexists. split; [reflexivity|]. split.
    2:{ cbn [mem]. apply lookup_delete_eq. }
    split; [|split; [exact N'|]].
    + cbn [mem user_event_objects]. rewrite <- app_assoc.
      apply (lseg_app _ _ a').
      * apply (lseg_frame (mem st)); [|exact Hs0].
        intros a Ha. rewrite lookup_delete_ne.
        -- apply lookup_insert_ne. intros ->.
           apply (N0a a Ha). cbn. apply list_elem_of_here.
        -- intros ->. apply Hh1. rewrite fmap_app. apply elem_of_app.
           left. exact Ha.
      * cbn. split; [reflexivity|]. split; [exact Ha'|]. exists nx. split.
        -- rewrite lookup_delete_ne by congruence. apply lookup_insert_eq.
        -- apply (lseg_frame (mem st)); [|exact Hl2].
           intros a Ha. rewrite lookup_delete_ne.
           ++ apply lookup_insert_ne. intros ->.
              apply (N12 a); [|apply list_elem_of_further; exact Ha].
              rewrite fmap_app. apply elem_of_app. right. cbn.
              apply list_elem_of_here.
           ++ intros ->. contradiction.
    + cbn [mem]. rewrite lookup_delete_ne by congruence.
      rewrite lookup_insert_ne by congruence. exact Hnull.
Qed.

(** Retrieving a non-null handle that is not in the list answers NULL and
    changes nothing. *)
Lemma user_event_getobject_absent st l h :
  registry_inv st l -> h ∉ l.*1 -> h <> NULL ->
  user_event_getobject h st = Done (None, st).
Proof.
  intros (Hseg & Hnd & Hnull) Hni Hnn.
  pose proof (lseg_length _ _ _ _ Hseg Hnd) as Hlen.
  unfold user_event_getobject.
  destruct l as [|[a x] l].
  - cbn in Hseg. rewrite Hseg. reflexivity.
  - pose proof (lseg_head_nonnull _ _ _ _ _ _ Hseg) as Hp.
    pose proof (lseg_head _ _ _ _ _ _ Hseg) as Ehd.
    destruct (Z.eqb_spec (user_event_objects st) NULL) as [|_];
      [contradiction|].
    destruct (Z.eqb_spec (user_event_objects st) h) as [E|_].
    { exfalso. apply Hni. cbn. rewrite <- E, Ehd. apply list_elem_of_here. }
    rewrite (hunt_loop_absent _ _ _ _ _ Hseg Hni Hnn) by lia.
    reflexivity.
Qed.

(** On an empty list every handle, null or not, answers NULL. *)
Lemma user_event_getobject_empty st h :
  registry_inv st [] -> user_event_getobject h st = Done (None, st).
Proof.
  intros (Hseg & _). cbn in Hseg. unfold user_event_getobject.
  rewrite Hseg. reflexivity.
Qed.

(** The null handle on a list that holds a node: the hunt stops on the
    last node, whose [next] is NULL, and [userobj->next] is then read
    through the null pointer. *)
Lemma user_event_getobject_null_faults st l :
  registry_inv st l -> l <> [] ->
  user_event_getobject NULL st = Fault.
Proof.
  intros (Hseg & Hnd & Hnull) Hne.
  pose proof (lseg_length _ _ _ _ Hseg Hnd) as Hlen.
  assert (Hp : user_event_objects st <> NULL).
  { destruct l as [|[a x] l]; [contradiction|].
    exact (lseg_head_nonnull _ _ _ _ _ _ Hseg). }
  destruct (exists_last Hne) as (l0 & [a' x'] & ->).
  unfold user_event_getobject.
  destruct (Z.eqb_spec (user_event_objects st) NULL) as [|_];
    [contradiction|].
  rewrite (hunt_loop_stops _ _ _ l0 a' x' _ Hseg).
  - apply lseg_snoc_inv in Hseg as (_ & Ha' & Hma').
    destruct (Z.eqb_spec a' NULL) as [|_]; [contradiction|].
    rewrite Hma', Hnull. reflexivity.
  - intros Hin. exact (lseg_nonnull _ _ _ _ _ Hseg Hin eq_refl).
  - rewrite length_app in Hlen. cbn in Hlen. lia.
Qed.

Lemma cleanup_loop_spec m p l (fuel : nat) :
  lseg m p NULL l -> NoDup (l.*1) -> (length l < fuel)%nat ->
  exists m',
    cleanup_loop fuel m p = Done (l.*2, m')
    /\ (forall a, a ∈ l.*1 -> m' !! a = None)
    /\ (forall a, a ∉ l.*1 -> m' !! a = m !! a).
Proof.
  revert m p fuel. induction l as [|[a x] l IH]; intros m p fuel H Hnd Hf.
  - cbn in H. subst p.
    destruct fuel as [|fuel]; [cbn in Hf; lia|].
    exists m. split; [reflexivity|]. split; [|reflexivity].
    intros a Ha. apply elem_of_nil in Ha. contradiction.
  - cbn in H. destruct H as (-> & Hp & nx & Hm & Hl).
    cbn in Hnd. apply NoDup_cons in Hnd as [Hni Hnd].
    destruct fuel as [|fuel]; [cbn in Hf; lia|]. cbn [cleanup_loop].
    destruct (Z.eqb_spec p NULL) as [|_]; [contradiction|].
    rewrite Hm. cbn [next object].
    destruct (IH (delete p m) nx fuel) as (m' & Hc & Hin & Hout).
    + apply (lseg_frame m); [|exact Hl].
      intros a Ha. apply lookup_delete_ne. intros ->. contradiction.
    + exact Hnd.
    + cbn in Hf. lia.
    + rewrite Hc. exists m'. split; [reflexivity|]. split.
      * intros a Ha. cbn in Ha. apply elem_of_cons in Ha as [->|Ha].
        -- rewrite Hout by exact Hni. apply lookup_delete_eq.
        -- apply Hin. exact Ha.
      * intros a Ha. cbn in Ha. apply not_elem_of_cons in Ha as [Hne Ha].
        rewrite Hout by exact Ha. apply lookup_delete_ne. congruence.
Qed.

(** Teardown hands every payload still in the list to Py_DECREF once, in
    list order, frees every node and leaves the list empty. *)
Lemma user_event_cleanup_spec st l :
  registry_inv st l ->
  exists st',
    user_event_cleanup st = Done (l.*2, st')
    /\ registry_inv st' []
    /\ (forall a, a ∈ l.*1 -> mem st' !! a = None).
Proof.
  intros (Hseg & Hnd & Hnull).
  pose proof (lseg_length _ _ _ _ Hseg Hnd) as Hlen.
  unfold user_event_cleanup.
  destruct l as [|[a x] l].
  - cbn in Hseg. rewrite Hseg. cbn. exists st.
    split; [reflexivity|]. split.
    + split; [exact Hseg|]. split; [constructor | exact Hnull].
    + intros a Ha. apply elem_of_nil in Ha. contradiction.
  - pose proof (lseg_head_nonnull _ _ _ _ _ _ Hseg) as Hp.
    destruct (Z.eqb_spec (user_event_objects st) NULL) as [|_];
      [contradiction|].
    destruct (cleanup_loop_spec _ _ _ (S (size (mem st))) Hseg Hnd)
      as (m' & Hc & Hin & Hout); [lia|].
    rewrite Hc. eexists. split; [reflexivity|]. split.
    + split; [reflexivity|]. split; [constructor|]. cbn [mem].
      rewrite Hout; [exact Hnull|].
      intros Hin0. exact (lseg_nonnull _ _ _ _ _ Hseg Hin0 eq_refl).
    + exact Hin.
Qed.

End RegistryFacts.

(** C6 (code defect).  With one payload registered, retrieving the null
    handle, which is not in the list, does not answer "absent": the code
    reads [userobj->next] through the null pointer. *)
Theorem C6_null_handle_faults (Obj : Type) (x : Obj) :
  let st := snd (user_event_addobject 1 x registry_init) in
  registry_inv st [(1, x)]
  /\ ~ NULL ∈ [(1, x)].*1
  /\ user_event_getobject NULL st = Fault.
Proof.
  intros st.
  assert (Hinv : registry_inv st [(1, x)]).
  { apply (user_event_addobject_inv registry_init [] 1 x).
    - apply registry_init_inv.
    - discriminate.
    - apply lookup_empty. }
  split; [exact Hinv|]. split.
  - cbn. rewrite list_elem_of_singleton. discriminate.
  - apply (user_event_getobject_null_faults st [(1, x)] Hinv). discriminate.
Qed.

(** ** Blocking and posting *)

(** C4 (code defect).  After [set_blocked ([KEYDOWN])] the query
    [get_blocked ([KEYDOWN])] answers true, but posting a key-down event
    pushes a record on the native queue: [set_blocked] flags the native
    code equal to the logical number, [event_post] asks for the flag of
    the translated code.  The pushed record bears the logical number as its
    native code, which a later [get ([KEYDOWN])] does not look for. *)
Theorem C4_blocked_type_is_posted :
  let K := sdl12_enum in
  let s0 := module_init repeat_500_100 in
  let e := mkPyEvent PGE_KEYDOWN (Some ∅) in
  let s1 := snd (set_blocked [TypeSeq [Some PGE_KEYDOWN]] s0) in
  fst (set_blocked [TypeSeq [Some PGE_KEYDOWN]] s0) = Return tt
  /\ disabled (native s1) = [PGE_KEYDOWN]
  /\ get_blocked [TypeSeq [Some PGE_KEYDOWN]] s1 = Return 1
  /\ fst (pg_to_sdl (band s1) e) = SDL_KEYDOWN
  /\ match event_post zero_event 1 0 e s1 with
     | Done (Return tt, s2) =>
         map type (queue (native s2)) = [PGE_KEYDOWN]
         /\ match event_get toupper_ascii unichr_bmp text_none zero_event
                            [TypeSeq [Some PGE_KEYDOWN]] s2 with
            | Done (Return l, s3) => l = [] /\ native s3 = native s2
            | _ => False
            end
     | _ => False
     end.
Proof. repeat split; vm_compute; reflexivity. Qed.

(** The same for every built-in type with a native code: blocked by
    [set_blocked], still pushed by [event_post]. *)
Lemma blocked_builtin_types_are_posted :
  let K := sdl12_enum in
  Forall (fun T =>
            let s1 := snd (set_blocked [TypeInt T]
                                       (module_init repeat_500_100)) in
            get_blocked [TypeInt T] s1 = Return 1
            /\ match event_post zero_event 1 0 (mkPyEvent T (Some ∅)) s1 with
               | Done (Return tt, s2) => length (queue (native s2)) = 1%nat
               | _ => False
               end)
         builtin_types.
Proof. repeat constructor; vm_compute; reflexivity. Qed.

(** ** Peeking *)

Lemma set_queue_same (n : Native) : set_queue (queue n) n = n.
Proof. destruct n. reflexivity. Qed.

Lemma SDL_PeepEvents_empty (events : list SDL_Event)
    (numevents action minType maxType : Z) (n : Native) :
  queue n = [] ->
  exists r, SDL_PeepEvents events numevents action minType maxType n
            = (r, events, n).
Proof.
  intros Hq. unfold SDL_PeepEvents.
  destruct (active n); cbn [negb]; [|eexists; reflexivity].
  rewrite Hq. replace (peep_scan _ _ _ []) with (@nil SDL_Event, @nil SDL_Event)
    by (destruct (Z.to_nat numevents); reflexivity).
  unfold fill_buffer. cbn [length app drop]. rewrite <- Hq.
  rewrite set_queue_same. destruct (action =? SDL_GETEVENT); eexists; reflexivity.
Qed.

Section Peek.
Context {K : PgeEnum}.
Variable Py_UNICODE_TOUPPER : Z -> Z.
Variable our_unichr : Z -> option PyObject.
Variable Text_FromUTF8 : Z -> option PyObject.

(** On an empty queue the scan leaves the caller's buffer as it was. *)
Lemma PG_PeepEvents_loop_empty (k : nat) (b : UserBand)
    (events : list SDL_Event) (numevents action mask ty tally : Z)
    (n : Native) :
  queue n = [] ->
  exists r, PG_PeepEvents_loop k b events numevents action mask ty tally n
            = (r, events, n).
Proof.
  intros Hq. revert ty tally.
  induction k as [|k IH]; intros ty tally; cbn [PG_PeepEvents_loop].
  - eexists; reflexivity.
  - destruct (tally <? numevents); [|eexists; reflexivity].
    destruct (Z.testbit mask ty); [|apply IH].
    destruct (negb (pg_type_to_sdl b ty =? PGE_NON_SDL_EVENT)).
    + destruct (SDL_PeepEvents_empty events numevents action
                  (pg_type_to_sdl b ty) (pg_type_to_sdl b ty) n Hq)
        as (r & ->).
      destruct (r =? -1); [eexists; reflexivity | apply IH].
    + cbn [Z.eqb]. apply IH.
Qed.

Lemma type_items_sdl2_type (d : Dict) (t : Z) (e : SDL_Event) :
  type_items Py_UNICODE_TOUPPER our_unichr d t e !! "sdl2_type"%string
  = d !! "sdl2_type"%string.
Proof.
  unfold type_items, key_items.
  repeat match goal with
         | |- context [if ?c then _ else _] => destruct c
         | |- context [let '(_, _) := ?p in _] => destruct p
         end;
    rewrite ?insobj_lookup_ne by discriminate; reflexivity.
Qed.

(** Every generically decoded mapping carries the native code. *)
Lemma generic_dict_sdl2_type (b : UserBand) (e : SDL_Event) :
  generic_dict Py_UNICODE_TOUPPER our_unichr Text_FromUTF8 b e
    !! "sdl2_type"%string
  = Some (PyInt (type e)).
Proof.
  unfold generic_dict.
  repeat match goal with
         | |- context [if ?c then insobj _ _ _ else _] => destruct c
         end;
    rewrite ?insobj_lookup_ne by discriminate;
    rewrite type_items_sdl2_type;
    rewrite ?insobj_lookup_ne by discriminate;
    cbn [insobj PyInt_FromLong]; apply lookup_insert_eq.
Qed.

(** With no argument and nothing queued, [event_peek] decodes whatever
    its local record holds: the result always carries the native-code key,
    so it is never the no-op event with its empty mapping. *)
Lemma event_peek_empty_queue (uninit : SDL_Event) (s : Module) :
  video_init (native s) = true ->
  queue (native s) = [] -> pending (native s) = [] ->
  user_posted uninit = false ->
  exists d,
    event_peek Py_UNICODE_TOUPPER our_unichr Text_FromUTF8 uninit [] s
    = Done (Return (PeekEvent (mkPyEvent (sdl_to_pg (band s) uninit) (Some d))),
            s)
    /\ d !! "sdl2_type"%string = Some (PyInt (type uninit)).
Proof.
  intros Hv Hq Hp Hu.
  exists (generic_dict Py_UNICODE_TOUPPER our_unichr Text_FromUTF8 (band s)
                       uninit).
  split; [|apply generic_dict_sdl2_type].
  unfold event_peek, video_init_check. rewrite Hv. cbn [negb filter_mask].
  assert (Hn : SDL_PumpEvents (native s) = native s).
  { unfold SDL_PumpEvents. rewrite Hq, Hp. cbn.
    destruct (native s); cbn in *; congruence. }
  rewrite Hn. unfold PG_PeepEvents.
  destruct (PG_PeepEvents_loop_empty (Z.to_nat (PGE_NUMEVENTS - 1)) (band s)
              [uninit] 1 SDL_PEEKEVENT PGE_ALLEVENTS 1 0 (native s) Hq)
    as (r & ->).
  cbn [hd]. unfold PyEvent_New, dict_from_event.
  unfold user_posted in Hu. rewrite Hu.
  destruct s as [rp bd rg nt]. reflexivity.
Qed.

End Peek.

(** C8 (code defect).  [event_peek] with no argument on an empty queue:
    the local record (all zero here) is decoded, giving an event of the
    "other" type whose mapping holds the native-code key, not the no-op
    event with an empty mapping. *)
Theorem C8_peek_empty_queue_not_noevent :
  let K := sdl12_enum in
  match event_peek toupper_ascii unichr_bmp text_none zero_event []
                   (module_init repeat_500_100) with
  | Done (Return (PeekEvent e), s') =>
      e_type e = PGE_OTHEREVENT
      /\ e_type e <> PGE_NOEVENT
      /\ match e_dict e with
         | Some d => d !! "sdl2_type"%string = Some (PyInt 0)
         | None => False
         end
  | _ => False
  end.
Proof.
  vm_compute. repeat split; try reflexivity. discriminate.
Qed.

(** ** Draining the queue *)

Lemma peep_scan_zero (c1 c2 : Z) (q : list SDL_Event) :
  peep_scan 0 c1 c2 q = ([], q).
Proof. destruct q; reflexivity. Qed.

(** Asking for one event of code [c]: either none is queued, or the first
    one is taken out. *)
Lemma peep_scan_one (c : Z) (q : list SDL_Event) :
  (peep_scan 1 c c q = ([], q)
   /\ List.filter (fun ev => type ev =? c) q = [])
  \/ (exists ev q1 q2,
        peep_scan 1 c c q = ([ev], q1 ++ q2)
        /\ q = q1 ++ ev :: q2
        /\ List.filter (fun ev => type ev =? c) q1 = []
        /\ (type ev =? c) = true).
Proof.
  induction q as [|ev q IH]; [left; split; reflexivity|].
  cbn [peep_scan List.filter].
  destruct (Z.eqb_spec (type ev) c) as [E|N].
  - right. exists ev, [], q. rewrite E, Z.leb_refl. cbn [andb].
    rewrite peep_scan_zero. rewrite Z.eqb_refl. auto.
  - assert (Hr : (c <=? type ev) && (type ev <=? c) = false).
    { apply andb_false_iff.
      destruct (Z.leb_spec c (type ev)); [right|left; reflexivity].
      apply Z.leb_gt. lia. }
    rewrite Hr.
    destruct IH as [(Hs & Hf) | (ev' & q1 & q2 & Hs & Hq & Hf & Hc)].
    + left. rewrite Hs. split; [reflexivity | exact Hf].
    + right. exists ev', (ev :: q1), q2. rewrite Hs, Hq. cbn [app List.filter].
      destruct (Z.eqb_spec (type ev) c); [contradiction|]. auto.
Qed.

Lemma filter_none_negb {A : Type} (P : A -> bool) (q : list A) :
  List.filter P q = [] -> List.filter (fun x => negb (P x)) q = q.
Proof.
  induction q as [|x q IH]; [reflexivity|]. cbn [List.filter].
  destruct (P x); [discriminate|]. intros H. cbn [negb]. f_equal. auto.
Qed.

Section Drain.
Context {K : PgeEnum}.
Variables (b : UserBand) (mask : Z).

(** A removal step takes one event out of the queue and keeps the others
    in place. *)
Lemma first_hit_split (ts : list Z) (q : list SDL_Event) (ev : SDL_Event)
    (rest : list SDL_Event) :
  first_hit b mask ts q = Some (ev, rest) ->
  exists q1 q2, q = q1 ++ ev :: q2 /\ rest = q1 ++ q2.
Proof.
  induction ts as [|t ts IH]; cbn [first_hit]; [discriminate|].
  destruct (scans b mask t); [|exact IH].
  destruct (peep_scan_one (pg_type_to_sdl b t) q)
    as [(Hs & _) | (ev' & q1 & q2 & Hs & Hq & _)]; rewrite Hs.
  - exact IH.
  - intros [= <- <-]. exists q1, q2. auto.
Qed.

Lemma first_hit_skip (t : Z) (ts : list Z) (q : list SDL_Event) :
  List.filter (fun ev => bears b t ev) q = [] ->
  first_hit b mask (t :: ts) q = first_hit b mask ts q.
Proof.
  intros Hf. cbn [first_hit]. destruct (scans b mask t); [|reflexivity].
  destruct (peep_scan_one (pg_type_to_sdl b t) q)
    as [(Hs & _) | (ev' & q1 & q2 & Hs & Hq & Hf1 & Hc)]; rewrite Hs.
  - reflexivity.
  - exfalso. rewrite Hq in Hf. unfold bears in Hf.
    rewrite List.filter_app in Hf. cbn [List.filter] in Hf.
    rewrite Hc in Hf. apply app_eq_nil in Hf as [_ Hf]. discriminate.
Qed.

Lemma drain_loop_skip (t : Z) (ts : list Z) (fuel : nat)
    (q : list SDL_Event) :
  List.filter (fun ev => bears b t ev) q = [] ->
  drain_loop fuel b mask (t :: ts) q = drain_loop fuel b mask ts q.
Proof.
  revert q. induction fuel as [|fuel IH]; intros q Hf; [reflexivity|].
  cbn [drain_loop]. rewrite (first_hit_skip t ts q Hf).
  destruct (first_hit b mask ts q) as [[ev rest]|] eqn:Eh; [|reflexivity].
  rewrite IH; [reflexivity|].
  destruct (first_hit_split _ _ _ _ Eh) as (q1 & q2 & -> & ->).
  rewrite List.filter_app in Hf |- *. cbn [List.filter] in Hf.
  apply app_eq_nil in Hf as [H1 H2]. rewrite H1. cbn [app].
  destruct (bears b t ev); [discriminate | exact H2].
Qed.

Lemma drain_loop_unscanned (t : Z) (ts : list Z) (fuel : nat)
    (q : list SDL_Event) :
  scans b mask t = false ->
  drain_loop fuel b mask (t :: ts) q = drain_loop fuel b mask ts q.
Proof.
  intros Hs. revert q. induction fuel as [|fuel IH]; intros q; [reflexivity|].
  cbn [drain_loop first_hit]. rewrite Hs.
  destruct (first_hit b mask ts q) as [[ev rest]|]; [|reflexivity].
  rewrite IH. reflexivity.
Qed.

(** Repeating removal steps, each restarting its scan at the lowest type,
    hands out the queue type by type: [drain_order], leaving
    [drain_rest]; one more step than there are queued events suffices. *)
Lemma drain_loop_spec (ts : list Z) (q : list SDL_Event) (fuel : nat) :
  (length q < fuel)%nat ->
  drain_loop fuel b mask ts q
  = Some (drain_order b mask ts q, drain_rest b mask ts q).
Proof.
  revert q fuel. induction ts as [|t ts IHts]; intros q fuel Hf.
  - destruct fuel as [|fuel]; [lia|]. reflexivity.
  - cbn [drain_order drain_rest].
    destruct (scans b mask t) eqn:Es.
    2:{ rewrite drain_loop_unscanned by exact Es. apply IHts. exact Hf. }
    revert q Hf. induction fuel as [|fuel IHf]; intros q Hf; [lia|].
    destruct (peep_scan_one (pg_type_to_sdl b t) q)
      as [(Hs & Hn) | (ev & q1 & q2 & Hs & Hq & Hf1 & Hc)].
    + assert (Hn' : List.filter (fun ev => bears b t ev) q = []) by exact Hn.
      rewrite drain_loop_skip by exact Hn'.
      rewrite Hn', (filter_none_negb _ _ Hn'). cbn [app].
      apply IHts. exact Hf.
    + cbn [drain_loop first_hit]. rewrite Es, Hs.
      rewrite IHf by (rewrite Hq, length_app in Hf;
                      rewrite length_app; cbn [length] in Hf; lia).
      assert (Hf1' : List.filter (fun ev => bears b t ev) q1 = [])
        by exact Hf1.
      assert (Hbe : bears b t ev = true) by exact Hc.
      rewrite Hq, !List.filter_app. cbn [List.filter].
      rewrite Hbe, Hf1'. cbn [negb app]. reflexivity.
Qed.

End Drain.

Lemma set_queue_twice (q q' : list SDL_Event) (n : Native) :
  set_queue q (set_queue q' n) = set_queue q n.
Proof. reflexivity. Qed.

Section DrainCode.
Context {K : PgeEnum}.
Variable Py_UNICODE_TOUPPER : Z -> Z.
Variable our_unichr : Z -> option PyObject.
Variable Text_FromUTF8 : Z -> option PyObject.
Variables (b : UserBand) (mask : Z).

Lemma PG_PeepEvents_loop_full (k : nat) (events : list SDL_Event)
    (action ty : Z) (n : Native) :
  PG_PeepEvents_loop k b events 1 action mask ty 1 n = (1, events, n).
Proof. destruct k; reflexivity. Qed.

(** One call of [PG_PeepEvents] for a single event with SDL_GETEVENT is
    one removal step. *)
Lemma PG_PeepEvents_loop_step (k : nat) (ty : Z) (e : SDL_Event)
    (n : Native) :
  active n = true ->
  PG_PeepEvents_loop k b [e] 1 SDL_GETEVENT mask ty 0 n
  = match first_hit b mask (types_from ty k) (queue n) with
    | Some (ev, rest) => (1, [ev], set_queue rest n)
    | None => (0, [e], n)
    end.
Proof.
  intros Ha. revert ty.
  induction k as [|k IH]; intros ty; [reflexivity|].
  cbn [PG_PeepEvents_loop types_from first_hit]. unfold scans.
  change (0 <? 1) with true. cbv iota.
  destruct (Z.testbit mask ty); cbn [andb]; [|apply IH].
  destruct (negb (pg_type_to_sdl b ty =? PGE_NON_SDL_EVENT)).
  2:{ change (0 =? -1) with false. cbv iota. apply IH. }
  unfold SDL_PeepEvents. rewrite Ha. cbn [negb].
  change (Z.to_nat 1) with 1%nat. rewrite Z.eqb_refl.
  destruct (peep_scan_one (pg_type_to_sdl b ty) (queue n))
    as [(Hs & _) | (ev & q1 & q2 & Hs & _)]; rewrite Hs.
  - cbn [length Z.of_nat]. change (0 =? -1) with false. cbv iota.
    unfold fill_buffer. cbn [length app drop]. rewrite set_queue_same.
    apply IH.
  - cbn [length Z.of_nat Pos.of_succ_nat]. change (1 =? -1) with false.
    cbv iota. unfold fill_buffer. cbn [length app drop Z.add].
    apply PG_PeepEvents_loop_full.
Qed.

(** [event_clear]'s loop is the drain. *)
Lemma event_clear_loop_drain (fuel : nat) (e : SDL_Event) (n : Native) :
  active n = true ->
  event_clear_loop fuel b mask e n
  = match drain_loop fuel b mask scan_types (queue n) with
    | Some (_, r) => Done (set_queue r n)
    | None => Spin
    end.
Proof.
  revert e n. induction fuel as [|fuel IH]; intros e n Ha; [reflexivity|].
  cbn [event_clear_loop drain_loop]. unfold PG_PeepEvents.
  rewrite PG_PeepEvents_loop_step by exact Ha. fold scan_types.
  destruct (first_hit b mask scan_types (queue n)) as [[ev rest]|].
  - change (1 =? 1) with true. cbv iota. cbn [hd].
    rewrite IH by exact Ha. cbn [queue set_queue].
    destruct (drain_loop fuel b mask scan_types rest) as [[l r]|];
      reflexivity.
  - change (0 =? 1) with false. cbv iota. rewrite set_queue_same.
    reflexivity.
Qed.

(** Decoding succeeds as long as a record carrying the sentinels does not
    carry a null handle; the list stays well formed. *)
Lemma PyEvent_New_total (ev : SDL_Event) (reg : Registry Dict)
    (l : list (Z * Dict)) :
  registry_inv reg l ->
  (user_posted ev = true -> u_data2 (user ev) <> NULL) ->
  exists e reg' l',
    PyEvent_New Py_UNICODE_TOUPPER our_unichr Text_FromUTF8 b (Some ev) reg
    = Done (e, reg')
    /\ e_type e = sdl_to_pg b ev
    /\ registry_inv reg' l'.
Proof.
  intros Hinv Hh. unfold PyEvent_New, dict_from_event.
  fold (user_posted ev). destruct (user_posted ev).
  2:{ eexists _, reg, l. split; [reflexivity|]. split; [reflexivity|exact Hinv]. }
  specialize (Hh eq_refl).
  destruct (decide (u_data2 (user ev) ∈ l.*1)) as [Hin|Hni].
  - apply list_elem_of_fmap in Hin as ([h x] & Eh & Hin). cbn in Eh.
    apply list_elem_of_split in Hin as (l1 & l2 & ->).
    destruct (user_event_getobject_found reg l1 h x l2 Hinv)
      as (reg' & Hg & Hinv' & _).
    rewrite Eh, Hg. eexists _, reg', (l1 ++ l2).
    split; [reflexivity|]. split; [reflexivity | exact Hinv'].
  - rewrite (user_event_getobject_absent reg l _ Hinv Hni Hh).
    eexists _, reg, l. split; [reflexivity|]. split; [reflexivity|exact Hinv].
Qed.

(** [event_get]'s loop is the drain, with each event decoded. *)
Lemma event_get_loop_drain (fuel : nat) (e : SDL_Event)
    (reg : Registry Dict) (l : list (Z * Dict)) (n : Native)
    (lst r : list SDL_Event) :
  active n = true ->
  registry_inv reg l ->
  Forall (fun ev => user_posted ev = true -> u_data2 (user ev) <> NULL)
         (queue n) ->
  drain_loop fuel b mask scan_types (queue n) = Some (lst, r) ->
  exists evs reg' l',
    event_get_loop Py_UNICODE_TOUPPER our_unichr Text_FromUTF8 fuel b mask e
                   reg n
    = Done (evs, reg', set_queue r n)
    /\ map e_type evs = map (sdl_to_pg b) lst
    /\ registry_inv reg' l'.
Proof.
  revert e reg l n lst r.
  induction fuel as [|fuel IH]; intros e reg l n lst r Ha Hinv Hok Hd;
    [discriminate|].
  cbn [event_get_loop drain_loop] in *. unfold PG_PeepEvents.
  rewrite PG_PeepEvents_loop_step by exact Ha. fold scan_types.
  destruct (first_hit b mask scan_types (queue n)) as [[ev rest]|] eqn:Eh.
  - change (1 =? 1) with true. cbv iota. cbn [hd].
    destruct (first_hit_split _ _ _ _ _ _ Eh) as (q1 & q2 & Eq & ->).
    rewrite Eq in Hok. apply Forall_app in Hok as [Hok1 Hok2].
    apply Forall_cons in Hok2 as [Hev Hok2].
    destruct (PyEvent_New_total ev reg l Hinv Hev)
      as (pe & reg1 & l1 & -> & Hty & Hinv1).
    destruct (drain_loop fuel b mask scan_types (q1 ++ q2))
      as [[lst' r']|] eqn:Ed; [|discriminate].
    injection Hd as <- <-.
    destruct (IH ev reg1 l1 (set_queue (q1 ++ q2) n) lst' r' Ha Hinv1)
      as (evs & reg' & l' & -> & Hm & Hinv').
    + cbn [queue set_queue]. apply Forall_app. split; assumption.
    + exact Ed.
    + eexists _, reg', l'. split; [reflexivity|].
      split; [cbn [map]; rewrite Hty, Hm; reflexivity | exact Hinv'].
  - change (0 =? 1) with false. cbv iota.
    injection Hd as <- <-. rewrite set_queue_same.
    eexists [], reg, l. split; [reflexivity|]. split; [reflexivity|exact Hinv].
Qed.

(** [event_get]'s loop removes the events of the drain and decodes them
    in that order: removal does not touch the user-object list, decoding
    does not touch the queue. *)
Lemma event_get_loop_decode (fuel : nat) (e : SDL_Event)
    (reg : Registry Dict) (n : Native) (lst r : list SDL_Event) :
  active n = true ->
  drain_loop fuel b mask scan_types (queue n) = Some (lst, r) ->
  event_get_loop Py_UNICODE_TOUPPER our_unichr Text_FromUTF8 fuel b mask e
                 reg n
  = match decode_each Py_UNICODE_TOUPPER our_unichr Text_FromUTF8 b lst reg
    with
    | Done (evs, reg') => Done (evs, reg', set_queue r n)
    | Fault => Fault
    | Spin => Spin
    end.
Proof.
  revert e reg n lst r.
  induction fuel as [|fuel IH]; intros e reg n lst r Ha Hd; [discriminate|].
  cbn [event_get_loop drain_loop] in *. unfold PG_PeepEvents.
  rewrite PG_PeepEvents_loop_step by exact Ha. fold scan_types.
  destruct (first_hit b mask scan_types (queue n)) as [[ev rest]|].
  - change (1 =? 1) with true. cbv iota. cbn [hd].
    destruct (drain_loop fuel b mask scan_types rest) as [[lst' r']|] eqn:Ed;
      [|discriminate].
    injection Hd as <- <-. cbn [decode_each].
    destruct (PyEvent_New Py_UNICODE_TOUPPER our_unichr Text_FromUTF8 b
                          (Some ev) reg) as [[pe reg1]| |]; try reflexivity.
    rewrite (IH ev reg1 (set_queue rest n) lst' r' Ha Ed).
    destruct (decode_each Py_UNICODE_TOUPPER our_unichr Text_FromUTF8 b lst'
                          reg1) as [[evs reg2]| |]; reflexivity.
  - change (0 =? 1) with false. cbv iota.
    injection Hd as <- <-. rewrite set_queue_same. reflexivity.
Qed.

(** Decoding a list of events succeeds as long as no sentinel-carrying
    record has a null handle; each event object is the decoding of its
    record: the type by [sdl_to_pg], and the generic mapping for a record
    that does not carry the sentinels. *)
Lemma decode_each_total (lst : list SDL_Event) (reg : Registry Dict)
    (l : list (Z * Dict)) :
  registry_inv reg l ->
  Forall (fun ev => user_posted ev = true -> u_data2 (user ev) <> NULL) lst ->
  exists evs reg' l',
    decode_each Py_UNICODE_TOUPPER our_unichr Text_FromUTF8 b lst reg
    = Done (evs, reg')
    /\ Forall2 (fun pe ev =>
                  e_type pe = sdl_to_pg b ev
                  /\ (user_posted ev = false ->
                      e_dict pe
                      = Some (generic_dict Py_UNICODE_TOUPPER our_unichr
                                           Text_FromUTF8 b ev)))
               evs lst
    /\ registry_inv reg' l'.
Proof.
  intros Hinv Hok. revert reg l Hinv.
  induction Hok as [|ev lst Hev _ IH]; intros reg l Hinv.
  - exists [], reg, l. split; [reflexivity|]. split; [constructor|exact Hinv].
  - destruct (PyEvent_New_total ev reg l Hinv Hev)
      as (pe & reg1 & l1 & Hn & Hty & Hinv1).
    destruct (IH reg1 l1 Hinv1) as (evs & reg' & l' & Hd & Hall & Hinv').
    exists (pe :: evs), reg', l'. cbn [decode_each]. rewrite Hn, Hd.
    split; [reflexivity|]. split; [|exact Hinv'].
    constructor; [|exact Hall]. split; [exact Hty|].
    intros Hu. unfold PyEvent_New, dict_from_event in Hn.
    fold (user_posted ev) in Hn. rewrite Hu in Hn.
    injection Hn as <- _. reflexivity.
Qed.

Lemma Forall_drain_order (P : SDL_Event -> Prop) (ts : list Z)
    (q : list SDL_Event) :
  Forall P q -> Forall P (drain_order b mask ts q).
Proof.
  assert (Hf : forall (f : SDL_Event -> bool) q,
             Forall P q -> Forall P (List.filter f q)).
  { intros f q0 H. induction H as [|x q0 Hx _ IH]; [constructor|].
    cbn [List.filter]. destruct (f x); [constructor|]; assumption. }
  revert q. induction ts as [|t ts IH]; intros q Hq; [constructor|].
  cbn [drain_order]. destruct (scans b mask t); [|apply IH, Hq].
  apply Forall_app. split; [apply Hf, Hq | apply IH, Hf, Hq].
Qed.

(** The scan never looks at bit 0 of the mask. *)
Lemma PG_PeepEvents_loop_mask (mask' : Z) (k : nat)
    (events : list SDL_Event) (numevents action ty tally : Z) (n : Native) :
  (forall t, 1 <= t -> Z.testbit mask' t = Z.testbit mask t) ->
  1 <= ty ->
  PG_PeepEvents_loop k b events numevents action mask' ty tally n
  = PG_PeepEvents_loop k b events numevents action mask ty tally n.
Proof.
  intros Hm. revert events ty tally n.
  induction k as [|k IH]; intros events ty tally n Hty; [reflexivity|].
  cbn [PG_PeepEvents_loop]. rewrite (Hm ty Hty).
  destruct (tally <? numevents); [|reflexivity].
  destruct (Z.testbit mask ty); [|apply IH; lia].
  destruct (if negb (pg_type_to_sdl b ty =? PGE_NON_SDL_EVENT)
            then SDL_PeepEvents events numevents action
                   (pg_type_to_sdl b ty) (pg_type_to_sdl b ty) n
            else (0, events, n)) as [[cnt events'] n'].
  destruct (cnt =? -1); [reflexivity | apply IH; lia].
Qed.

End DrainCode.

Section DrainOrderTheorem.
Context {K : PgeEnum}.
Variable Py_UNICODE_TOUPPER : Z -> Z.
Variable our_unichr : Z -> option PyObject.
Variable Text_FromUTF8 : Z -> option PyObject.

(** C10 (amended).  [get] and [clear] hand out the queue type by type, in
    ascending order of the scanned logical types 1 .. PGE_NUMEVENTS - 1:
    for each masked type with a native code, every queued event bearing
    that native code, in arrival order ([drain_order]); events of a native
    code shared by several logical types all leave at the lowest such
    type, whatever logical type they decode to.  What [get] returns is
    that sequence decoded event by event: the k-th object returned is the
    decoding of the k-th record of the sequence, with its logical type
    and, for a record not posted by the user, its generic mapping.  What
    no scanned type claims stays queued ([drain_rest]).  Bit 0 of the mask
    is never looked at. *)
Theorem C10_drain_order_amended (uninit : SDL_Event) (args : list TypeArg)
    (mask : Z) (s : Module) (l : list (Z * Dict)) :
  video_init (native s) = true ->
  active (native s) = true ->
  filter_mask args = Return mask ->
  registry_inv (registry s) l ->
  Forall (fun ev => user_posted ev = true -> u_data2 (user ev) <> NULL)
         (queue (SDL_PumpEvents (native s))) ->
  let q := queue (SDL_PumpEvents (native s)) in
  (exists evs reg' l',
      decode_each Py_UNICODE_TOUPPER our_unichr Text_FromUTF8 (band s)
                  (drain_order (band s) mask scan_types q) (registry s)
      = Done (evs, reg')
      /\ event_get Py_UNICODE_TOUPPER our_unichr Text_FromUTF8 uninit args s
         = Done (Return evs,
                 set_registry reg'
                   (set_native
                      (set_queue (drain_rest (band s) mask scan_types q)
                                 (SDL_PumpEvents (native s))) s))
      /\ Forall2 (fun pe ev =>
                    e_type pe = sdl_to_pg (band s) ev
                    /\ (user_posted ev = false ->
                        e_dict pe
                        = Some (generic_dict Py_UNICODE_TOUPPER our_unichr
                                             Text_FromUTF8 (band s) ev)))
                 evs (drain_order (band s) mask scan_types q)
      /\ map e_type evs
         = map (sdl_to_pg (band s)) (drain_order (band s) mask scan_types q)
      /\ registry_inv reg' l')
  /\ (exists s',
         event_clear uninit args s = Done (Return tt, s')
         /\ queue (native s') = drain_rest (band s) mask scan_types q)
  /\ (forall mask' events numevents action n,
         (forall t, 1 <= t -> Z.testbit mask' t = Z.testbit mask t) ->
         PG_PeepEvents (band s) events numevents action mask' n
         = PG_PeepEvents (band s) events numevents action mask n).
Proof.
  intros Hv Ha Hmask Hinv Hok q.
  assert (Hpa : active (SDL_PumpEvents (native s)) = true) by exact Ha.
  pose proof (drain_loop_spec (band s) mask scan_types q (S (length q))
                ltac:(lia)) as Hd.
  assert (Hargs : match args with [] | [_] => True | _ => False end).
  { destruct args as [|a [|a' args]]; try exact I.
    cbn in Hmask. destruct a; discriminate. }
  split; [|split].
  - destruct (decode_each_total Py_UNICODE_TOUPPER our_unichr Text_FromUTF8
                (band s) (drain_order (band s) mask scan_types q)
                (registry s) l Hinv
                (Forall_drain_order (band s) mask _ scan_types q Hok))
      as (evs & reg' & l' & Hde & Hall & Hinv').
    exists evs, reg', l'. split; [exact Hde|]. split.
    { pose proof (event_get_loop_decode Py_UNICODE_TOUPPER our_unichr
                    Text_FromUTF8 (band s) mask (S (length q)) uninit
                    (registry s) (SDL_PumpEvents (native s)) _ _ Hpa Hd)
        as Hg.
      rewrite Hde in Hg.
      unfold event_get, video_init_check. rewrite Hv, Hmask. cbn [negb].
      fold q in Hg |- *.
      destruct args as [|a [|a' args]]; [| |contradiction];
        rewrite Hg; reflexivity. }
    split; [exact Hall|]. split; [|exact Hinv'].
    clear -Hall. induction Hall as [|pe ev evs lst [Hty _] _ IH];
      [reflexivity|].
    cbn [map]. rewrite Hty, IH. reflexivity.
  - eexists. split.
    + unfold event_clear, video_init_check. rewrite Hv, Hmask. cbn [negb].
      rewrite event_clear_loop_drain by exact Hpa.
      fold q. rewrite Hd.
      destruct args as [|a [|a' args]]; [| |contradiction]; reflexivity.
    + reflexivity.
  - intros mask' events numevents action n Hm. unfold PG_PeepEvents.
    apply PG_PeepEvents_loop_mask; [exact Hm | lia].
Qed.

End DrainOrderTheorem.

(** C10 (as stated, refuted).  With three window events queued, "enter",
    "resized", "enter", [get] returns them in arrival order: active-state
    (logical type 1), resize (16), active-state (1).  All three bear the
    window code, which is scanned at logical type 1; the decoded logical
    types are neither ascending nor grouped. *)
Lemma C10_get_order_counterexample :
  ~ (forall (uninit : SDL_Event) (args : list TypeArg) (s : Module)
            (evs : list PyEventObject) (s' : Module),
        event_get (K := sdl12_enum) toupper_ascii unichr_bmp text_none
                  uninit args s = Done (Return evs, s') ->
        StronglySorted Z.le (map e_type evs)).
Proof.
  intros H.
  set (s := module_with_queue [window_event SDL_WINDOWEVENT_ENTER;
                               window_event SDL_WINDOWEVENT_RESIZED;
                               window_event SDL_WINDOWEVENT_ENTER]).
  assert (E : exists evs s',
             event_get (K := sdl12_enum) toupper_ascii unichr_bmp text_none
                       zero_event [] s = Done (Return evs, s')
             /\ map e_type evs = [1; 16; 1]).
  { vm_compute. eexists _, _. split; reflexivity. }
  destruct E as (evs & s' & E & Ht).
  specialize (H _ _ _ _ _ E). rewrite Ht in H.
  apply StronglySorted_inv in H as [H _].
  apply StronglySorted_inv in H as [_ H].
  apply Forall_cons in H as [H _]. lia.
Qed.

Lemma C10_drain_order_witness :
  let K := sdl12_enum in
  let s := module_with_queue [keydown_event 0 0;
                              window_event SDL_WINDOWEVENT_RESIZED;
                              window_event SDL_WINDOWEVENT_ENTER] in
  let q := queue (SDL_PumpEvents (native s)) in
  exists evs reg' l',
    decode_each toupper_ascii unichr_bmp text_none (band s)
                (drain_order (band s) PGE_ALLEVENTS scan_types q)
                (registry s)
    = Done (evs, reg')
    /\ event_get toupper_ascii unichr_bmp text_none zero_event [] s
       = Done (Return evs,
               set_registry reg'
                 (set_native
                    (set_queue
                       (drain_rest (band s) PGE_ALLEVENTS scan_types q)
                       (SDL_PumpEvents (native s))) s))
    /\ Forall2 (fun pe ev =>
                  e_type pe = sdl_to_pg (band s) ev
                  /\ (user_posted ev = false ->
                      e_dict pe
                      = Some (generic_dict toupper_ascii unichr_bmp text_none
                                           (band s) ev)))
               evs (drain_order (band s) PGE_ALLEVENTS scan_types q)
    /\ map e_type evs
       = map (sdl_to_pg (band s))
             (drain_order (band s) PGE_ALLEVENTS scan_types q)
    /\ registry_inv reg' l'.
Proof.
  intros K s q.
  apply (proj1 (C10_drain_order_amended (K := sdl12_enum) toupper_ascii
                  unichr_bmp text_none zero_event [] PGE_ALLEVENTS s []
                  eq_refl eq_refl eq_refl registry_init_inv
                  ltac:(repeat constructor; intros Hu; vm_compute in Hu;
                        discriminate Hu))).
Defined.

(** * Further properties of the code *)

(** ** The user-object list: round trips *)

Section RegistryRoundTrips.
Context {Obj : Type}.
Implicit Types (st : Registry Obj) (l : list (Z * Obj)).

Lemma filter_other_handles l h :
  h ∉ l.*1 -> List.filter (fun p : Z * Obj => negb (fst p =? h)) l = l.
Proof.
  induction l as [|[a x] l IH]; [reflexivity|].
  cbn [fmap list_fmap List.filter fst]. rewrite not_elem_of_cons.
  intros [Hne Hni]. cbn [fst].
  destruct (Z.eqb_spec a h) as [->|_]; [contradiction|].
  cbn [negb]. f_equal. apply IH, Hni.
Qed.

Lemma filter_this_handle l1 l2 h x :
  NoDup ((l1 ++ (h, x) :: l2).*1) ->
  List.filter (fun p : Z * Obj => negb (fst p =? h)) (l1 ++ (h, x) :: l2)
  = l1 ++ l2.
Proof.
  rewrite fmap_app, fmap_cons. cbn [fst].
  intros Hnd. apply NoDup_app in Hnd as (_ & H1 & Hnd).
  apply NoDup_cons in Hnd as [H2 _].
  rewrite List.filter_app. cbn [List.filter fst]. rewrite Z.eqb_refl.
  cbn [negb]. rewrite !filter_other_handles; [reflexivity|exact H2|].
  intros Hin. apply (H1 h Hin). left.
Qed.

(** The node registered last is at the head: retrieving it unlinks and
    frees it. *)
Lemma user_event_getobject_head st a x :
  a <> NULL -> mem st !! a = None ->
  user_event_getobject a (snd (user_event_addobject a x st))
  = Done (Some x, st).
Proof.
  intros Ha Hfree. unfold user_event_addobject.
  destruct (Z.eqb_spec a NULL) as [E|_]; [contradiction|].
  cbn [snd]. unfold user_event_getobject. cbn [user_event_objects mem].
  destruct (Z.eqb_spec a NULL) as [E|_]; [contradiction|].
  rewrite Z.eqb_refl, lookup_insert_eq. cbn [object next].
  rewrite delete_insert_eq, delete_id by exact Hfree.
  destruct st; reflexivity.
Qed.

(** X1.  Registering a payload and retrieving it through the handle just
    handed out gives the payload back and leaves the list and the heap
    exactly as they were before the registration. *)
Theorem X1_register_then_retrieve st a x :
  a <> NULL -> mem st !! a = None ->
  fst (user_event_addobject a x st) = a
  /\ user_event_getobject a (snd (user_event_addobject a x st))
     = Done (Some x, st).
Proof.
  intros Ha Hfree. split; [|exact (user_event_getobject_head st a x Ha Hfree)].
  unfold user_event_addobject.
  destruct (Z.eqb_spec a NULL) as [E|_]; [contradiction | reflexivity].
Qed.

(** Retrieval frees at most the node of the handle: every other address
    is allocated afterwards exactly when it was before. *)
Lemma user_event_getobject_heap st h (r : option Obj) st' :
  user_event_getobject h st = Done (r, st') ->
  forall a, a <> h -> is_Some (mem st' !! a) <-> is_Some (mem st !! a).
Proof.
  unfold user_event_getobject. intros H a Ha.
  destruct (user_event_objects st =? NULL); [injection H as _ <-; tauto|].
  destruct (user_event_objects st =? h).
  { destruct (mem st !! h) as [n|]; [|discriminate H].
    injection H as _ <-. cbn [mem]. rewrite lookup_delete_ne by congruence.
    tauto. }
  destruct (hunt_loop _ _ _ _) as [hunt| |]; try discriminate H.
  destruct (hunt =? NULL); [injection H as _ <-; tauto|].
  destruct (mem st !! hunt) as [hn|] eqn:Eh; [|discriminate H].
  destruct (mem st !! h) as [n|]; [|discriminate H].
  injection H as _ <-. cbn [mem]. rewrite lookup_delete_ne by congruence.
  destruct (decide (a = hunt)) as [->|Hne].
  - rewrite lookup_insert_eq, Eh. split; intros _; eexists; reflexivity.
  - rewrite lookup_insert_ne by congruence. tauto.
Qed.

(** X2.  Retrieval through any non-null handle finishes without a fault:
    it hands out the payload registered under the handle, or NULL when
    there is none.  The node of a registered handle is unlinked from the
    list and freed (its address is no longer allocated); no other node is
    freed and the others keep their order; for a handle that is not
    registered nothing changes.  A second retrieval through the same
    handle answers NULL and changes nothing. *)
Theorem X2_retrieve_transfers_once st l h :
  registry_inv st l -> h <> NULL ->
  exists st',
    user_event_getobject h st
    = Done ((list_to_map l : gmap Z Obj) !! h, st')
    /\ registry_inv st' (List.filter (fun p => negb (fst p =? h)) l)
    /\ (h ∈ l.*1 -> mem st' !! h = None)
    /\ (h ∉ l.*1 -> st' = st)
    /\ (forall a, a <> h ->
                  is_Some (mem st' !! a) <-> is_Some (mem st !! a))
    /\ user_event_getobject h st' = Done (None, st').
Proof.
  intros Hinv Hh. destruct (decide (h ∈ l.*1)) as [Hin|Hni].
  - pose proof Hin as Hin0.
    apply list_elem_of_fmap in Hin as ([h' x] & Eh & Hin). cbn in Eh.
    subst h'. pose proof Hinv as (_ & Hnd & _).
    rewrite (elem_of_list_to_map_1 l h x Hnd Hin).
    apply list_elem_of_split in Hin as (l1 & l2 & ->).
    destruct (user_event_getobject_found st l1 h x l2 Hinv)
      as (st' & Hg & Hinv' & Hfree).
    exists st'. rewrite (filter_this_handle l1 l2 h x Hnd).
    split; [exact Hg|]. split; [exact Hinv'|].
    split; [intros _; exact Hfree|].
    split; [intros Hni; destruct (Hni Hin0)|].
    split; [exact (user_event_getobject_heap st h _ st' Hg)|].
    apply (user_event_getobject_absent st' (l1 ++ l2)); [exact Hinv'| |exact Hh].
    rewrite fmap_app, fmap_cons in Hnd. cbn [fst] in Hnd.
    apply NoDup_app in Hnd as (_ & H1 & Hnd).
    apply NoDup_cons in Hnd as [H2 _].
    rewrite fmap_app, elem_of_app. intros [Hin|Hin]; [|exact (H2 Hin)].
    apply (H1 h Hin). left.
  - exists st. rewrite (not_elem_of_list_to_map_1 l h Hni).
    rewrite (filter_other_handles l h Hni).
    pose proof (user_event_getobject_absent st l h Hinv Hni Hh) as Hg.
    split; [exact Hg|]. split; [exact Hinv|].
    split; [intros Hin; destruct (Hni Hin)|].
    split; [reflexivity|]. split; [tauto | exact Hg].
Qed.

(** X3.  Cleanup hands every payload still registered to the release, once
    and in list order, frees the nodes and empties the list; after it a
    second cleanup releases nothing and every retrieval answers NULL. *)
Theorem X3_cleanup_releases_each_once st l :
  registry_inv st l ->
  exists st',
    user_event_cleanup st = Done (l.*2, st')
    /\ user_event_objects st' = NULL
    /\ (forall a, a ∈ l.*1 -> mem st' !! a = None)
    /\ user_event_cleanup st' = Done ([], st')
    /\ (forall h, user_event_getobject h st' = Done (None, st')).
Proof.
  intros Hinv.
  destruct (user_event_cleanup_spec st l Hinv) as (st' & Hc & Hinv' & Hfree).
  exists st'. pose proof Hinv' as (Hseg & _). cbn [lseg] in Hseg.
  split; [exact Hc|]. split; [exact Hseg|]. split; [exact Hfree|].
  split.
  - unfold user_event_cleanup. rewrite Hseg. reflexivity.
  - intros h. apply user_event_getobject_empty, Hinv'.
Qed.

End RegistryRoundTrips.

Lemma X1_register_then_retrieve_witness :
  fst (user_event_addobject 1 (PyInt 7) registry_init) = 1
  /\ user_event_getobject 1 (snd (user_event_addobject 1 (PyInt 7) registry_init))
     = Done (Some (PyInt 7), registry_init).
Proof.
  apply (X1_register_then_retrieve registry_init 1 (PyInt 7)).
  - discriminate.
  - reflexivity.
Defined.

Lemma two_nodes_inv :
  registry_inv
    (snd (user_event_addobject 2 (PyInt 8)
            (snd (user_event_addobject 1 (PyInt 7) registry_init))))
    [(2, PyInt 8); (1, PyInt 7)].
Proof.
  apply user_event_addobject_inv; [|discriminate|reflexivity].
  apply user_event_addobject_inv; [|discriminate|reflexivity].
  apply registry_init_inv.
Qed.

Lemma X2_retrieve_transfers_once_witness :
  let st := snd (user_event_addobject 2 (PyInt 8)
                   (snd (user_event_addobject 1 (PyInt 7) registry_init))) in
  exists st',
    user_event_getobject 1 st = Done (Some (PyInt 7), st')
    /\ registry_inv st' [(2, PyInt 8)]
    /\ (1 ∈ [2; 1] -> mem st' !! 1 = None)
    /\ (1 ∉ [2; 1] -> st' = st)
    /\ (forall a, a <> 1 ->
                  is_Some (mem st' !! a) <-> is_Some (mem st !! a))
    /\ user_event_getobject 1 st' = Done (None, st').
Proof.
  intros st.
  exact (X2_retrieve_transfers_once st [(2, PyInt 8); (1, PyInt 7)] 1
           two_nodes_inv ltac:(discriminate)).
Defined.

Lemma X3_cleanup_releases_each_once_witness :
  let st := snd (user_event_addobject 2 (PyInt 8)
                   (snd (user_event_addobject 1 (PyInt 7) registry_init))) in
  exists st',
    user_event_cleanup st = Done ([PyInt 8; PyInt 7], st')
    /\ user_event_objects st' = NULL
    /\ (forall a, a ∈ [2; 1] -> mem st' !! a = None)
    /\ user_event_cleanup st' = Done ([], st')
    /\ (forall h, user_event_getobject h st' = Done (None, st')).
Proof.
  intros st.
  exact (X3_cleanup_releases_each_once st [(2, PyInt 8); (1, PyInt 7)]
           two_nodes_inv).
Defined.

(** ** Key repeat: what the two loops drop and return *)

Lemma repeat_filter_drops_repeats (r : KeyRepeat) (e : SDL_Event) :
  repeat_filter r e = None -> key_repeat_event e = true.
Proof.
  unfold repeat_filter, key_repeat_event.
  destruct (type e =? SDL_KEYDOWN); [|discriminate].
  destruct (k_repeat (key e) =? 0); cbn [negb andb]; [|reflexivity].
  destruct (repeat_enabled r); discriminate.
Qed.

Lemma key_repeat_pollable (e : SDL_Event) :
  key_repeat_event e = true -> pollable e = true.
Proof.
  unfold key_repeat_event, pollable. intros H.
  apply andb_true_iff in H as [H _]. apply Z.eqb_eq in H. rewrite H.
  reflexivity.
Qed.

Lemma repeat_filter_disabled (r : KeyRepeat) (e : SDL_Event) :
  repeat_enabled r = false ->
  repeat_filter r e = if key_repeat_event e then None else Some r.
Proof.
  intros Hd. unfold repeat_filter, key_repeat_event. rewrite Hd.
  destruct (type e =? SDL_KEYDOWN); [|reflexivity].
  destruct (k_repeat (key e) =? 0); reflexivity.
Qed.

Lemma last_cons_default {A : Type} (x : A) (l : list A) (d d' : A) :
  List.last (x :: l) d = List.last (x :: l) d'.
Proof.
  revert x. induction l as [|y l IH]; intros x; [reflexivity|].
  change (List.last (y :: l) d = List.last (y :: l) d'). apply IH.
Qed.

Lemma last_cons {A : Type} (x : A) (l : list A) (d : A) :
  List.last (x :: l) d = List.last l x.
Proof.
  destruct l as [|y l]; [reflexivity|].
  change (List.last (x :: y :: l) d) with (List.last (y :: l) d).
  apply last_cons_default.
Qed.

(** [Py_PollEvent] is the loop of the source over the native poll: a
    call of [SDL_PollEvent] is [peep_scan] for one event of a code in
    [SDL_FIRSTEVENT, SDL_LASTEVENT]. *)
Lemma Py_PollEvent_step (r : KeyRepeat) (q : list SDL_Event) (e : SDL_Event) :
  Py_PollEvent r q e
  = match peep_scan 1 SDL_FIRSTEVENT SDL_LASTEVENT q with
    | (ev :: _, rest) =>
        match repeat_filter r ev with
        | None => Py_PollEvent r rest ev
        | Some r' => (1, ev, r', rest)
        end
    | ([], _) => (0, e, r, q)
    end.
Proof.
  induction q as [|d q IH]; [reflexivity|].
  cbn [Py_PollEvent peep_scan]. fold (pollable d).
  destruct (pollable d) eqn:Ep.
  - rewrite peep_scan_zero. reflexivity.
  - rewrite IH.
    destruct (peep_scan 1 SDL_FIRSTEVENT SDL_LASTEVENT q)
      as [[|ev taken] rest]; [reflexivity|].
    destruct (repeat_filter r ev) as [r'|]; [reflexivity|].
    cbn [Py_PollEvent]. rewrite Ep. reflexivity.
Qed.

(** Events the poll passes over or drops, ahead of the rest of the
    queue. *)
Lemma Py_PollEvent_passed (r : KeyRepeat) (passed q : list SDL_Event)
    (e : SDL_Event) :
  Forall (fun d => pollable d = false \/ repeat_filter r d = None) passed ->
  Py_PollEvent r (passed ++ q) e
  = let '(rc, e', r', rest) :=
      Py_PollEvent r q (List.last (List.filter pollable passed) e) in
    (rc, e', r', List.filter (fun d => negb (pollable d)) passed ++ rest).
Proof.
  intros Hp. revert e. induction Hp as [|d passed Hd _ IH]; intros e.
  - cbn [app List.filter List.last].
    destruct (Py_PollEvent r q e) as [[[rc e'] r'] rest]. reflexivity.
  - cbn [app Py_PollEvent List.filter].
    destruct (pollable d) eqn:Ep; cbn [negb].
    + destruct Hd as [Hd|Hd]; [discriminate Hd|]. rewrite Hd, IH, last_cons.
      reflexivity.
    + rewrite IH.
      destruct (Py_PollEvent r q (List.last (List.filter pollable passed) e))
        as [[[rc e'] r'] rest].
      reflexivity.
Qed.

(** X4.  [Py_PollEvent] loses nothing but held-back key repeats.  The
    events it goes through before it ends are of two kinds: events of a
    code outside [SDL_FIRSTEVENT, SDL_LASTEVENT], which the native poll
    passes over and which stay queued, and repeat keydowns the timer
    refuses, which are dropped.  After them comes the event returned with
    code 1, the first event of a code in range that the filter lets
    through, and the events left queued; the tracking state is touched by
    the returned event only.  It answers 0 only after going through the
    whole queue, and then [*e] holds the last event dropped. *)
Theorem X4_poll_drops_only_repeats (r : KeyRepeat) (q : list SDL_Event)
    (e : SDL_Event) :
  exists passed,
    Forall (fun d => pollable d = false
                     \/ (key_repeat_event d = true
                         /\ repeat_filter r d = None))
           passed
    /\ ((exists ev r' q',
            Py_PollEvent r q e
            = (1, ev, r',
               List.filter (fun d => negb (pollable d)) passed ++ q')
            /\ q = passed ++ ev :: q'
            /\ pollable ev = true
            /\ repeat_filter r ev = Some r')
        \/ (Py_PollEvent r q e
            = (0, List.last (List.filter pollable passed) e, r,
               List.filter (fun d => negb (pollable d)) passed)
            /\ q = passed)).
Proof.
  revert e. induction q as [|d q IH]; intros e.
  - exists []. split; [constructor|]. right. split; reflexivity.
  - cbn [Py_PollEvent]. destruct (pollable d) eqn:Ep.
    + destruct (repeat_filter r d) as [r'|] eqn:Ef.
      * exists []. split; [constructor|]. left. exists d, r', q.
        repeat split; assumption.
      * destruct (IH d) as (passed & Hall & Hcase).
        exists (d :: passed). split.
        { constructor; [|exact Hall]. right.
          split; [exact (repeat_filter_drops_repeats r d Ef) | exact Ef]. }
        cbn [List.filter]. rewrite Ep. cbn [negb]. rewrite last_cons.
        destruct Hcase as [(ev & r' & q' & Hp & Hq & Hev & Hf) | (Hp & Hq)].
        -- left. exists ev, r', q'. rewrite Hp, Hq. auto.
        -- right. rewrite Hp, Hq. split; reflexivity.
    + destruct (IH e) as (passed & Hall & Hcase).
      exists (d :: passed). split.
      { constructor; [left; exact Ep | exact Hall]. }
      cbn [List.filter]. rewrite Ep. cbn [negb].
      destruct Hcase as [(ev & r' & q' & Hp & Hq & Hev & Hf) | (Hp & Hq)].
      * left. exists ev, r', q'. rewrite Hp, Hq. auto.
      * right. rewrite Hp, Hq. split; reflexivity.
Qed.

Lemma poll_disabled_step (r : KeyRepeat) (q : list SDL_Event)
    (e : SDL_Event) :
  repeat_enabled r = false ->
  match List.filter (fun ev => pollable ev && negb (key_repeat_event ev)) q
  with
  | [] => exists e' q', Py_PollEvent r q e = (0, e', r, q')
  | ev :: l =>
      exists q',
        Py_PollEvent r q e = (1, ev, r, q')
        /\ List.filter (fun ev => pollable ev && negb (key_repeat_event ev)) q'
           = l
        /\ (length q' < length q)%nat
  end.
Proof.
  intros Hd. revert e. induction q as [|d q IH]; intros e.
  - exists e, []. reflexivity.
  - cbn [Py_PollEvent List.filter]. destruct (pollable d) eqn:Ep; cbn [andb].
    + rewrite (repeat_filter_disabled r d Hd).
      destruct (key_repeat_event d); cbn [negb].
      * specialize (IH d).
        destruct (List.filter _ q) as [|ev l]; [exact IH|].
        destruct IH as (q' & Hp & Hf & Hl). exists q'.
        split; [exact Hp|]. split; [exact Hf|]. cbn [length]. lia.
      * exists q. split; [reflexivity|]. split; [reflexivity|].
        cbn [length]. lia.
    + specialize (IH e).
      destruct (List.filter _ q) as [|ev l].
      * destruct IH as (e' & q' & ->). exists e', (d :: q'). reflexivity.
      * destruct IH as (q' & -> & Hf & Hl). exists (d :: q').
        split; [reflexivity|]. split.
        -- cbn [List.filter]. rewrite Ep. exact Hf.
        -- cbn [length]. lia.
Qed.

(** X5.  With key repeat disabled (delay and interval both 0) every repeat
    keydown is dropped and nothing else is: successive calls of
    [Py_PollEvent] return exactly the events of a code in
    [SDL_FIRSTEVENT, SDL_LASTEVENT] that are not repeat keydowns, in queue
    order. *)
Theorem X5_poll_repeat_disabled (r : KeyRepeat) (q : list SDL_Event)
    (calls : nat) :
  repeat_enabled r = false ->
  (length q < calls)%nat ->
  poll_trace calls r q
  = List.filter (fun ev => pollable ev && negb (key_repeat_event ev)) q.
Proof.
  intros Hd. revert q.
  induction calls as [|calls IH]; intros q Hlen; [lia|].
  cbn [poll_trace]. pose proof (poll_disabled_step r q zero_event Hd) as Hp.
  destruct (List.filter _ q) as [|ev l].
  - destruct Hp as (e' & q' & ->). reflexivity.
  - destruct Hp as (q' & -> & <- & Hl).
    change (1 =? 0) with false. cbv iota. f_equal. apply IH. lia.
Qed.

Lemma X5_poll_repeat_disabled_witness :
  poll_trace 5 (mkRepeat 0 0 0 0)
             [keydown_event 5 1; set_type 70000 zero_event;
              keydown_event 6 0; keydown_event 7 1]
  = List.filter (fun ev => pollable ev && negb (key_repeat_event ev))
                [keydown_event 5 1; set_type 70000 zero_event;
                 keydown_event 6 0; keydown_event 7 1].
Proof.
  apply (X5_poll_repeat_disabled (mkRepeat 0 0 0 0)
           [keydown_event 5 1; set_type 70000 zero_event;
            keydown_event 6 0; keydown_event 7 1] 5).
  - reflexivity.
  - cbn [length]. lia.
Defined.

Lemma Py_WaitEvent_loop_dropped (r : KeyRepeat) (e : SDL_Event) (k : nat)
    (tail : list wait_result) :
  repeat_filter r e = None ->
  Py_WaitEvent_loop r (replicate k WaitError ++ tail) e
  = Py_WaitEvent_loop r tail e.
Proof.
  intros Hf. induction k as [|k IH]; [reflexivity|].
  cbn [replicate app Py_WaitEvent_loop]. rewrite Hf. exact IH.
Qed.

(** X6.  How [Py_WaitEvent] treats the answers of the native wait.  A
    successful answer ends the call with code -1, the event delivered and
    the tracking state as it was, whatever the event is.  An error answer
    runs the repeat filter on the record [*e] held before the call: if the
    filter lets it through, the call ends with code 0, [*e] untouched and
    the tracking state the filter computed; if the filter drops it, the
    error is swallowed and the wait is repeated. *)
Theorem X6_wait_answers (r : KeyRepeat) (e ev : SDL_Event) (k : nat)
    (rest : list wait_result) :
  Py_WaitEvent r (replicate k WaitError ++ WaitOk ev :: rest) e
  = match k, repeat_filter r e with
    | S k', Some r' =>
        Some (0, e,
              mkRepeat (delay r) (interval r) (firsttime r') (r_timestamp r'),
              replicate k' WaitError ++ WaitOk ev :: rest)
    | _, _ => Some (-1, ev, r, rest)
    end.
Proof.
  unfold Py_WaitEvent. destruct (repeat_filter r e) as [r'|] eqn:Ef.
  - destruct k as [|k]; cbn [replicate app Py_WaitEvent_loop].
    + destruct r; reflexivity.
    + rewrite Ef. reflexivity.
  - rewrite (Py_WaitEvent_loop_dropped r e k _ Ef).
    cbn [Py_WaitEvent_loop]. destruct r, k; reflexivity.
Qed.

(** ** Translation and decoding: round trips *)

Lemma land_bit_eqb (v k : Z) :
  0 <= k -> (Z.land v (2 ^ k) =? 0) = negb (Z.testbit v k).
Proof.
  intros Hk. destruct (Z.testbit v k) eqn:E; cbn [negb].
  - apply Z.eqb_neq. intros H.
    assert (Hb : Z.testbit (Z.land v (2 ^ k)) k = true)
      by (rewrite Z.land_spec, E, Z.pow2_bits_true by lia; reflexivity).
    rewrite H, Z.bits_0 in Hb. discriminate.
  - apply Z.eqb_eq, Z.bits_inj'. intros n Hn.
    rewrite Z.land_spec, Z.bits_0, Z.pow2_bits_eqb by lia.
    destruct (Z.eqb_spec k n) as [<-|_];
      [rewrite E; reflexivity | apply andb_false_r].
Qed.

Section NativeRoundtrip.
Context {K : PgeEnum}.
Hypothesis wf : pge_wf.
Variable Py_UNICODE_TOUPPER : Z -> Z.
Variable our_unichr : Z -> option PyObject.
Variable Text_FromUTF8 : Z -> option PyObject.

(** The "other" type and the no-op type have no native code. *)
Lemma pg_type_to_sdl_other (b : UserBand) :
  pg_type_to_sdl b PGE_OTHEREVENT = PGE_NON_SDL_EVENT.
Proof.
  assert (Hlt : (PGE_USEREVENT <=? PGE_OTHEREVENT) = false).
  { pose proof (wf_builtin wf) as HB.
    apply Forall_cons in HB as [_ HB]. apply Forall_cons in HB as [HB _].
    apply Z.leb_gt. lia. }
  pose proof (wf_nodup wf) as HN.
  apply NoDup_cons in HN as [_ HN]. apply NoDup_cons in HN as [HO _].
  unfold builtin_types in HO.
  repeat (apply not_elem_of_cons in HO as [? HO]).
  unfold pg_type_to_sdl. eqb_steps. rewrite Hlt. reflexivity.
Qed.

(** X7.  Native code to logical type and back.  For an event bearing one
    of the thirteen native codes the translation knows, the native code of
    its logical type is the code the event bears, unless the event
    classifies as "other" (a window event with a sub-event code the
    classification does not know): the "other" type has no native code. *)
Theorem X7_native_roundtrip (b : UserBand) (e : SDL_Event) :
  type e ∈ [SDL_WINDOWEVENT; SDL_KEYDOWN; SDL_KEYUP; SDL_MOUSEMOTION;
            SDL_MOUSEBUTTONDOWN; SDL_MOUSEBUTTONUP; SDL_JOYAXISMOTION;
            SDL_JOYBALLMOTION; SDL_JOYHATMOTION; SDL_JOYBUTTONDOWN;
            SDL_JOYBUTTONUP; SDL_QUIT; SDL_SYSWMEVENT] ->
  pg_type_to_sdl b (sdl_to_pg b e)
  = if sdl_to_pg b e =? PGE_OTHEREVENT then PGE_NON_SDL_EVENT else type e.
Proof.
  intros Ht.
  pose proof (pg_type_to_sdl_builtin wf b) as HC.
  pose proof (pg_type_to_sdl_other b) as HOt.
  pose proof (wf_nodup wf) as HN. unfold builtin_types in HN, HC.
  cbn [map] in HC.
  injection HC as C1 C2 C3 C4 C5 C6 C7 C8 C9 C10 C11 C12 C13 C14 C15.
  apply NoDup_cons in HN as [_ HN]. apply NoDup_cons in HN as [HO _].
  repeat rewrite not_elem_of_cons in HO.
  apply elem_of_cons in Ht as [Ht|Ht].
  { rewrite (sdl_to_pg_window b e Ht), Ht.
    destruct (active_sub (w_event (window e))).
    { destruct (Z.eqb_spec PGE_ACTIVEEVENT PGE_OTHEREVENT) as [E|_]; [|exact C1].
      exfalso; symmetry in E; tauto. }
    destruct (w_event (window e) =? SDL_WINDOWEVENT_RESIZED).
    { destruct (Z.eqb_spec PGE_VIDEORESIZE PGE_OTHEREVENT) as [E|_]; [|exact C3].
      exfalso; symmetry in E; tauto. }
    destruct (w_event (window e) =? SDL_WINDOWEVENT_EXPOSED).
    { destruct (Z.eqb_spec PGE_VIDEOEXPOSE PGE_OTHEREVENT) as [E|_]; [|exact C2].
      exfalso; symmetry in E; tauto. }
    rewrite Z.eqb_refl. exact HOt. }
  repeat (apply elem_of_cons in Ht as [Ht|Ht];
          [unfold sdl_to_pg; rewrite Ht;
           cbv [SDL_QUIT SDL_WINDOWEVENT SDL_SYSWMEVENT SDL_KEYDOWN SDL_KEYUP
                SDL_MOUSEMOTION SDL_MOUSEBUTTONDOWN SDL_MOUSEBUTTONUP
                SDL_JOYAXISMOTION SDL_JOYBALLMOTION SDL_JOYHATMOTION
                SDL_JOYBUTTONDOWN SDL_JOYBUTTONUP];
           cbn [Z.eqb Pos.eqb]; cbv iota;
           match goal with
           | |- context [?T =? PGE_OTHEREVENT] =>
               destruct (Z.eqb_spec T PGE_OTHEREVENT) as [E|_];
               [exfalso; symmetry in E; tauto | assumption]
           end|]).
  apply elem_of_nil in Ht. contradiction.
Qed.

(** X8.  The native code of an "other" event survives decoding: an event
    that classifies as "other" and was not posted by the user decodes to
    an event object of the "other" type, without touching the user-object
    list, and [pg_to_sdl] recovers the native code from the object's
    mapping, provided the code does not exceed the upper end of the user
    band and fits an [int]. *)
Theorem X8_other_event_stash (b : UserBand) (ev : SDL_Event)
    (reg : Registry Dict) :
  sdl_to_pg b ev = PGE_OTHEREVENT ->
  user_posted ev = false ->
  0 <= type ev < 2 ^ 31 -> type ev <= last_user_event b ->
  exists pe,
    PyEvent_New Py_UNICODE_TOUPPER our_unichr Text_FromUTF8 b (Some ev) reg
    = Done (pe, reg)
    /\ e_type pe = PGE_OTHEREVENT
    /\ pg_to_sdl b pe = (type ev, false).
Proof.
  intros Ho Hu Hr Hl. unfold PyEvent_New, dict_from_event.
  fold (user_posted ev). rewrite Hu. eexists. split; [reflexivity|].
  split; [exact Ho|]. unfold pg_to_sdl. cbn [e_type e_dict].
  rewrite Ho, Z.eqb_refl. unfold get_sdl_event_code. cbn [e_dict].
  rewrite generic_dict_sdl2_type. cbn [PyNumber_Check negb PyNumber_AsSsize_t].
  unfold PY_SSIZE_T_MIN, PY_SSIZE_T_MAX, INT_MIN.
  rewrite Z.min_l, Z.max_r by lia.
  destruct (Z.ltb_spec (last_user_event b) (type ev)); [lia|].
  destruct (Z.ltb_spec (type ev) (- 2 ^ 31)); [lia|].
  cbn [orb]. rewrite to_int_small by lia. reflexivity.
Qed.

(** The "value" entry of the generic mapping of a hat event. *)
Lemma generic_dict_hat_value (b : UserBand) (e : SDL_Event) :
  type e = SDL_JOYHATMOTION ->
  let v := jh_value (jhat e) in
  let hy := if Z.testbit v 0 then 1 else if Z.testbit v 2 then -1 else 0 in
  let hx := if Z.testbit v 1 then 1 else if Z.testbit v 3 then -1 else 0 in
  generic_dict Py_UNICODE_TOUPPER our_unichr Text_FromUTF8 b e
    !! "value"%string
  = Some (PyTuple [PyInt hx; PyInt hy]).
Proof.
  intros Ht v hy hx.
  assert (Hn : (SDL_JOYHATMOTION =? PGE_USEREVENT) = false).
  { pose proof (wf_user wf). apply Z.eqb_neq. unfold SDL_JOYHATMOTION. lia. }
  assert (Hl : (SDL_JOYHATMOTION <? PGE_NUMEVENTS) = false).
  { pose proof (wf_user wf). apply Z.ltb_ge. unfold SDL_JOYHATMOTION. lia. }
  pose proof (wf_nodup wf) as HN. unfold builtin_types in HN.
  apply NoDup_cons in HN as [_ HN]. apply NoDup_cons in HN as [_ HN].
  nodup_facts HN.
  unfold generic_dict.
  replace (sdl_to_pg b e) with PGE_JOYHATMOTION
    by (unfold sdl_to_pg; rewrite Ht; reflexivity).
  rewrite Ht. change (SDL_JOYHATMOTION =? SDL_WINDOWEVENT) with false.
  cbv iota.
  rewrite Hn, Hl, andb_false_r. cbn [andb].
  unfold type_items. eqb_steps. unfold Py_BuildValue_ii, insobj.
  rewrite lookup_insert_eq. fold v.
  change SDL_HAT_UP with (2 ^ 0). change SDL_HAT_RIGHT with (2 ^ 1).
  change SDL_HAT_DOWN with (2 ^ 2). change SDL_HAT_LEFT with (2 ^ 3).
  rewrite !land_bit_eqb by lia. rewrite !negb_involutive. reflexivity.
Qed.

(** The generic mapping of a record whose native code is not below the
    number of logical types has neither "code" nor "filename". *)
Lemma generic_dict_no_user_attributes (b : UserBand) (e : SDL_Event) :
  PGE_NUMEVENTS <= type e ->
  generic_dict Py_UNICODE_TOUPPER our_unichr Text_FromUTF8 b e
    !! "code"%string = None
  /\ generic_dict Py_UNICODE_TOUPPER our_unichr Text_FromUTF8 b e
       !! "filename"%string = None.
Proof.
  intros Ht. pose proof (wf_user wf) as HU. unfold generic_dict.
  destruct (Z.eqb_spec (type e) PGE_USEREVENT) as [E|_]; [lia|].
  destruct (Z.ltb_spec (type e) PGE_NUMEVENTS); [lia|].
  rewrite andb_false_r. cbn [andb].
  assert (Hk : forall (k : string) d t,
             k ∉ ["gain"; "state"; "unicode"; "key"; "mod"; "scancode";
                  "pos"; "rel"; "buttons"; "button"; "joy"; "axis"; "value";
                  "ball"; "hat"; "size"; "w"; "h"]%string ->
             type_items Py_UNICODE_TOUPPER our_unichr d t e !! k = d !! k).
  { intros k d t Hk. repeat (apply not_elem_of_cons in Hk as [? Hk]).
    unfold type_items, key_items.
    repeat match goal with
           | |- context [if ?c then _ else _] => destruct c
           | |- context [let '(_, _) := ?p in _] => destruct p
           end;
      repeat (rewrite insobj_lookup_ne by (apply not_eq_sym; assumption));
      reflexivity. }
  split; rewrite Hk.
  - destruct (type e =? SDL_WINDOWEVENT); reflexivity.
  - repeat rewrite not_elem_of_cons. rewrite elem_of_nil.
    intuition discriminate.
  - destruct (type e =? SDL_WINDOWEVENT); reflexivity.
  - repeat rewrite not_elem_of_cons. rewrite elem_of_nil.
    intuition discriminate.
Qed.

(** X9.  A native hat event that does not carry the user sentinels
    decodes, whatever the user-object list holds and without touching it,
    to an event object of the hat type whose "value" is the pair
    [(hx, hy)], each component -1, 0 or 1: [hy] is 1 when the "up" bit of
    the native hat value is set, whether or not "down" is set too, -1 when
    only "down" is set; [hx] likewise with "right" taking precedence over
    "left". *)
Theorem X9_hat_value (b : UserBand) (e : SDL_Event) (reg : Registry Dict) :
  type e = SDL_JOYHATMOTION ->
  user_posted e = false ->
  let v := jh_value (jhat e) in
  let hy := if Z.testbit v 0 then 1 else if Z.testbit v 2 then -1 else 0 in
  let hx := if Z.testbit v 1 then 1 else if Z.testbit v 3 then -1 else 0 in
  exists d,
    dict_from_event Py_UNICODE_TOUPPER our_unichr Text_FromUTF8 b e reg
    = Done (d, reg)
    /\ PyEvent_New Py_UNICODE_TOUPPER our_unichr Text_FromUTF8 b (Some e) reg
       = Done (mkPyEvent PGE_JOYHATMOTION (Some d), reg)
    /\ d !! "value"%string = Some (PyTuple [PyInt hx; PyInt hy]).
Proof.
  intros Ht Hu v hy hx.
  exists (generic_dict Py_UNICODE_TOUPPER our_unichr Text_FromUTF8 b e).
  assert (Hd : dict_from_event Py_UNICODE_TOUPPER our_unichr Text_FromUTF8
                               b e reg
               = Done (generic_dict Py_UNICODE_TOUPPER our_unichr
                                    Text_FromUTF8 b e, reg)).
  { unfold dict_from_event. fold (user_posted e). rewrite Hu. reflexivity. }
  split; [exact Hd|]. split.
  - unfold PyEvent_New. rewrite Hd.
    replace (sdl_to_pg b e) with PGE_JOYHATMOTION
      by (unfold sdl_to_pg; rewrite Ht; reflexivity).
    reflexivity.
  - exact (generic_dict_hat_value b e Ht).
Qed.

(** X10.  The two attributes reserved for user events are keyed on the
    native code of the record, compared against the logical constants of
    the user band: a record that does not carry the user sentinels and
    whose native code is not below the number of logical types (every code
    SDL2 defines is, the native user codes included) decodes to a mapping
    with neither a "code" nor a "filename" entry. *)
Theorem X10_no_user_attributes (b : UserBand) (e : SDL_Event)
    (reg : Registry Dict) :
  PGE_NUMEVENTS <= type e ->
  user_posted e = false ->
  exists d,
    dict_from_event Py_UNICODE_TOUPPER our_unichr Text_FromUTF8 b e reg
    = Done (d, reg)
    /\ PyEvent_New Py_UNICODE_TOUPPER our_unichr Text_FromUTF8 b (Some e) reg
       = Done (mkPyEvent (sdl_to_pg b e) (Some d), reg)
    /\ d !! "code"%string = None
    /\ d !! "filename"%string = None.
Proof.
  intros Ht Hu.
  exists (generic_dict Py_UNICODE_TOUPPER our_unichr Text_FromUTF8 b e).
  assert (Hd : dict_from_event Py_UNICODE_TOUPPER our_unichr Text_FromUTF8
                               b e reg
               = Done (generic_dict Py_UNICODE_TOUPPER our_unichr
                                    Text_FromUTF8 b e, reg)).
  { unfold dict_from_event. fold (user_posted e). rewrite Hu. reflexivity. }
  split; [exact Hd|]. split.
  - unfold PyEvent_New. rewrite Hd. reflexivity.
  - exact (generic_dict_no_user_attributes b e Ht).
Qed.

End NativeRoundtrip.

Lemma X7_native_roundtrip_witness :
  pg_type_to_sdl (K := sdl12_enum) band_init
    (sdl_to_pg (K := sdl12_enum) band_init (keydown_event 0 0))
  = SDL_KEYDOWN.
Proof.
  apply (X7_native_roundtrip (K := sdl12_enum) sdl12_enum_wf band_init
           (keydown_event 0 0)).
  cbn [type keydown_event]. rewrite !elem_of_cons. right; left; reflexivity.
Defined.

Lemma X8_other_event_stash_witness :
  exists pe,
    PyEvent_New (K := sdl12_enum) toupper_ascii unichr_bmp text_none band_init
                (Some (set_type 0x303 zero_event)) registry_init
    = Done (pe, registry_init)
    /\ e_type pe = PGE_OTHEREVENT (PgeEnum := sdl12_enum)
    /\ pg_to_sdl (K := sdl12_enum) band_init pe = (0x303, false).
Proof.
  apply (X8_other_event_stash (K := sdl12_enum) toupper_ascii unichr_bmp
           text_none band_init (set_type 0x303 zero_event) registry_init).
  - reflexivity.
  - reflexivity.
  - cbn [type set_type]. lia.
  - vm_compute. discriminate.
Defined.

Lemma X9_hat_value_witness :
  exists d,
    dict_from_event (K := sdl12_enum) toupper_ascii unichr_bmp text_none
                    band_init (hat_event 13) registry_init
    = Done (d, registry_init)
    /\ PyEvent_New (K := sdl12_enum) toupper_ascii unichr_bmp text_none
                   band_init (Some (hat_event 13)) registry_init
       = Done (mkPyEvent (PGE_JOYHATMOTION (PgeEnum := sdl12_enum)) (Some d),
               registry_init)
    /\ d !! "value"%string = Some (PyTuple [PyInt (-1); PyInt 1]).
Proof.
  apply (X9_hat_value (K := sdl12_enum) sdl12_enum_wf toupper_ascii
           unichr_bmp text_none band_init (hat_event 13) registry_init).
  - reflexivity.
  - reflexivity.
Defined.

Lemma X10_no_user_attributes_witness :
  let e := set_user (mkUser 5 0 0) (set_type SDL_USEREVENT zero_event) in
  exists d,
    dict_from_event (K := sdl12_enum) toupper_ascii unichr_bmp text_none
                    band_init e registry_init
    = Done (d, registry_init)
    /\ PyEvent_New (K := sdl12_enum) toupper_ascii unichr_bmp text_none
                   band_init (Some e) registry_init
       = Done (mkPyEvent (sdl_to_pg (K := sdl12_enum) band_init e) (Some d),
               registry_init)
    /\ d !! "code"%string = None
    /\ d !! "filename"%string = None.
Proof.
  intros e.
  apply (X10_no_user_attributes (K := sdl12_enum) sdl12_enum_wf toupper_ascii
           unichr_bmp text_none band_init e registry_init).
  - vm_compute. discriminate.
  - reflexivity.
Defined.

(** ** The queue: what get, clear and peek take and leave *)

Lemma filter_split_perm {A : Type} (P Q : A -> bool) (q : list A) :
  List.filter (fun x => P x || Q x) q
  ≡ₚ List.filter P q ++ List.filter Q (List.filter (fun x => negb (P x)) q).
Proof.
  induction q as [|x q IH]; [reflexivity|]. cbn [List.filter].
  destruct (P x); cbn [orb negb app].
  - constructor. exact IH.
  - cbn [List.filter]. destruct (Q x).
    + rewrite IH. apply Permutation_middle.
    + exact IH.
Qed.

Lemma filter_filter_negb_or {A : Type} (P Q : A -> bool) (q : list A) :
  List.filter (fun x => negb (Q x)) (List.filter (fun x => negb (P x)) q)
  = List.filter (fun x => negb (P x || Q x)) q.
Proof.
  induction q as [|x q IH]; [reflexivity|]. cbn [List.filter].
  destruct (P x); cbn [orb negb]; [exact IH|].
  cbn [List.filter]. destruct (Q x); cbn [negb]; [exact IH|].
  f_equal. exact IH.
Qed.

Lemma filter_true_id {A : Type} (q : list A) :
  List.filter (fun _ => true) q = q.
Proof. induction q as [|x q IH]; [reflexivity|]. cbn. f_equal. exact IH. Qed.

Section Partition.
Context {K : PgeEnum}.
Variables (b : UserBand) (mask : Z).

(** What a drain leaves is what no scanned type claims, in place. *)
Lemma drain_rest_unclaimed (ts : list Z) (q : list SDL_Event) :
  drain_rest b mask ts q
  = List.filter (fun ev => negb (claimed b mask ts ev)) q.
Proof.
  revert q. induction ts as [|t ts IH]; intros q.
  - cbn [drain_rest claimed existsb negb]. symmetry. apply filter_true_id.
  - cbn [drain_rest].
    change (claimed b mask (t :: ts))
      with (fun ev => scans b mask t && bears b t ev || claimed b mask ts ev).
    destruct (scans b mask t); cbn [andb orb]; [|apply IH].
    rewrite IH.
    exact (filter_filter_negb_or (fun ev => bears b t ev)
             (claimed b mask ts) q).
Qed.

(** What a drain hands out is what some scanned type claims. *)
Lemma drain_order_claimed (ts : list Z) (q : list SDL_Event) :
  drain_order b mask ts q ≡ₚ List.filter (claimed b mask ts) q.
Proof.
  revert q. induction ts as [|t ts IH]; intros q.
  - cbn [drain_order claimed existsb].
    induction q as [|x q IHq]; [reflexivity | exact IHq].
  - cbn [drain_order].
    change (claimed b mask (t :: ts))
      with (fun ev => scans b mask t && bears b t ev || claimed b mask ts ev).
    destruct (scans b mask t); cbn [andb orb]; [|apply IH].
    rewrite IH. symmetry.
    exact (filter_split_perm (fun ev => bears b t ev) (claimed b mask ts) q).
Qed.

Lemma claimed_rest_none (ts : list Z) (q : list SDL_Event) :
  List.filter (claimed b mask ts)
              (List.filter (fun ev => negb (claimed b mask ts ev)) q) = [].
Proof.
  induction q as [|x q IH]; [reflexivity|]. cbn [List.filter].
  destruct (claimed b mask ts x) eqn:E; cbn [negb]; [exact IH|].
  cbn [List.filter]. rewrite E. exact IH.
Qed.

(** A removal step finds an event exactly when one is claimed. *)
Lemma first_hit_none (ts : list Z) (q : list SDL_Event) :
  first_hit b mask ts q = None <-> existsb (claimed b mask ts) q = false.
Proof.
  induction ts as [|t ts IH].
  - cbn [first_hit claimed existsb]. split; [intros _|reflexivity].
    induction q as [|x q IHq]; [reflexivity | exact IHq].
  - cbn [first_hit].
    change (claimed b mask (t :: ts))
      with (fun ev => scans b mask t && bears b t ev || claimed b mask ts ev).
    destruct (scans b mask t); cbn [andb orb]; [|exact IH].
    destruct (peep_scan_one (pg_type_to_sdl b t) q)
      as [(Hs & Hn) | (ev & q1 & q2 & Hs & Hq & Hf1 & Hc)]; rewrite Hs.
    + rewrite IH.
      assert (He : existsb (fun ev => bears b t ev || claimed b mask ts ev) q
                   = existsb (claimed b mask ts) q).
      { clear -Hn. induction q as [|x q IHq]; [reflexivity|].
        cbn [List.filter existsb] in *. unfold bears at 1.
        destruct (type x =? pg_type_to_sdl b t); [discriminate|].
        cbn [orb]. rewrite (IHq Hn). reflexivity. }
      rewrite He. reflexivity.
    + split; [discriminate|]. rewrite Hq, existsb_app. cbn [existsb].
      unfold bears at 2. rewrite Hc. cbn [orb]. rewrite orb_true_r.
      discriminate.
Qed.

End Partition.

Lemma SDL_PumpEvents_idle (n : Native) :
  pending n = [] -> SDL_PumpEvents n = n.
Proof.
  destruct n as [q p d a v]. cbn [pending]. intros ->.
  unfold SDL_PumpEvents. cbn [queue pending disabled active video_init
                                List.filter].
  rewrite app_nil_r. reflexivity.
Qed.

Section QueueOps.
Context {K : PgeEnum}.
Variable Py_UNICODE_TOUPPER : Z -> Z.
Variable our_unichr : Z -> option PyObject.
Variable Text_FromUTF8 : Z -> option PyObject.

(** One call of [PG_PeepEvents] for a single event with SDL_PEEKEVENT
    looks for what a removal step would take and leaves the queue alone. *)
Lemma PG_PeepEvents_loop_peek (b : UserBand) (mask : Z) (k : nat) (ty : Z)
    (e : SDL_Event) (n : Native) :
  active n = true ->
  PG_PeepEvents_loop k b [e] 1 SDL_PEEKEVENT mask ty 0 n
  = match first_hit b mask (types_from ty k) (queue n) with
    | Some (ev, _) => (1, [ev], n)
    | None => (0, [e], n)
    end.
Proof.
  intros Ha. revert ty.
  induction k as [|k IH]; intros ty; [reflexivity|].
  cbn [PG_PeepEvents_loop types_from first_hit]. unfold scans.
  change (0 <? 1) with true. cbv iota.
  destruct (Z.testbit mask ty); cbn [andb]; [|apply IH].
  destruct (negb (pg_type_to_sdl b ty =? PGE_NON_SDL_EVENT)).
  2:{ change (0 =? -1) with false. cbv iota. apply IH. }
  unfold SDL_PeepEvents. rewrite Ha. cbn [negb].
  change (Z.to_nat 1) with 1%nat.
  change (SDL_PEEKEVENT =? SDL_GETEVENT) with false. cbv iota.
  destruct (peep_scan_one (pg_type_to_sdl b ty) (queue n))
    as [(Hs & _) | (ev & q1 & q2 & Hs & _)]; rewrite Hs.
  - cbn [length Z.of_nat]. change (0 =? -1) with false. cbv iota.
    unfold fill_buffer. cbn [length app drop]. apply IH.
  - cbn [length Z.of_nat Pos.of_succ_nat]. change (1 =? -1) with false.
    cbv iota. unfold fill_buffer. cbn [length app drop Z.add].
    apply PG_PeepEvents_loop_full.
Qed.

(** The loop of [event_get] on a queue that holds nothing for the mask. *)
Lemma event_get_loop_nothing (b : UserBand) (mask : Z) (fuel : nat)
    (e : SDL_Event) (reg : Registry Dict) (n : Native) :
  active n = true ->
  existsb (claimed b mask scan_types) (queue n) = false ->
  event_get_loop Py_UNICODE_TOUPPER our_unichr Text_FromUTF8 (S fuel) b mask
                 e reg n
  = Done ([], reg, n).
Proof.
  intros Ha Hn. cbn [event_get_loop]. unfold PG_PeepEvents.
  rewrite PG_PeepEvents_loop_step by exact Ha. fold scan_types.
  rewrite (proj2 (first_hit_none b mask scan_types (queue n)) Hn).
  reflexivity.
Qed.

Lemma existsb_filter_nil {A : Type} (P : A -> bool) (q : list A) :
  List.filter P q = [] -> existsb P q = false.
Proof.
  induction q as [|x q IH]; [reflexivity|]. cbn [List.filter existsb].
  destruct (P x); [discriminate | exact IH].
Qed.

(** X11.  [get] splits the pumped queue in two: the events some scanned
    type of the mask claims by native code are removed and returned, none
    lost and none twice; the others stay queued in their order.  Key-repeat
    state, user band and the per-type flags are untouched, and the
    user-object list stays well formed. *)
Theorem X11_get_partition (uninit : SDL_Event) (args : list TypeArg)
    (mask : Z) (s : Module) (l : list (Z * Dict)) :
  video_init (native s) = true ->
  active (native s) = true ->
  filter_mask args = Return mask ->
  registry_inv (registry s) l ->
  Forall (fun ev => user_posted ev = true -> u_data2 (user ev) <> NULL)
         (queue (SDL_PumpEvents (native s))) ->
  let q := queue (SDL_PumpEvents (native s)) in
  exists evs s' l',
    event_get Py_UNICODE_TOUPPER our_unichr Text_FromUTF8 uninit args s
    = Done (Return evs, s')
    /\ map e_type evs
       ≡ₚ map (sdl_to_pg (band s))
              (List.filter (claimed (band s) mask scan_types) q)
    /\ queue (native s')
       = List.filter (fun ev => negb (claimed (band s) mask scan_types ev)) q
    /\ registry_inv (registry s') l'
    /\ repeat s' = repeat s /\ band s' = band s
    /\ disabled (native s') = disabled (native s).
Proof.
  intros Hv Ha Hmask Hinv Hok q.
  assert (Hpa : active (SDL_PumpEvents (native s)) = true) by exact Ha.
  pose proof (drain_loop_spec (band s) mask scan_types q (S (length q))
                ltac:(lia)) as Hd.
  destruct (event_get_loop_drain Py_UNICODE_TOUPPER our_unichr Text_FromUTF8
              (band s) mask (S (length q)) uninit (registry s) l
              (SDL_PumpEvents (native s)) _ _ Hpa Hinv Hok Hd)
    as (evs & reg' & l' & Hg & Hm & Hinv').
  exists evs. eexists. exists l'. split.
  { unfold event_get, video_init_check. rewrite Hv, Hmask. cbn [negb].
    fold q in Hg |- *.
    destruct args as [|a [|a' args]];
      [| |cbn in Hmask; destruct a; discriminate];
      rewrite Hg; reflexivity. }
  split.
  { rewrite Hm. apply Permutation_map, drain_order_claimed. }
  split; [apply drain_rest_unclaimed|].
  split; [exact Hinv'|]. repeat split.
Qed.

(** X12.  A [get] repeated at once with the same filter returns the empty
    list and changes nothing: the first call took everything the filter
    selects. *)
Theorem X12_get_again_empty (uninit uninit' : SDL_Event)
    (args : list TypeArg) (mask : Z) (s : Module) (l : list (Z * Dict)) :
  video_init (native s) = true ->
  active (native s) = true ->
  filter_mask args = Return mask ->
  registry_inv (registry s) l ->
  Forall (fun ev => user_posted ev = true -> u_data2 (user ev) <> NULL)
         (queue (SDL_PumpEvents (native s))) ->
  exists evs s',
    event_get Py_UNICODE_TOUPPER our_unichr Text_FromUTF8 uninit args s
    = Done (Return evs, s')
    /\ event_get Py_UNICODE_TOUPPER our_unichr Text_FromUTF8 uninit' args s'
       = Done (Return [], s').
Proof.
  intros Hv Ha Hmask Hinv Hok.
  set (q := queue (SDL_PumpEvents (native s))) in *.
  assert (Hpa : active (SDL_PumpEvents (native s)) = true) by exact Ha.
  pose proof (drain_loop_spec (band s) mask scan_types q (S (length q))
                ltac:(lia)) as Hd.
  destruct (event_get_loop_drain Py_UNICODE_TOUPPER our_unichr Text_FromUTF8
              (band s) mask (S (length q)) uninit (registry s) l
              (SDL_PumpEvents (native s)) _ _ Hpa Hinv Hok Hd)
    as (evs & reg' & l' & Hg & _ & _).
  assert (Hargs : match args with [] | [_] => True | _ => False end).
  { destruct args as [|a [|a' args]]; try exact I.
    cbn in Hmask. destruct a; discriminate. }
  exists evs. eexists. split.
  { unfold event_get, video_init_check. rewrite Hv, Hmask. cbn [negb].
    fold q in Hg |- *.
    destruct args as [|a [|a' args]]; [| |contradiction];
      rewrite Hg; reflexivity. }
  unfold event_get, video_init_check.
  cbn [native set_registry set_native video_init set_queue SDL_PumpEvents
       band registry].
  rewrite Hv, Hmask. cbn [negb].
  rewrite SDL_PumpEvents_idle by reflexivity.
  cbn [queue set_queue SDL_PumpEvents].
  rewrite event_get_loop_nothing.
  - destruct args as [|a [|a' args]]; [| |contradiction]; reflexivity.
  - exact Ha.
  - cbn [queue]. apply existsb_filter_nil.
    rewrite drain_rest_unclaimed. apply claimed_rest_none.
Qed.

(** X13.  [peek] with a type filter removes nothing: it pumps, and
    answers 1 exactly when some queued event bears the native code of a
    scanned type of the mask, 0 otherwise. *)
Theorem X13_peek_filtered (uninit : SDL_Event) (arg : TypeArg) (mask : Z)
    (s : Module) :
  video_init (native s) = true ->
  active (native s) = true ->
  filter_mask [arg] = Return mask ->
  event_peek Py_UNICODE_TOUPPER our_unichr Text_FromUTF8 uninit [arg] s
  = Done (Return (PeekInt
                    (bool_to_Z
                       (existsb (claimed (band s) mask scan_types)
                                (queue (SDL_PumpEvents (native s)))))),
          set_native (SDL_PumpEvents (native s)) s).
Proof.
  intros Hv Ha Hmask.
  assert (Hpa : active (SDL_PumpEvents (native s)) = true) by exact Ha.
  unfold event_peek, video_init_check. rewrite Hv, Hmask. cbn [negb].
  unfold PG_PeepEvents. rewrite PG_PeepEvents_loop_peek by exact Hpa.
  fold scan_types.
  pose proof (first_hit_none (band s) mask scan_types
                (queue (SDL_PumpEvents (native s)))) as Hn.
  destruct (first_hit (band s) mask scan_types
              (queue (SDL_PumpEvents (native s)))) as [[ev rest]|].
  - destruct (existsb (claimed (band s) mask scan_types)
                (queue (SDL_PumpEvents (native s)))) eqn:E; [reflexivity|].
    discriminate (proj2 Hn eq_refl).
  - rewrite (proj1 Hn eq_refl). reflexivity.
Qed.

(** X14.  [clear] leaves queued exactly the events no scanned type of the
    mask claims, in their order; an event whose native code is the code of
    no scanned logical type is never removed, whatever the mask.  The
    removed events are not decoded: the user-object list is left as it
    was, so the payload of a cleared user-posted event stays registered. *)
Theorem X14_clear_leaves_unclaimed (uninit : SDL_Event)
    (args : list TypeArg) (mask : Z) (s : Module) :
  video_init (native s) = true ->
  active (native s) = true ->
  filter_mask args = Return mask ->
  let q := queue (SDL_PumpEvents (native s)) in
  exists s',
    event_clear uninit args s = Done (Return tt, s')
    /\ queue (native s')
       = List.filter (fun ev => negb (claimed (band s) mask scan_types ev)) q
    /\ (forall ev, ev ∈ q ->
                   type ev ∉ map (pg_type_to_sdl (band s)) scan_types ->
                   ev ∈ queue (native s'))
    /\ registry s' = registry s.
Proof.
  intros Hv Ha Hmask q.
  assert (Hpa : active (SDL_PumpEvents (native s)) = true) by exact Ha.
  pose proof (drain_loop_spec (band s) mask scan_types q (S (length q))
                ltac:(lia)) as Hd.
  eexists. split.
  { unfold event_clear, video_init_check. rewrite Hv, Hmask. cbn [negb].
    rewrite event_clear_loop_drain by exact Hpa.
    fold q. rewrite Hd.
    destruct args as [|a [|a' args]];
      [| |cbn in Hmask; destruct a; discriminate]; reflexivity. }
  cbn [native set_native queue set_queue registry].
  rewrite drain_rest_unclaimed.
  split; [reflexivity|]. split; [|reflexivity].
  intros ev Hin Hty. apply list_elem_of_In, filter_In.
  split; [apply list_elem_of_In, Hin|].
  apply negb_true_iff. unfold claimed.
  destruct (existsb _ scan_types) eqn:E; [|reflexivity].
  apply existsb_exists in E as (t & Ht & Hb).
  apply andb_true_iff in Hb as [_ Hb]. unfold bears in Hb.
  apply Z.eqb_eq in Hb. exfalso. apply Hty. rewrite Hb.
  apply list_elem_of_In, in_map, Ht.
Qed.

End QueueOps.

Lemma X11_get_partition_witness :
  let K := sdl12_enum in
  let s := module_with_queue [set_type 0x303 zero_event; keydown_event 0 0;
                              window_event SDL_WINDOWEVENT_RESIZED] in
  let q := queue (SDL_PumpEvents (native s)) in
  exists evs s' l',
    event_get toupper_ascii unichr_bmp text_none zero_event [TypeInt 2] s
    = Done (Return evs, s')
    /\ map e_type evs
       ≡ₚ map (sdl_to_pg (band s))
              (List.filter (claimed (band s) 4 scan_types) q)
    /\ queue (native s')
       = List.filter (fun ev => negb (claimed (band s) 4 scan_types ev)) q
    /\ registry_inv (registry s') l'
    /\ repeat s' = repeat s /\ band s' = band s
    /\ disabled (native s') = disabled (native s).
Proof.
  intros K s q.
  apply (X11_get_partition (K := sdl12_enum) toupper_ascii unichr_bmp
           text_none zero_event [TypeInt 2] 4 s []).
  - reflexivity.
  - reflexivity.
  - reflexivity.
  - apply registry_init_inv.
  - repeat constructor; intros Hu; vm_compute in Hu; discriminate Hu.
Defined.

Lemma X12_get_again_empty_witness :
  let K := sdl12_enum in
  let s := module_with_queue [set_type 0x303 zero_event; keydown_event 0 0;
                              window_event SDL_WINDOWEVENT_RESIZED] in
  exists evs s',
    event_get toupper_ascii unichr_bmp text_none zero_event [TypeInt 2] s
    = Done (Return evs, s')
    /\ event_get toupper_ascii unichr_bmp text_none zero_event [TypeInt 2] s'
       = Done (Return [], s').
Proof.
  intros K s.
  apply (X12_get_again_empty (K := sdl12_enum) toupper_ascii unichr_bmp
           text_none zero_event zero_event [TypeInt 2] 4 s []).
  - reflexivity.
  - reflexivity.
  - reflexivity.
  - apply registry_init_inv.
  - repeat constructor; intros Hu; vm_compute in Hu; discriminate Hu.
Defined.

Lemma X13_peek_filtered_witness :
  let K := sdl12_enum in
  let s := module_with_queue [set_type 0x303 zero_event;
                              window_event SDL_WINDOWEVENT_ENTER] in
  event_peek toupper_ascii unichr_bmp text_none zero_event [TypeInt 33] s
  = Done (Return (PeekInt 1), s).
Proof.
  intros K s.
  apply (X13_peek_filtered (K := sdl12_enum) toupper_ascii unichr_bmp
           text_none zero_event (TypeInt 33) 2 s).
  - reflexivity.
  - reflexivity.
  - reflexivity.
Defined.

Lemma X14_clear_leaves_unclaimed_witness :
  let K := sdl12_enum in
  let s := module_with_queue [set_type 0x303 zero_event; keydown_event 0 0;
                              window_event SDL_WINDOWEVENT_ENTER] in
  let q := queue (SDL_PumpEvents (native s)) in
  exists s',
    event_clear zero_event [TypeInt 33] s = Done (Return tt, s')
    /\ queue (native s')
       = List.filter (fun ev => negb (claimed (band s) 2 scan_types ev)) q
    /\ (forall ev, ev ∈ q ->
                   type ev ∉ map (pg_type_to_sdl (band s)) scan_types ->
                   ev ∈ queue (native s'))
    /\ registry s' = registry s.
Proof.
  intros K s q.
  apply (X14_clear_leaves_unclaimed (K := sdl12_enum) zero_event
           [TypeInt 33] 2 s).
  - reflexivity.
  - reflexivity.
  - reflexivity.
Defined.

(** ** Blocking: flags, queries and arguments *)

Lemma is_disabled_index (n : Native) (ty ty' : Z) :
  state_index ty = state_index ty' -> is_disabled n ty = is_disabled n ty'.
Proof. unfold is_disabled. intros ->. reflexivity. Qed.

Lemma existsb_filter_other (i i' : Z) (l : list Z) :
  existsb (Z.eqb i') (List.filter (fun d => negb (d =? i)) l)
  = existsb (Z.eqb i') l && negb (i' =? i).
Proof.
  induction l as [|d l IH]; [reflexivity|]. cbn [List.filter existsb].
  destruct (Z.eqb_spec d i) as [->|Hd]; cbn [negb existsb].
  - rewrite IH. destruct (i' =? i); cbn [negb orb];
      [rewrite !andb_false_r|]; reflexivity.
  - rewrite IH. destruct (Z.eqb_spec i' d) as [->|_]; cbn [orb];
      [|reflexivity].
    destruct (Z.eqb_spec d i); [contradiction|]. reflexivity.
Qed.

(** The flag of a code after [SDL_EventState] with SDL_IGNORE. *)
Lemma is_disabled_after_ignore (n : Native) (ty ty' : Z) :
  is_disabled (snd (SDL_EventState ty SDL_IGNORE n)) ty'
  = is_disabled n ty' || (state_index ty' =? state_index ty).
Proof.
  unfold SDL_EventState. destruct (is_disabled n ty) eqn:E.
  - change (SDL_IGNORE =? SDL_IGNORE) with true. cbv iota. cbn [snd].
    destruct (Z.eqb_spec (state_index ty') (state_index ty)) as [Hi|_].
    + rewrite (is_disabled_index n ty' ty Hi), E. reflexivity.
    + rewrite orb_false_r. reflexivity.
  - change (SDL_IGNORE =? SDL_ENABLE) with false.
    change (SDL_IGNORE =? SDL_IGNORE) with true. cbv iota. cbn [snd].
    unfold is_disabled. cbn [disabled set_queue set_disabled existsb].
    apply orb_comm.
Qed.

(** The flag of a code after [SDL_EventState] with SDL_ENABLE. *)
Lemma is_disabled_after_enable (n : Native) (ty ty' : Z) :
  is_disabled (snd (SDL_EventState ty SDL_ENABLE n)) ty'
  = is_disabled n ty' && negb (state_index ty' =? state_index ty).
Proof.
  unfold SDL_EventState. destruct (is_disabled n ty) eqn:E.
  - change (SDL_ENABLE =? SDL_IGNORE) with false.
    change (SDL_ENABLE =? SDL_ENABLE) with true. cbv iota. cbn [snd].
    unfold is_disabled. cbn [disabled set_disabled].
    apply existsb_filter_other.
  - change (SDL_ENABLE =? SDL_ENABLE) with true. cbv iota. cbn [snd].
    destruct (Z.eqb_spec (state_index ty') (state_index ty)) as [Hi|_].
    + rewrite (is_disabled_index n ty' ty Hi), E. reflexivity.
    + rewrite andb_true_r. reflexivity.
Qed.

(** A query answers the flag and changes nothing. *)
Lemma SDL_EventState_query (n : Native) (ty : Z) :
  SDL_EventState ty SDL_QUERY n
  = (if is_disabled n ty then SDL_IGNORE else SDL_ENABLE, n).
Proof. unfold SDL_EventState. destruct (is_disabled n ty); reflexivity. Qed.

Lemma state_index_small (t : Z) : 0 <= t < 256 -> state_index (to_Uint8 t) = t.
Proof.
  intros Ht. unfold state_index, to_Uint8.
  rewrite (Z.mod_small t) by lia.
  change 0xFFFF with (Z.ones 16). rewrite Z.land_ones by lia.
  apply Z.mod_small. lia.
Qed.

Section Blocking.
Context {K : PgeEnum}.
Hypothesis wf : pge_wf.

Lemma in_range_index (T : Z) :
  CheckEventInRange T = true -> state_index (to_Uint8 T) = T.
Proof.
  unfold CheckEventInRange. intros H. apply andb_true_iff in H as [H1 H2].
  apply Z.leb_le in H1. apply Z.ltb_lt in H2.
  pose proof (wf_user wf). apply state_index_small. lia.
Qed.

Lemma get_blocked_int (T : Z) (s : Module) :
  video_init (native s) = true -> CheckEventInRange T = true ->
  get_blocked [TypeInt T] s
  = Return (bool_to_Z (is_disabled (native s) (to_Uint8 T))).
Proof.
  intros Hv Hr. unfold get_blocked, video_init_check. rewrite Hv, Hr.
  cbn [negb]. rewrite SDL_EventState_query. cbn [fst].
  destruct (is_disabled (native s) (to_Uint8 T)); reflexivity.
Qed.

(** X15.  Blocking a logical type makes the query answer 1 for it,
    allowing it makes the query answer 0, and neither changes the answer
    for any other logical type. *)
Theorem X15_block_allow_query (T : Z) (s : Module) :
  video_init (native s) = true -> CheckEventInRange T = true ->
  fst (set_blocked [TypeInt T] s) = Return tt
  /\ fst (set_allowed [TypeInt T] s) = Return tt
  /\ get_blocked [TypeInt T] (snd (set_blocked [TypeInt T] s)) = Return 1
  /\ get_blocked [TypeInt T] (snd (set_allowed [TypeInt T] s)) = Return 0
  /\ (forall T', CheckEventInRange T' = true -> T' <> T ->
                 get_blocked [TypeInt T'] (snd (set_blocked [TypeInt T] s))
                 = get_blocked [TypeInt T'] s
                 /\ get_blocked [TypeInt T'] (snd (set_allowed [TypeInt T] s))
                    = get_blocked [TypeInt T'] s).
Proof.
  intros Hv Hr.
  assert (Hb : set_blocked [TypeInt T] s
               = (Return tt,
                  set_native (snd (SDL_EventState (to_Uint8 T) SDL_IGNORE
                                                  (native s))) s)).
  { unfold set_blocked, set_state, video_init_check. rewrite Hv, Hr.
    reflexivity. }
  assert (Ha : set_allowed [TypeInt T] s
               = (Return tt,
                  set_native (snd (SDL_EventState (to_Uint8 T) SDL_ENABLE
                                                  (native s))) s)).
  { unfold set_allowed, set_state, video_init_check. rewrite Hv, Hr.
    reflexivity. }
  assert (Hvb : video_init (snd (SDL_EventState (to_Uint8 T) SDL_IGNORE
                                                (native s))) = true).
  { unfold SDL_EventState.
    destruct (is_disabled (native s) (to_Uint8 T)); exact Hv. }
  assert (Hva : video_init (snd (SDL_EventState (to_Uint8 T) SDL_ENABLE
                                                (native s))) = true).
  { unfold SDL_EventState.
    destruct (is_disabled (native s) (to_Uint8 T)); exact Hv. }
  rewrite Hb, Ha. cbn [fst snd].
  split; [reflexivity|]. split; [reflexivity|].
  split; [|split].
  - rewrite get_blocked_int by assumption. cbn [native set_native].
    rewrite is_disabled_after_ignore, Z.eqb_refl, orb_true_r. reflexivity.
  - rewrite get_blocked_int by assumption. cbn [native set_native].
    rewrite is_disabled_after_enable, Z.eqb_refl, andb_false_r. reflexivity.
  - intros T' Hr' Hne.
    assert (Hi : (state_index (to_Uint8 T') =? state_index (to_Uint8 T))
                 = false).
    { rewrite !in_range_index by assumption. apply Z.eqb_neq, Hne. }
    rewrite !get_blocked_int by assumption. cbn [native set_native].
    rewrite is_disabled_after_ignore, is_disabled_after_enable, Hi.
    rewrite orb_false_r, andb_true_r. split; reflexivity.
Qed.

(** X16.  With [None] as argument [set_allowed] does exactly what
    [set_blocked] does: both flag the native code 0xFF as ignored.  That
    code is the code of no logical type, so the query answers for every
    logical type what it answered before. *)
Theorem X16_none_argument (T : Z) (s : Module) :
  CheckEventInRange T = true ->
  set_allowed [TypeNone] s = set_blocked [TypeNone] s
  /\ get_blocked [TypeInt T] (snd (set_allowed [TypeNone] s))
     = get_blocked [TypeInt T] s.
Proof.
  intros Hr. split; [reflexivity|].
  unfold set_allowed, set_state, video_init_check.
  destruct (video_init (native s)) eqn:Hv; cbn [negb snd]; [|reflexivity].
  assert (Hv' : video_init (snd (SDL_EventState (to_Uint8 255) SDL_IGNORE
                                                (native s))) = true).
  { unfold SDL_EventState.
    destruct (is_disabled (native s) (to_Uint8 255)); exact Hv. }
  rewrite !get_blocked_int by assumption. cbn [native set_native].
  rewrite is_disabled_after_ignore, in_range_index by exact Hr.
  change (state_index (to_Uint8 255)) with 255.
  unfold CheckEventInRange in Hr. apply andb_true_iff in Hr as [_ Hr].
  apply Z.ltb_lt in Hr. pose proof (wf_user wf).
  destruct (Z.eqb_spec T 255); [lia|]. rewrite orb_false_r. reflexivity.
Qed.

Lemma set_state_items_good (state : Z) (good : list Z)
    (tail : list (option Z)) (n : Native) :
  Forall (fun T => CheckEventInRange T = true) good ->
  set_state_items state (map Some good ++ tail) n
  = set_state_items state tail (snd (set_state_items state (map Some good) n))
  /\ fst (set_state_items state (map Some good) n) = Return tt.
Proof.
  intros Hg. revert n. induction Hg as [|T good HT _ IH]; intros n.
  - split; reflexivity.
  - cbn [map app set_state_items]. rewrite HT. cbn [negb]. apply IH.
Qed.

Lemma set_state_items_ignore_keeps (items : list (option Z)) (n : Native)
    (ty : Z) :
  is_disabled n ty = true ->
  is_disabled (snd (set_state_items SDL_IGNORE items n)) ty = true.
Proof.
  revert n. induction items as [|[v|] items IH]; intros n Hd;
    cbn [set_state_items]; [exact Hd| |exact Hd].
  destruct (CheckEventInRange v); cbn [negb]; [|exact Hd].
  apply IH. rewrite is_disabled_after_ignore, Hd. reflexivity.
Qed.

Lemma set_state_items_video (state : Z) (items : list (option Z))
    (n : Native) :
  video_init (snd (set_state_items state items n)) = video_init n.
Proof.
  revert n. induction items as [|[v|] items IH]; intros n;
    cbn [set_state_items]; try reflexivity.
  destruct (CheckEventInRange v); cbn [negb]; [|reflexivity].
  rewrite IH. unfold SDL_EventState.
  destruct (is_disabled n (to_Uint8 v));
    repeat match goal with
           | |- context [if ?c then _ else _] => destruct c
           end; reflexivity.
Qed.

(** X17.  A sequence argument is applied item by item.  When an item is
    not an integer the call raises TypeError, when it is out of range it
    raises ValueError; in both cases every item before the offending one
    has already taken effect: those types are blocked when [set_blocked]
    returns with the error. *)
Theorem X17_sequence_partial_effect (good : list Z) (bad : option Z)
    (rest : list (option Z)) (s : Module) :
  video_init (native s) = true ->
  Forall (fun T => CheckEventInRange T = true) good ->
  match bad with Some v => CheckEventInRange v = false | None => True end ->
  let r := set_blocked [TypeSeq (map Some good ++ bad :: rest)] s in
  fst r = Raise (match bad with Some _ => ValueError | None => TypeError end)
  /\ snd r = snd (set_blocked [TypeSeq (map Some good)] s)
  /\ (forall T, T ∈ good -> get_blocked [TypeInt T] (snd r) = Return 1).
Proof.
  intros Hv Hg Hbad r. subst r.
  unfold set_blocked, set_state, video_init_check. rewrite Hv. cbn [negb].
  destruct (set_state_items_good SDL_IGNORE good (bad :: rest) (native s) Hg)
    as [Happ Hok].
  rewrite Happ.
  set (n1 := snd (set_state_items SDL_IGNORE (map Some good) (native s))).
  assert (Hn1 : set_state_items SDL_IGNORE (map Some good) (native s)
                = (Return tt, n1)).
  { subst n1. destruct (set_state_items SDL_IGNORE (map Some good) (native s)).
    cbn [fst snd] in *. subst. reflexivity. }
  rewrite Hn1.
  assert (Hbr : set_state_items SDL_IGNORE (bad :: rest) n1
                = (Raise (match bad with
                          | Some _ => ValueError
                          | None => TypeError
                          end), n1)).
  { destruct bad as [v|]; cbn [set_state_items]; [|reflexivity].
    rewrite Hbad. reflexivity. }
  rewrite Hbr. cbn [fst snd].
  split; [reflexivity|]. split; [reflexivity|].
  intros T HT.
  assert (HrT : CheckEventInRange T = true).
  { rewrite Forall_forall in Hg. apply Hg, HT. }
  rewrite get_blocked_int; cbn [native set_native];
    [|subst n1; rewrite set_state_items_video; exact Hv | exact HrT].
  assert (Hd : is_disabled n1 (to_Uint8 T) = true).
  { subst n1. clear -HT Hg. revert HT. generalize (native s).
    induction Hg as [|T0 good HT0 _ IH]; intros n HT;
      [apply elem_of_nil in HT; contradiction|].
    cbn [map set_state_items]. rewrite HT0. cbn [negb].
    apply elem_of_cons in HT as [->|HT].
    - apply set_state_items_ignore_keeps.
      rewrite is_disabled_after_ignore, Z.eqb_refl, orb_true_r. reflexivity.
    - apply IH, HT. }
  rewrite Hd. reflexivity.
Qed.

Lemma get_blocked_items_any (Ts : list Z) (acc : bool) (n : Native) :
  Forall (fun T => CheckEventInRange T = true) Ts ->
  get_blocked_items (map Some Ts) acc n
  = Return (bool_to_Z
              (acc || existsb (fun T => is_disabled n (to_Uint8 T)) Ts)).
Proof.
  intros Hg. revert acc. induction Hg as [|T Ts HT _ IH]; intros acc.
  - cbn [map get_blocked_items existsb]. rewrite orb_false_r. reflexivity.
  - cbn [map get_blocked_items existsb]. rewrite HT. cbn [negb].
    rewrite IH, SDL_EventState_query. cbn [fst].
    destruct (is_disabled n (to_Uint8 T)); cbn [orb];
      [change (SDL_IGNORE =? SDL_IGNORE) with true
      |change (SDL_ENABLE =? SDL_IGNORE) with false];
      rewrite <- orb_assoc; reflexivity.
Qed.

(** X18.  Queried with a sequence of logical types, [get_blocked] answers
    1 when at least one of them is blocked and 0 when none is; for the
    empty sequence it answers 0. *)
Theorem X18_get_blocked_any (Ts : list Z) (s : Module) :
  video_init (native s) = true ->
  Forall (fun T => CheckEventInRange T = true) Ts ->
  get_blocked [TypeSeq (map Some Ts)] s
  = Return (bool_to_Z
              (existsb (fun T => is_disabled (native s) (to_Uint8 T)) Ts))
  /\ (get_blocked [TypeSeq (map Some Ts)] s = Return 1
      <-> exists T, T ∈ Ts /\ get_blocked [TypeInt T] s = Return 1).
Proof.
  intros Hv Hg.
  assert (E : get_blocked [TypeSeq (map Some Ts)] s
              = Return (bool_to_Z
                          (existsb (fun T => is_disabled (native s)
                                                         (to_Uint8 T)) Ts))).
  { unfold get_blocked, video_init_check. rewrite Hv. cbn [negb].
    rewrite get_blocked_items_any by exact Hg. reflexivity. }
  split; [exact E|]. rewrite E. rewrite Forall_forall in Hg. split.
  - intros H.
    destruct (existsb _ Ts) eqn:Ex; [|discriminate H].
    apply existsb_exists in Ex as (T & HT & Hd).
    apply list_elem_of_In in HT. exists T. split; [exact HT|].
    rewrite get_blocked_int by auto. rewrite Hd. reflexivity.
  - intros (T & HT & Hb). rewrite get_blocked_int in Hb by auto.
    assert (Ex : existsb (fun T => is_disabled (native s) (to_Uint8 T)) Ts
                 = true).
    { apply existsb_exists. exists T. split; [apply list_elem_of_In, HT|].
      destruct (is_disabled (native s) (to_Uint8 T));
        [reflexivity | discriminate Hb]. }
    rewrite Ex. reflexivity.
Qed.

End Blocking.

(** X19.  The filter mask built from a sequence of logical types has
    exactly the bits of the listed types set, and the mask of a single
    integer is the mask of the one-item sequence. *)
Theorem X19_filter_mask_bits (vals : list Z) :
  Forall (fun v => 0 <= v < 32) vals ->
  exists mask,
    filter_mask [TypeSeq (map Some vals)] = Return mask
    /\ (forall t, Z.testbit mask t = existsb (Z.eqb t) vals)
    /\ (forall v, filter_mask [TypeInt v] = filter_mask [TypeSeq [Some v]]).
Proof.
  intros Hv.
  assert (H : forall m0,
             (forall t, Z.testbit m0 t = true -> 0 <= t < 32) ->
             exists mask,
               mask_of_items (map Some vals) m0 = Some mask
               /\ forall t, Z.testbit mask t
                            = Z.testbit m0 t || existsb (Z.eqb t) vals).
  { induction Hv as [|v vals Hr _ IH]; intros m0 Hm0.
    - exists m0. split; [reflexivity|]. intros t. cbn [existsb].
      rewrite orb_false_r. reflexivity.
    - cbn [map mask_of_items].
      assert (Hb : forall t,
                 Z.testbit (to_Uint32 (Z.lor m0 (PGE_EVENTMASK v))) t
                 = Z.testbit m0 t || (t =? v)).
      { intros t. unfold to_Uint32, PGE_EVENTMASK.
        replace (Z.land v 31) with v
          by (change 31 with (Z.ones 5); rewrite Z.land_ones by lia;
              symmetry; apply Z.mod_small; lia).
        rewrite Z.shiftl_1_l.
        destruct (Z.ltb_spec t 0) as [Hneg|Hpos].
        { rewrite !Z.testbit_neg_r by lia.
          destruct (Z.eqb_spec t v); [lia | reflexivity]. }
        destruct (Z.ltb_spec t 32) as [Hlt|Hge].
        - rewrite Z.mod_pow2_bits_low by lia.
          rewrite Z.lor_spec, Z.pow2_bits_eqb by lia.
          rewrite (Z.eqb_sym v t). reflexivity.
        - rewrite Z.mod_pow2_bits_high by lia.
          destruct (Z.testbit m0 t) eqn:E;
            [specialize (Hm0 t E); lia|].
          destruct (Z.eqb_spec t v); [lia | reflexivity]. }
      destruct (IH (to_Uint32 (Z.lor m0 (PGE_EVENTMASK v)))) as (mask & Hm & Hbits).
      { intros t Ht. rewrite Hb in Ht.
        apply orb_true_iff in Ht as [Ht|Ht]; [exact (Hm0 t Ht)|].
        apply Z.eqb_eq in Ht. lia. }
      exists mask. split; [exact Hm|]. intros t. rewrite Hbits, Hb.
      cbn [existsb]. rewrite orb_assoc. reflexivity. }
  destruct (H 0) as (mask & Hm & Hbits).
  { intros t Ht. rewrite Z.bits_0 in Ht. discriminate Ht. }
  exists mask. split; [|split].
  - unfold filter_mask. rewrite Hm. reflexivity.
  - intros t. rewrite Hbits, Z.bits_0. reflexivity.
  - intros v. unfold filter_mask. cbn [mask_of_items].
    rewrite Z.lor_0_l. reflexivity.
Qed.

Lemma X15_block_allow_query_witness :
  let K := sdl12_enum in
  let s := module_init repeat_500_100 in
  fst (set_blocked [TypeInt 2] s) = Return tt
  /\ fst (set_allowed [TypeInt 2] s) = Return tt
  /\ get_blocked [TypeInt 2] (snd (set_blocked [TypeInt 2] s)) = Return 1
  /\ get_blocked [TypeInt 2] (snd (set_allowed [TypeInt 2] s)) = Return 0
  /\ (forall T', CheckEventInRange T' = true -> T' <> 2 ->
                 get_blocked [TypeInt T'] (snd (set_blocked [TypeInt 2] s))
                 = get_blocked [TypeInt T'] s
                 /\ get_blocked [TypeInt T'] (snd (set_allowed [TypeInt 2] s))
                    = get_blocked [TypeInt T'] s).
Proof.
  intros K s.
  apply (X15_block_allow_query (K := sdl12_enum) sdl12_enum_wf 2 s).
  - reflexivity.
  - reflexivity.
Defined.

Lemma X16_none_argument_witness :
  let K := sdl12_enum in
  let s := snd (set_blocked [TypeInt 2] (module_init repeat_500_100)) in
  set_allowed [TypeNone] s = set_blocked [TypeNone] s
  /\ get_blocked [TypeInt 2] (snd (set_allowed [TypeNone] s))
     = get_blocked [TypeInt 2] s.
Proof.
  intros K s.
  apply (X16_none_argument (K := sdl12_enum) sdl12_enum_wf 2 s).
  reflexivity.
Defined.

Lemma X17_sequence_partial_effect_witness :
  let K := sdl12_enum in
  let s := module_init repeat_500_100 in
  let r := set_blocked [TypeSeq (map Some [2; 3] ++ Some 99 :: [Some 4])] s in
  fst r = Raise ValueError
  /\ snd r = snd (set_blocked [TypeSeq (map Some [2; 3])] s)
  /\ (forall T, T ∈ [2; 3] -> get_blocked [TypeInt T] (snd r) = Return 1).
Proof.
  intros K s.
  apply (X17_sequence_partial_effect (K := sdl12_enum) [2; 3]
           (Some 99) [Some 4] s).
  - reflexivity.
  - repeat constructor.
  - reflexivity.
Defined.

Lemma X18_get_blocked_any_witness :
  let K := sdl12_enum in
  let s := snd (set_blocked [TypeInt 3] (module_init repeat_500_100)) in
  get_blocked [TypeSeq (map Some [2; 3])] s
  = Return (bool_to_Z
              (existsb (fun T => is_disabled (native s) (to_Uint8 T)) [2; 3]))
  /\ (get_blocked [TypeSeq (map Some [2; 3])] s = Return 1
      <-> exists T, T ∈ [2; 3] /\ get_blocked [TypeInt T] s = Return 1).
Proof.
  intros K s.
  apply (X18_get_blocked_any (K := sdl12_enum) [2; 3] s).
  - reflexivity.
  - repeat constructor.
Defined.

Lemma X19_filter_mask_bits_witness :
  exists mask,
    filter_mask [TypeSeq (map Some [2; 5])] = Return mask
    /\ (forall t, Z.testbit mask t = existsb (Z.eqb t) [2; 5])
    /\ (forall v, filter_mask [TypeInt v] = filter_mask [TypeSeq [Some v]]).
Proof.
  apply (X19_filter_mask_bits [2; 5]).
  repeat constructor; lia.
Defined.

(** ** Posting *)

Section Posting.
Context {K : PgeEnum}.
Variable Py_UNICODE_TOUPPER : Z -> Z.
Variable our_unichr : Z -> option PyObject.
Variable Text_FromUTF8 : Z -> option PyObject.

(** X20.  [post] of an event whose translated native code is flagged as
    ignored returns None and changes nothing: no record is queued and the
    event's mapping is not registered. *)
Theorem X20_post_blocked_is_dropped (uninit : SDL_Event) (a now : Z)
    (e : PyEventObject) (s : Module) :
  video_init (native s) = true ->
  is_disabled (native s) (to_Uint32 (fst (pg_to_sdl (band s) e))) = true ->
  event_post uninit a now e s = Done (Return tt, s).
Proof.
  intros Hv Hd. unfold event_post, video_init_check. rewrite Hv.
  cbn [negb]. rewrite SDL_EventState_query, Hd.
  change (SDL_IGNORE =? SDL_IGNORE) with true. cbv iota.
  destruct s; reflexivity.
Qed.

(** X21.  [post] of an event that is not blocked, with the allocation
    succeeding and room in the queue: one record is appended to the queue,
    carrying both sentinels, the address of the new node, the push time,
    and as native code the logical type number of the event; the node
    holds the event's mapping at the head of the user-object list.
    Decoding that record hands back the very mapping and puts the list
    back as it was before the post. *)
Theorem X21_post_queues_record (uninit : SDL_Event) (a now : Z)
    (e : PyEventObject) (d : Dict) (s : Module) (l : list (Z * Dict)) :
  video_init (native s) = true ->
  active (native s) = true ->
  is_disabled (native s) (to_Uint32 (fst (pg_to_sdl (band s) e))) = false ->
  e_dict e = Some d ->
  a <> NULL -> mem (registry s) !! a = None ->
  registry_inv (registry s) l ->
  Z.of_nat (length (queue (native s))) < SDL_MAX_QUEUED_EVENTS ->
  exists rec s',
    event_post uninit a now e s = Done (Return tt, s')
    /\ queue (native s') = queue (native s) ++ [rec]
    /\ user_posted rec = true /\ u_data2 (user rec) = a
    /\ type rec = to_Uint32 (e_type e) /\ timestamp rec = now
    /\ registry_inv (registry s') ((a, d) :: l)
    /\ dict_from_event Py_UNICODE_TOUPPER our_unichr Text_FromUTF8 (band s')
                       rec (registry s')
       = Done (d, registry s).
Proof.
  intros Hv Ha Hd He Hnn Hfree Hinv Hroom.
  assert (Eadd : exists reg',
             user_event_addobject a d (registry s) = (a, reg')
             /\ registry_inv reg' ((a, d) :: l)
             /\ user_event_getobject a reg' = Done (Some d, registry s)).
  { destruct (user_event_addobject_inv (registry s) l a d Hinv Hnn Hfree)
      as [Hfst Hinv'].
    pose proof (user_event_getobject_head (registry s) a d Hnn Hfree)
      as Hget.
    destruct (user_event_addobject a d (registry s)) as [h r0].
    cbn [fst snd] in *. subst h. exists r0. auto. }
  destruct Eadd as (reg' & Eadd & Hinv' & Hget).
  set (rec := set_timestamp now
                (set_user (mkUser (to_int USEROBJECT_CHECK1)
                                  USEROBJECT_CHECK2 a)
                          (set_type (to_Uint32 (e_type e)) uninit))).
  exists rec,
    (set_registry reg'
       (set_native (set_queue (queue (native s) ++ [rec]) (native s)) s)).
  split.
  { unfold event_post, video_init_check. rewrite Hv. cbn [negb].
    rewrite SDL_EventState_query, Hd.
    change (SDL_ENABLE =? SDL_IGNORE) with false. cbv iota.
    unfold PyEvent_FillUserEvent. rewrite He, Eadd.
    destruct (Z.eqb_spec a NULL) as [|_]; [contradiction|].
    change (0 =? 0) with true. cbn [negb].
    unfold SDL_PushEvent. rewrite Ha. cbn [negb].
    destruct (Z.leb_spec SDL_MAX_QUEUED_EVENTS
                (Z.of_nat (length (queue (native s))))); [lia|].
    change (1 =? 0) with false. cbv iota. reflexivity. }
  cbn [native set_registry set_native queue set_queue registry band].
  split; [reflexivity|].
  split; [reflexivity|]. split; [reflexivity|]. split; [reflexivity|].
  split; [reflexivity|].
  split; [exact Hinv'|].
  unfold dict_from_event. fold (user_posted rec).
  change (user_posted rec) with true. cbv iota.
  change (u_data2 (user rec)) with a. rewrite Hget. reflexivity.
Qed.

(** X22.  When the native push fails (the event subsystem is shut down,
    or the queue is full), [post] nevertheless returns None: the push
    answers -1 and the code tests the answer for 0.  Nothing is queued,
    and the mapping registered for the record stays in the user-object
    list. *)
Theorem X22_post_push_failure_unreported (uninit : SDL_Event) (a now : Z)
    (e : PyEventObject) (d : Dict) (s : Module) (l : list (Z * Dict)) :
  video_init (native s) = true ->
  is_disabled (native s) (to_Uint32 (fst (pg_to_sdl (band s) e))) = false ->
  e_dict e = Some d ->
  a <> NULL -> mem (registry s) !! a = None ->
  registry_inv (registry s) l ->
  active (native s) = false
  \/ SDL_MAX_QUEUED_EVENTS <= Z.of_nat (length (queue (native s))) ->
  exists s',
    event_post uninit a now e s = Done (Return tt, s')
    /\ native s' = native s
    /\ registry_inv (registry s') ((a, d) :: l).
Proof.
  intros Hv Hd He Hnn Hfree Hinv Hfail.
  assert (Eadd : exists reg',
             user_event_addobject a d (registry s) = (a, reg')
             /\ registry_inv reg' ((a, d) :: l)).
  { destruct (user_event_addobject_inv (registry s) l a d Hinv Hnn Hfree)
      as [Hfst Hinv'].
    destruct (user_event_addobject a d (registry s)) as [h r0].
    cbn [fst snd] in *. subst h. exists r0. auto. }
  destruct Eadd as (reg' & Eadd & Hinv').
  exists (set_registry reg' s). split.
  { unfold event_post, video_init_check. rewrite Hv. cbn [negb].
    rewrite SDL_EventState_query, Hd.
    change (SDL_ENABLE =? SDL_IGNORE) with false. cbv iota.
    unfold PyEvent_FillUserEvent. rewrite He, Eadd.
    destruct (Z.eqb_spec a NULL) as [|_]; [contradiction|].
    change (0 =? 0) with true. cbn [negb].
    assert (Hp : forall ev, SDL_PushEvent now ev (native s) = (-1, native s)).
    { intros ev. unfold SDL_PushEvent.
      destruct (active (native s)); cbn [negb]; [|reflexivity].
      destruct Hfail as [Hf|Hf]; [discriminate Hf|].
      destruct (Z.leb_spec SDL_MAX_QUEUED_EVENTS
                  (Z.of_nat (length (queue (native s))))); [reflexivity|lia]. }
    rewrite Hp. change (-1 =? 0) with false. cbv iota. reflexivity. }
  cbn [native set_registry set_native registry].
  split; [reflexivity | exact Hinv'].
Qed.

(** X23.  When the allocation of the node fails, [post] returns NULL with
    no exception set and leaves the module as it was. *)
Theorem X23_post_allocation_failure (uninit : SDL_Event) (now : Z)
    (e : PyEventObject) (d : Dict) (s : Module) :
  video_init (native s) = true ->
  is_disabled (native s) (to_Uint32 (fst (pg_to_sdl (band s) e))) = false ->
  e_dict e = Some d ->
  event_post uninit NULL now e s = Done (Raise NoException, s).
Proof.
  intros Hv Hd He. unfold event_post, video_init_check. rewrite Hv.
  cbn [negb]. rewrite SDL_EventState_query, Hd.
  change (SDL_ENABLE =? SDL_IGNORE) with false. cbv iota.
  unfold PyEvent_FillUserEvent. rewrite He.
  unfold user_event_addobject. change (NULL =? NULL) with true. cbv iota.
  change (-1 =? 0) with false. cbn [negb]. destruct s as [r b [m h] n].
  reflexivity.
Qed.

End Posting.

Lemma X20_post_blocked_is_dropped_witness :
  let K := sdl12_enum in
  let s := snd (set_blocked [TypeInt 0] (module_init repeat_500_100)) in
  event_post zero_event 1 5 (mkPyEvent PGE_OTHEREVENT (Some ∅)) s
  = Done (Return tt, s).
Proof.
  intros K s.
  apply (X20_post_blocked_is_dropped (K := sdl12_enum) zero_event 1 5
           (mkPyEvent PGE_OTHEREVENT (Some ∅)) s).
  - reflexivity.
  - reflexivity.
Defined.

Lemma X21_post_queues_record_witness :
  let K := sdl12_enum in
  let s := module_init repeat_500_100 in
  let e := mkPyEvent PGE_KEYDOWN (Some ∅) in
  exists rec s',
    event_post zero_event 1 5 e s = Done (Return tt, s')
    /\ queue (native s') = queue (native s) ++ [rec]
    /\ user_posted rec = true /\ u_data2 (user rec) = 1
    /\ type rec = to_Uint32 (e_type e) /\ timestamp rec = 5
    /\ registry_inv (registry s') [(1, ∅)]
    /\ dict_from_event toupper_ascii unichr_bmp text_none (band s') rec
                       (registry s')
       = Done (∅, registry s).
Proof.
  intros K s e.
  apply (X21_post_queues_record (K := sdl12_enum) toupper_ascii unichr_bmp
           text_none zero_event 1 5 e ∅ s []).
  - reflexivity.
  - reflexivity.
  - reflexivity.
  - reflexivity.
  - discriminate.
  - reflexivity.
  - apply registry_init_inv.
  - reflexivity.
Defined.

Lemma X22_post_push_failure_unreported_witness :
  let K := sdl12_enum in
  let s := mkModule repeat_500_100 band_init registry_init
                    (mkNative [] [] [] false true) in
  exists s',
    event_post zero_event 1 5 (mkPyEvent PGE_KEYDOWN (Some ∅)) s
    = Done (Return tt, s')
    /\ native s' = native s
    /\ registry_inv (registry s') [(1, ∅)].
Proof.
  intros K s.
  apply (X22_post_push_failure_unreported (K := sdl12_enum) zero_event 1 5
           (mkPyEvent PGE_KEYDOWN (Some ∅)) ∅ s []).
  - reflexivity.
  - reflexivity.
  - reflexivity.
  - discriminate.
  - reflexivity.
  - apply registry_init_inv.
  - left. reflexivity.
Defined.

Lemma X23_post_allocation_failure_witness :
  let K := sdl12_enum in
  let s := module_init repeat_500_100 in
  event_post zero_event NULL 5 (mkPyEvent PGE_KEYDOWN (Some ∅)) s
  = Done (Raise NoException, s).
Proof.
  intros K s.
  apply (X23_post_allocation_failure (K := sdl12_enum) zero_event 5
           (mkPyEvent PGE_KEYDOWN (Some ∅)) ∅ s).
  - reflexivity.
  - reflexivity.
  - reflexivity.
Defined.

(** ** Polling *)

Section Polling.
Context {K : PgeEnum}.
Variable Py_UNICODE_TOUPPER : Z -> Z.
Variable our_unichr : Z -> option PyObject.
Variable Text_FromUTF8 : Z -> option PyObject.

(** X24.  [poll] answers the no-op event, with an empty mapping, when the
    key-repeat filter drops every event the pump has queued (in particular
    when the queue is empty); the dropped events are gone from the queue,
    and nothing else changes. *)
Theorem X24_poll_noevent (uninit : SDL_Event) (s : Module) :
  video_init (native s) = true ->
  active (native s) = true ->
  Forall (fun d => repeat_filter (repeat s) d = None)
         (queue (SDL_PumpEvents (native s))) ->
  pygame_poll Py_UNICODE_TOUPPER our_unichr Text_FromUTF8 uninit s
  = Done (Return (mkPyEvent PGE_NOEVENT (Some ∅)),
          set_native (set_queue [] (SDL_PumpEvents (native s))) s).
Proof.
  intros Hv Ha Hd. unfold pygame_poll, video_init_check. rewrite Hv.
  cbn [negb].
  assert (Hpa : active (SDL_PumpEvents (native s)) = true) by exact Ha.
  rewrite Hpa.
  assert (Hu : List.filter (fun d => negb (pollable d))
                           (queue (SDL_PumpEvents (native s))) = []).
  { induction Hd as [|d q Hf _ IH]; [reflexivity|]. cbn [List.filter].
    rewrite (key_repeat_pollable d (repeat_filter_drops_repeats _ d Hf)).
    exact IH. }
  rewrite <- (app_nil_r (queue (SDL_PumpEvents (native s)))) at 1.
  rewrite (Py_PollEvent_passed (repeat s)
             (queue (SDL_PumpEvents (native s))) [] uninit)
    by (eapply Forall_impl; [exact Hd | intros d Hf; right; exact Hf]).
  cbn [Py_PollEvent]. rewrite Hu. cbn [app].
  change (0 =? 0) with true. cbv iota.
  unfold PyEvent_New. destruct s as [r b reg n]. reflexivity.
Qed.


End Polling.

Lemma X24_poll_noevent_witness :
  let K := sdl12_enum in
  let s := module_with_queue [keydown_event 10 1; keydown_event 20 1] in
  pygame_poll toupper_ascii unichr_bmp text_none zero_event s
  = Done (Return (mkPyEvent PGE_NOEVENT (Some ∅)),
          set_native (set_queue [] (SDL_PumpEvents (native s))) s).
Proof.
  intros K s.
  apply (X24_poll_noevent (K := sdl12_enum) toupper_ascii unichr_bmp
           text_none zero_event s).
  - reflexivity.
  - reflexivity.
  - repeat constructor.
Defined.


(** ** Constructing and naming events *)

Lemma fold_insert_union (kw d : Dict) :
  map_fold (fun key value acc => <[key := value]> acc) d kw = kw ∪ d.
Proof.
  apply (map_fold_weak_ind (fun r m => r = m ∪ d)).
  - symmetry. apply (left_id ∅ (∪)).
  - intros i x m r _ ->. apply insert_union_l.
Qed.

(** X26.  The mapping of an event built by [Event] holds the entries of
    the dictionary argument and the keyword arguments, a keyword taking
    precedence over a dictionary entry with the same key; the type is the
    one given.  A dictionary passed in is itself updated with the keywords:
    after the call it is the event's mapping. *)
Theorem X26_Event_keywords_override (pge_type : Z)
    (dict keywords : option Dict) :
  let e := fst (Event pge_type dict keywords) in
  e_type e = pge_type
  /\ e_dict e = Some (default ∅ keywords ∪ default ∅ dict)
  /\ (forall key value,
        default ∅ keywords !! key = Some value ->
        exists d, e_dict e = Some d /\ d !! key = Some value)
  /\ snd (Event pge_type dict keywords)
     = match dict with Some _ => e_dict e | None => None end.
Proof.
  assert (E : e_dict (fst (Event pge_type dict keywords))
              = Some (default ∅ keywords ∪ default ∅ dict)).
  { unfold Event, PyEvent_New2. cbn [fst e_dict default].
    destruct keywords as [kw|]; cbn [default].
    - rewrite fold_insert_union. reflexivity.
    - rewrite (left_id ∅ (∪)). reflexivity. }
  cbv zeta. split; [reflexivity|]. split; [exact E|]. split.
  - intros key value Hk. eexists. split; [exact E|].
    apply lookup_union_Some_l, Hk.
  - rewrite E. unfold Event. cbn [snd].
    destruct dict as [d|]; [|reflexivity]. cbn [default].
    destruct keywords as [kw|]; cbn [default].
    + rewrite fold_insert_union. reflexivity.
    + rewrite (left_id ∅ (∪)). reflexivity.
Qed.

Section EventNames.
Context {K : PgeEnum}.
Hypothesis wf : pge_wf.

Lemma name_from_eventtype_named :
  map name_from_eventtype (PGE_NOEVENT :: builtin_types)
  = ["NoEvent"; "ActiveEvent"; "VideoExpose"; "VideoResize"; "KeyDown";
     "KeyUp"; "MouseMotion"; "MouseButtonDown"; "MouseButtonUp";
     "JoyAxisMotion"; "JoyBallMotion"; "JoyHatMotion"; "JoyButtonDown";
     "JoyButtonUp"; "Quit"; "SysWMEvent"]%string.
Proof.
  pose proof (wf_nodup wf) as HN. unfold builtin_types in HN.
  apply NoDup_cons in HN as [H0 HN]. apply NoDup_cons in HN as [_ HN].
  repeat (apply not_elem_of_cons in H0 as [? H0]).
  nodup_facts HN.
  unfold builtin_types. cbn [map].
  repeat f_equal; unfold name_from_eventtype; eqb_steps; reflexivity.
Qed.

Lemma name_from_eventtype_other (t : Z) :
  t ∉ PGE_NOEVENT :: builtin_types ->
  name_from_eventtype t
  = if (PGE_USEREVENT <=? t) && (t <? PGE_NUMEVENTS) then "UserEvent"%string
    else "Unknown"%string.
Proof.
  intros Ht. unfold builtin_types in Ht.
  repeat (apply not_elem_of_cons in Ht as [? Ht]).
  unfold name_from_eventtype. eqb_steps. reflexivity.
Qed.

(** X27.  Event names.  The no-op type and each of the fifteen built-in
    types has a name of its own; every type of the user band, and no
    other, is named "UserEvent"; every other number, the "other" type
    included, is named "Unknown". *)
Theorem X27_event_names :
  map name_from_eventtype (PGE_NOEVENT :: builtin_types)
  = ["NoEvent"; "ActiveEvent"; "VideoExpose"; "VideoResize"; "KeyDown";
     "KeyUp"; "MouseMotion"; "MouseButtonDown"; "MouseButtonUp";
     "JoyAxisMotion"; "JoyBallMotion"; "JoyHatMotion"; "JoyButtonDown";
     "JoyButtonUp"; "Quit"; "SysWMEvent"]%string
  /\ (forall t, name_from_eventtype t = "UserEvent"%string
                <-> PGE_USEREVENT <= t < PGE_NUMEVENTS)
  /\ (forall t, name_from_eventtype t = "Unknown"%string
                <-> (t ∉ PGE_NOEVENT :: builtin_types)
                    /\ ~ (PGE_USEREVENT <= t < PGE_NUMEVENTS))
  /\ name_from_eventtype PGE_OTHEREVENT = "Unknown"%string.
Proof.
  pose proof name_from_eventtype_named as Hn.
  assert (Hin : forall t, t ∈ PGE_NOEVENT :: builtin_types ->
                  name_from_eventtype t <> "UserEvent"%string
                  /\ name_from_eventtype t <> "Unknown"%string
                  /\ t < PGE_USEREVENT).
  { intros t Ht.
    assert (Hm : name_from_eventtype t
                 ∈ map name_from_eventtype (PGE_NOEVENT :: builtin_types))
      by (apply list_elem_of_In, in_map, list_elem_of_In, Ht).
    rewrite Hn in Hm.
    pose proof (wf_builtin wf) as HB. rewrite Forall_forall in HB.
    apply list_elem_of_In in Ht.
    assert (Hlt : t < PGE_USEREVENT).
    { assert (Ht' : t ∈ PGE_NOEVENT :: PGE_OTHEREVENT :: builtin_types).
      { apply list_elem_of_In in Ht. apply elem_of_cons in Ht as [->|Ht].
        - left.
        - right. right. exact Ht. }
      apply HB in Ht'. lia. }
    split; [|split; [|exact Hlt]]; intros E; rewrite E in Hm;
      repeat (apply elem_of_cons in Hm as [Hm|Hm]; [discriminate Hm|]);
      apply elem_of_nil in Hm; exact Hm. }
  assert (Hband : forall t, PGE_USEREVENT <= t < PGE_NUMEVENTS
                            <-> (PGE_USEREVENT <=? t) && (t <? PGE_NUMEVENTS)
                                = true).
  { intros t. rewrite andb_true_iff, Z.leb_le, Z.ltb_lt. reflexivity. }
  split; [exact Hn|]. split; [|split].
  - intros t. destruct (decide (t ∈ PGE_NOEVENT :: builtin_types)) as [Ht|Ht].
    + destruct (Hin t Ht) as (Hu & _ & Hlt). split; [contradiction|lia].
    + rewrite (name_from_eventtype_other t Ht), Hband.
      destruct ((PGE_USEREVENT <=? t) && (t <? PGE_NUMEVENTS));
        split; (reflexivity || discriminate).
  - intros t. destruct (decide (t ∈ PGE_NOEVENT :: builtin_types)) as [Ht|Ht].
    + destruct (Hin t Ht) as (_ & Hu & _). split; [contradiction|tauto].
    + rewrite (name_from_eventtype_other t Ht), Hband.
      destruct ((PGE_USEREVENT <=? t) && (t <? PGE_NUMEVENTS)); split.
      * discriminate.
      * intros [_ H]. destruct (H eq_refl).
      * intros _. split; [exact Ht | discriminate].
      * reflexivity.
  - rewrite name_from_eventtype_other.
    + pose proof (wf_builtin wf) as HB.
      apply Forall_cons in HB as [_ HB]. apply Forall_cons in HB as [HB _].
      destruct (Z.leb_spec PGE_USEREVENT PGE_OTHEREVENT); [lia|reflexivity].
    + pose proof (wf_nodup wf) as HN.
      apply NoDup_cons in HN as [H0 HN]. apply NoDup_cons in HN as [H1 _].
      rewrite not_elem_of_cons in H0. rewrite not_elem_of_cons.
      split; [intros E; apply (proj1 H0); symmetry; exact E | exact H1].
Qed.

End EventNames.

Lemma X27_event_names_witness :
  let K := sdl12_enum in
  map name_from_eventtype (PGE_NOEVENT :: builtin_types)
  = ["NoEvent"; "ActiveEvent"; "VideoExpose"; "VideoResize"; "KeyDown";
     "KeyUp"; "MouseMotion"; "MouseButtonDown"; "MouseButtonUp";
     "JoyAxisMotion"; "JoyBallMotion"; "JoyHatMotion"; "JoyButtonDown";
     "JoyButtonUp"; "Quit"; "SysWMEvent"]%string
  /\ (forall t, name_from_eventtype t = "UserEvent"%string
                <-> PGE_USEREVENT <= t < PGE_NUMEVENTS)
  /\ (forall t, name_from_eventtype t = "Unknown"%string
                <-> (t ∉ PGE_NOEVENT :: builtin_types)
                    /\ ~ (PGE_USEREVENT <= t < PGE_NUMEVENTS))
  /\ name_from_eventtype PGE_OTHEREVENT = "Unknown"%string.
Proof.
  exact (X27_event_names (K := sdl12_enum) sdl12_enum_wf).
Defined.

(** ** Peeking at a user-posted event; argument errors *)

Section PeekPayload.
Context {K : PgeEnum}.
Variable Py_UNICODE_TOUPPER : Z -> Z.
Variable our_unichr : Z -> option PyObject.
Variable Text_FromUTF8 : Z -> option PyObject.

(** X28.  [peek] without argument decodes the event the scan finds first
    and leaves it queued.  When that event was posted by the user, the
    decoding takes its mapping out of the user-object list: [peek] returns
    the mapping, the record stays in the queue, and decoding the same
    record again (as the [get] that follows will) finds no payload under
    its handle and gives the generic mapping instead. *)
Theorem X28_peek_consumes_payload (uninit : SDL_Event) (s : Module)
    (rec : SDL_Event) (rest : list SDL_Event) (d : Dict)
    (l1 l2 : list (Z * Dict)) :
  video_init (native s) = true ->
  active (native s) = true ->
  first_hit (band s) PGE_ALLEVENTS scan_types
            (queue (SDL_PumpEvents (native s))) = Some (rec, rest) ->
  user_posted rec = true ->
  registry_inv (registry s) (l1 ++ (u_data2 (user rec), d) :: l2) ->
  exists s',
    event_peek Py_UNICODE_TOUPPER our_unichr Text_FromUTF8 uninit [] s
    = Done (Return (PeekEvent (mkPyEvent (sdl_to_pg (band s) rec) (Some d))),
            s')
    /\ native s' = SDL_PumpEvents (native s)
    /\ rec ∈ queue (native s')
    /\ registry_inv (registry s') (l1 ++ l2)
    /\ PyEvent_New Py_UNICODE_TOUPPER our_unichr Text_FromUTF8 (band s')
                   (Some rec) (registry s')
       = Done (mkPyEvent
                 (sdl_to_pg (band s) rec)
                 (Some (generic_dict Py_UNICODE_TOUPPER our_unichr
                                     Text_FromUTF8 (band s) rec)),
               registry s').
Proof.
  intros Hv Ha Hhit Hu Hinv.
  assert (Hpa : active (SDL_PumpEvents (native s)) = true) by exact Ha.
  destruct (user_event_getobject_found (registry s) l1 _ d l2 Hinv)
    as (reg' & Hg & Hinv' & _).
  assert (Hnn : u_data2 (user rec) <> NULL).
  { destruct Hinv as (Hseg & _ & _).
    apply (lseg_nonnull _ _ _ _ _ Hseg).
    rewrite fmap_app, fmap_cons, elem_of_app. right. left. }
  assert (Hni : u_data2 (user rec) ∉ (l1 ++ l2).*1).
  { destruct Hinv as (_ & Hnd & _).
    rewrite fmap_app, fmap_cons in Hnd. cbn [fst] in Hnd.
    apply NoDup_app in Hnd as (_ & H1 & Hnd).
    apply NoDup_cons in Hnd as [H2 _].
    rewrite fmap_app, elem_of_app. intros [Hin|Hin]; [|exact (H2 Hin)].
    apply (H1 _ Hin). left. }
  exists (set_registry reg' (set_native (SDL_PumpEvents (native s)) s)).
  split.
  { unfold event_peek, video_init_check. rewrite Hv. cbn [negb filter_mask].
    unfold PG_PeepEvents. rewrite PG_PeepEvents_loop_peek by exact Hpa.
    fold scan_types. rewrite Hhit. cbn [hd].
    unfold PyEvent_New, dict_from_event. fold (user_posted rec).
    rewrite Hu, Hg. reflexivity. }
  cbn [native set_registry set_native registry band].
  split; [reflexivity|]. split.
  { destruct (first_hit_split _ _ _ _ _ _ Hhit) as (q1 & q2 & -> & _).
    rewrite elem_of_app. right. left. }
  split; [exact Hinv'|].
  unfold PyEvent_New, dict_from_event. fold (user_posted rec).
  rewrite Hu, (user_event_getobject_absent reg' _ _ Hinv' Hni Hnn).
  reflexivity.
Qed.

(** X29.  [get], [clear] and [peek] reject their arguments alike and
    before touching anything: more than one argument raises ValueError;
    otherwise an uninitialised video subsystem raises SDLError; otherwise
    an argument that is neither an integer nor a sequence of integers
    raises TypeError.  In each case the module is left as it was, the
    platform input not even pumped. *)
Theorem X29_argument_errors (uninit : SDL_Event) (args : list TypeArg)
    (s : Module) (exc : PyExc) :
  (if (2 <=? length args)%nat then Some ValueError
   else if negb (video_init (native s)) then Some SDLError
   else match filter_mask args with
        | Raise x => Some x
        | Return _ => None
        end) = Some exc ->
  event_get Py_UNICODE_TOUPPER our_unichr Text_FromUTF8 uninit args s
  = Done (Raise exc, s)
  /\ event_clear uninit args s = Done (Raise exc, s)
  /\ event_peek Py_UNICODE_TOUPPER our_unichr Text_FromUTF8 uninit args s
     = Done (Raise exc, s)
  /\ (exc = TypeError ->
      exists arg, args = [arg]
                  /\ match arg with
                     | TypeSeq items => None ∈ items
                     | TypeInt _ => False
                     | _ => True
                     end).
Proof.
  intros H. unfold event_get, event_clear, event_peek, video_init_check.
  destruct args as [|a [|a' args]]; cbn [length Nat.leb] in H.
  - destruct (video_init (native s)); cbn [negb] in *.
    + discriminate H.
    + injection H as <-. repeat split. discriminate.
  - destruct (video_init (native s)); cbn [negb] in *.
    + destruct (filter_mask [a]) as [m|x] eqn:Ef; [discriminate H|].
      injection H as <-. repeat split. intros ->. exists a.
      split; [reflexivity|]. unfold filter_mask in Ef.
      destruct a as [items| |v|]; try exact I; try discriminate Ef.
      assert (Hm : forall m0, mask_of_items items m0 = None -> None ∈ items).
      { clear. induction items as [|[v|] items IH]; intros m0 Hm;
          cbn [mask_of_items] in Hm.
        - discriminate Hm.
        - right. exact (IH _ Hm).
        - left. }
      destruct (mask_of_items items 0) eqn:Em; [discriminate Ef|].
      exact (Hm 0 Em).
    + injection H as <-. repeat split. discriminate.
  - injection H as <-. repeat split. discriminate.
Qed.

End PeekPayload.

Lemma X28_peek_consumes_payload_witness :
  let K := sdl12_enum in
  let rec := set_user (mkUser (to_int USEROBJECT_CHECK1) USEROBJECT_CHECK2 1)
                      (set_type 2 zero_event) in
  let d : Dict := {[ "note"%string := PyInt 7 ]} in
  let s := mkModule repeat_500_100 band_init
                    (snd (user_event_addobject 1 d registry_init))
                    (mkNative [rec] [] [] true true) in
  exists s',
    event_peek toupper_ascii unichr_bmp text_none zero_event [] s
    = Done (Return (PeekEvent (mkPyEvent (sdl_to_pg (band s) rec) (Some d))),
            s')
    /\ native s' = SDL_PumpEvents (native s)
    /\ rec ∈ queue (native s')
    /\ registry_inv (registry s') []
    /\ PyEvent_New toupper_ascii unichr_bmp text_none (band s') (Some rec)
                   (registry s')
       = Done (mkPyEvent
                 (sdl_to_pg (band s) rec)
                 (Some (generic_dict toupper_ascii unichr_bmp text_none
                                     (band s) rec)),
               registry s').
Proof.
  intros K rec d s.
  apply (X28_peek_consumes_payload (K := sdl12_enum) toupper_ascii
           unichr_bmp text_none zero_event s rec [] d [] []).
  - reflexivity.
  - reflexivity.
  - reflexivity.
  - reflexivity.
  - apply user_event_addobject_inv; [|discriminate|reflexivity].
    apply registry_init_inv.
Defined.

Lemma X29_argument_errors_witness :
  let K := sdl12_enum in
  let s := module_with_queue [keydown_event 0 0] in
  let args := [TypeSeq [Some 2; None]] in
  event_get toupper_ascii unichr_bmp text_none zero_event args s
  = Done (Raise TypeError, s)
  /\ event_clear zero_event args s = Done (Raise TypeError, s)
  /\ event_peek toupper_ascii unichr_bmp text_none zero_event args s
     = Done (Raise TypeError, s)
  /\ (TypeError = TypeError ->
      exists arg, args = [arg]
                  /\ match arg with
                     | TypeSeq items => None ∈ items
                     | TypeInt _ => False
                     | _ => True
                     end).
Proof.
  intros K s args.
  apply (X29_argument_errors (K := sdl12_enum) toupper_ascii unichr_bmp
           text_none zero_event args s TypeError).
  reflexivity.
Defined.

(** ** Posting and polling: what comes back *)

Section PostThenPoll.
Context {K : PgeEnum}.
Variable Py_UNICODE_TOUPPER : Z -> Z.
Variable our_unichr : Z -> option PyObject.
Variable Text_FromUTF8 : Z -> option PyObject.

(** A native code below every code SDL2 defines, and outside the user
    band, classifies as "other". *)
Lemma sdl_to_pg_small (b : UserBand) (e : SDL_Event) :
  0 <= type e < 256 ->
  ~ (first_user_event b <= type e <= last_user_event b) ->
  sdl_to_pg b e = PGE_OTHEREVENT.
Proof.
  intros Ht Hb. unfold sdl_to_pg.
  repeat match goal with
         | |- context [type e =? ?c] =>
             destruct (Z.eqb_spec (type e) c) as [E|_];
             [exfalso; revert E;
              unfold SDL_WINDOWEVENT, SDL_KEYDOWN, SDL_KEYUP, SDL_MOUSEMOTION,
                SDL_MOUSEBUTTONDOWN, SDL_MOUSEBUTTONUP, SDL_JOYAXISMOTION,
                SDL_JOYBALLMOTION, SDL_JOYHATMOTION, SDL_JOYBUTTONDOWN,
                SDL_JOYBUTTONUP, SDL_QUIT, SDL_SYSWMEVENT; lia|]
         end.
  destruct (Z.leb_spec (first_user_event b) (type e));
    destruct (Z.leb_spec (type e) (last_user_event b));
    cbn [andb]; try reflexivity.
  lia.
Qed.

(** X30.  Posting an event on an idle module and polling it back.  The
    record is pushed with the logical type number as its native code, so
    the event that comes back carries the posted mapping but not the
    posted type: for every type number below 256 outside the native user
    band it is decoded as the "other" type.  The poll takes the record
    and the payload back out: the module ends as it began. *)
Theorem X30_post_then_poll (uninit uninit' : SDL_Event) (a now : Z)
    (e : PyEventObject) (d : Dict) (s : Module) :
  video_init (native s) = true ->
  active (native s) = true ->
  queue (native s) = [] -> pending (native s) = [] ->
  is_disabled (native s) (to_Uint32 (fst (pg_to_sdl (band s) e))) = false ->
  e_dict e = Some d ->
  a <> NULL -> mem (registry s) !! a = None ->
  0 <= e_type e < 256 ->
  ~ (first_user_event (band s) <= e_type e <= last_user_event (band s)) ->
  exists s1,
    event_post uninit a now e s = Done (Return tt, s1)
    /\ length (queue (native s1)) = 1%nat
    /\ pygame_poll Py_UNICODE_TOUPPER our_unichr Text_FromUTF8 uninit' s1
       = Done (Return (mkPyEvent PGE_OTHEREVENT (Some d)), s).
Proof.
  intros Hv Ha Hq Hp Hd He Hnn Hfree HT Hband.
  set (rec := set_timestamp now
                (set_user (mkUser (to_int USEROBJECT_CHECK1)
                                  USEROBJECT_CHECK2 a)
                          (set_type (to_Uint32 (e_type e)) uninit))).
  assert (Hty : type rec = e_type e).
  { cbn [rec type set_timestamp set_user set_type].
    apply to_Uint32_small. lia. }
  assert (Hget := user_event_getobject_head (registry s) a d Hnn Hfree).
  assert (Eadd : user_event_addobject a d (registry s)
                 = (a, snd (user_event_addobject a d (registry s)))).
  { unfold user_event_addobject.
    destruct (Z.eqb_spec a NULL); [contradiction | reflexivity]. }
  set (reg' := snd (user_event_addobject a d (registry s))) in *.
  exists (set_registry reg' (set_native (set_queue [rec] (native s)) s)).
  split; [|split; [reflexivity|]].
  { unfold event_post, video_init_check. rewrite Hv. cbn [negb].
    rewrite SDL_EventState_query, Hd.
    change (SDL_ENABLE =? SDL_IGNORE) with false. cbv iota.
    unfold PyEvent_FillUserEvent. rewrite He, Eadd.
    destruct (Z.eqb_spec a NULL) as [|_]; [contradiction|].
    change (0 =? 0) with true. cbn [negb].
    unfold SDL_PushEvent. rewrite Ha, Hq. cbn [negb length app].
    reflexivity. }
  unfold pygame_poll, video_init_check.
  cbn [native set_registry set_native video_init set_queue].
  rewrite Hv. cbn [negb].
  rewrite SDL_PumpEvents_idle by exact Hp.
  cbn [active queue repeat set_repeat band registry set_queue set_native
       set_registry native].
  rewrite Ha.
  assert (Hf : repeat_filter (repeat s) rec = Some (repeat s)).
  { unfold repeat_filter. rewrite Hty.
    destruct (Z.eqb_spec (e_type e) SDL_KEYDOWN) as [E|_]; [|reflexivity].
    unfold SDL_KEYDOWN in E. lia. }
  assert (Hpo : pollable rec = true).
  { unfold pollable. rewrite Hty. unfold SDL_FIRSTEVENT, SDL_LASTEVENT.
    destruct (Z.leb_spec 0 (e_type e)); [|lia].
    destruct (Z.leb_spec (e_type e) 65535); [reflexivity | lia]. }
  cbn [Py_PollEvent]. rewrite Hpo, Hf. change (1 =? 0) with false. cbv iota.
  unfold PyEvent_New, dict_from_event.
  change (to_Uint32 (u_code (user rec)) =? USEROBJECT_CHECK1) with true.
  change (u_data1 (user rec) =? USEROBJECT_CHECK2) with true.
  cbn [andb]. change (u_data2 (user rec)) with a.
  cbn [band set_repeat set_native registry set_registry].
  rewrite Hget.
  rewrite (sdl_to_pg_small (band s) rec) by (rewrite Hty; assumption).
  destruct s as [r b reg [q p dis act vi]]. cbn in Hq, Hp. subst q p.
  reflexivity.
Qed.

End PostThenPoll.

Lemma X30_post_then_poll_witness :
  let K := sdl12_enum in
  let s := module_init repeat_500_100 in
  let d : Dict := {[ "key"%string := PyInt 97 ]} in
  exists s1,
    event_post zero_event 1 5 (mkPyEvent PGE_KEYDOWN (Some d)) s
    = Done (Return tt, s1)
    /\ length (queue (native s1)) = 1%nat
    /\ pygame_poll toupper_ascii unichr_bmp text_none zero_event s1
       = Done (Return (mkPyEvent PGE_OTHEREVENT (Some d)), s).
Proof.
  intros K s d.
  apply (X30_post_then_poll (K := sdl12_enum) toupper_ascii unichr_bmp
           text_none zero_event zero_event 1 5
           (mkPyEvent PGE_KEYDOWN (Some d)) d s).
  - reflexivity.
  - reflexivity.
  - reflexivity.
  - reflexivity.
  - reflexivity.
  - reflexivity.
  - discriminate.
  - reflexivity.
  - vm_compute. split; [discriminate | reflexivity].
  - vm_compute. intros [H _]. apply H. reflexivity.
Defined.
